(** * ecom_web: the storefront's catalog, pricing and cart state engine

    A shallow embedding of the browser-side logic of [script.js] and
    [product-detail.js]: the pricing function, the cart ledger kept in
    [window.cart] and [localStorage], the grid filter, the recently-viewed
    list kept in [sessionStorage], and the overlay handling.

    JavaScript numbers are IEEE 754 binary64 values; they are modelled by
    Rocq's primitive floats, whose operations are the same binary64
    operations.  JavaScript values read back from JSON are modelled by the
    type [jsval].  A string is the text of a JavaScript string in UTF-8,
    one [ascii] per byte. *)

From Stdlib Require Import ZArith Lia List Bool String Ascii Floats.
From Stdlib Require Import DecimalString.
Import ListNotations.

Set Warnings "-inexact-float,-register-all".
Local Open Scope Z_scope.
Local Open Scope string_scope.
Local Open Scope list_scope.

(** ** JavaScript numbers *)

Module Num.

Definition num := float.
Bind Scope float_scope with num.

Definition zero : num := 0%float.
Definition one : num := 1%float.
Definition hundred : num := 100%float.
Definition Infinity : num := infinity.
Definition NaN : num := nan.

(** The relational operators of the language on two numbers: every
    comparison with [NaN] is [false]. *)
Definition lt (x y : num) : bool := PrimFloat.ltb x y.
Definition le (x y : num) : bool := PrimFloat.leb x y.
Definition gt (x y : num) : bool := PrimFloat.ltb y x.
Definition ge (x y : num) : bool := PrimFloat.leb y x.

(** [isNaN(x)] on a number. *)
Definition isNaN (x : num) : bool := PrimFloat.is_nan x.

(** [isFinite(x)] on a number. *)
Definition isFinite (x : num) : bool :=
  match Prim2SF x with
  | S754_zero _ | S754_finite _ _ _ => true
  | S754_infinity _ | S754_nan => false
  end.

(** [Math.max(0, x)]: [NaN] when [x] is [NaN], and [+0] wins over [-0]. *)
Definition max0 (x : num) : num :=
  if isNaN x then NaN else if gt x zero then x else zero.

(** The threshold [1e21] from which [toFixed] no longer prints a fixed
    number of decimals: [10^21] is below [2^70], its mantissa
    [10^21 / 2^17] has 53 bits. *)
Definition ten21 : num := SF2Prim (S754_finite false 7629394531250000 17).

(** [cents m e]: the integer [n] for which [n / 100] is nearest to
    [m * 2^e], the larger one of two ([toFixed] step "let n be an integer
    for which n / 10^f - x is as close to zero as possible; if there are
    two such n, pick the larger n"). *)
Definition cents (m : positive) (e : Z) : Z :=
  match e with
  | Zneg k => (Zpos m * 200 + 2 ^ Zpos k) / 2 ^ (Zpos k + 1)
  | _ => Zpos m * 2 ^ e * 100
  end.

(** The binary64 value nearest to [n / 100], ties to even: what reading
    the decimal back gives. *)
Definition of_cents (s : bool) (n : Z) : num :=
  match n with
  | Z0 => if s then (-0)%float else 0%float
  | _ =>
      let '(q, e, l) := SFdiv_core_binary prec emax n 0 100 0 in
      SF2Prim (binary_round_aux prec emax s q e l)
  end.

(** [parseFloat(x.toFixed(2))].  [toFixed] prints ["NaN"], ["Infinity"],
    the shortest decimal that reads back as [x] when [|x| >= 1e21], and
    otherwise the decimal with two fractional digits nearest to [x]; a
    negative zero prints as ["0.00"]. *)
Definition round2 (x : num) : num :=
  match Prim2SF x with
  | S754_nan => NaN
  | S754_infinity _ => x
  | S754_zero _ => zero
  | S754_finite s m e =>
      if ge (abs x) ten21 then x else of_cents s (cents m e)
  end.

(** [x++] on a number: the stored value becomes [x + 1]. *)
Definition incr (x : num) : num := (x + 1)%float.

End Num.

Import Num.

(** ** JavaScript values *)

(** The values the program handles: what [JSON.parse] returns, and
    [undefined] for a property that is not there.  An object is the list of
    its own properties in creation order; an array is an object whose keys
    are its indices. *)
Inductive jsval :=
| VUndef
| VNull
| VBool (b : bool)
| VNum (x : num)
| VStr (s : string)
| VObj (fields : list (string * jsval))
| VArr (items : list jsval).

Arguments VNum x%_float.

Inductive jstype := TUndefined | TObject | TBoolean | TNumber | TString.

(** [typeof v] ([typeof null] is ["object"]). *)
Definition typeof (v : jsval) : jstype :=
  match v with
  | VUndef => TUndefined
  | VNull => TObject
  | VBool _ => TBoolean
  | VNum _ => TNumber
  | VStr _ => TString
  | VObj _ | VArr _ => TObject
  end.

Definition is_number (v : jsval) : bool :=
  match v with VNum _ => true | _ => false end.

Definition is_string (v : jsval) : bool :=
  match v with VStr _ => true | _ => false end.

(** Truthiness, as [if (v)], [!v], [a && b] and [a || b] test it. *)
Definition truthy (v : jsval) : bool :=
  match v with
  | VUndef | VNull => false
  | VBool b => b
  | VNum x => negb (PrimFloat.eqb x 0 || isNaN x)
  | VStr s => negb (String.eqb s "")
  | VObj _ | VArr _ => true
  end.

(** Own properties of an object. *)
Module Obj.

Fixpoint get (k : string) (o : list (string * jsval)) : option jsval :=
  match o with
  | [] => None
  | (k', v) :: o' => if String.eqb k k' then Some v else get k o'
  end.

(** [o[k] = v]: an existing property keeps its place, a new one is added
    last. *)
Fixpoint set (k : string) (v : jsval) (o : list (string * jsval))
  : list (string * jsval) :=
  match o with
  | [] => [(k, v)]
  | (k', v') :: o' =>
      if String.eqb k k' then (k, v) :: o' else (k', v') :: set k v o'
  end.

(** [delete o[k]]. *)
Fixpoint delete (k : string) (o : list (string * jsval))
  : list (string * jsval) :=
  match o with
  | [] => []
  | (k', v') :: o' =>
      if String.eqb k k' then delete k o' else (k', v') :: delete k o'
  end.

(** [Object.keys(o)]. *)
Definition keys (o : list (string * jsval)) : list string := map fst o.

(** The names every object inherits from [Object.prototype].  On an object
    without an own property of that name, [o[k]] reads the inherited
    function or object.  [plain k]: [k] is none of these names, so [o[k]]
    reads an own property or [undefined]. *)
Definition inherited : list string :=
  ["constructor"; "hasOwnProperty"; "isPrototypeOf"; "propertyIsEnumerable";
   "toLocaleString"; "toString"; "valueOf"; "__proto__";
   "__defineGetter__"; "__defineSetter__"; "__lookupGetter__";
   "__lookupSetter__"].

Definition plain (k : string) : bool :=
  negb (existsb (String.eqb k) inherited).

End Obj.

(** [v.k] and [v[k]] for the property names the program reads ([value],
    [type], [quantity], [price], [name] and product identifiers): a missing
    property reads as [undefined], and so does any of these on a number,
    boolean, string or array from JSON.  (Reading a property of [null] or
    [undefined] throws; the program guards every such read.) *)
Definition prop (v : jsval) (k : string) : jsval :=
  match v with
  | VObj o => match Obj.get k o with Some x => x | None => VUndef end
  | _ => VUndef
  end.

(** ** Pricing engine: [window.calculateDiscountedPrice] *)

Module Pricing.

(** The discount badge: the template strings [`${value}% off`] and
    [`-$${value.toFixed(2)}`], kept as the template and its number. *)
Inductive label :=
| PercentOff (value : num)
| FixedOff (value : num).

Record result := {
  finalPrice : jsval;
  discountText : option label;
  originalPrice : jsval;
  hasDiscount : bool
}.

(** The percent branch: [price * (1 - discount.value / 100)]. *)
Definition percent_price (price v : num) : num :=
  (price * (1 - v / 100))%float.

(** The fixed branch: [Math.max(0, price - discount.value)]. *)
Definition fixed_price (price v : num) : num :=
  max0 (price - v)%float.

(** [v === s] for a string constant [s]. *)
Definition is_str (v : jsval) (s : string) : bool :=
  match v with VStr t => String.eqb t s | _ => false end.

(** The discount step: the price, badge and flag before rounding. *)
Definition apply_discount (price : num) (discount : jsval)
  : num * option label * bool :=
  match prop discount "value" with
  | VNum v =>
      if truthy discount && gt v zero then
        if is_str (prop discount "type") "percent" && gt v zero
           && le v hundred then
          (percent_price price v, Some (PercentOff v), true)
        else if is_str (prop discount "type") "fixed" then
          let fp := fixed_price price v in
          if lt fp price then (fp, Some (FixedOff v), true)
          else (price, None, false)
        else (price, None, false)
      else (price, None, false)
  | _ => (price, None, false)
  end.

Definition calculateDiscountedPrice (price discount : jsval) : result :=
  let defaultResult :=
    {| finalPrice := price; discountText := None;
       originalPrice := price; hasDiscount := false |} in
  match price with
  | VNum p =>
      if isNaN p || lt p zero then defaultResult
      else
        let '(fp, text, has) := apply_discount p discount in
        let fp := round2 fp in
        if ge fp p then
          {| finalPrice := VNum p; discountText := None;
             originalPrice := VNum (round2 p); hasDiscount := false |}
        else
          {| finalPrice := VNum fp; discountText := text;
             originalPrice := VNum (round2 p); hasDiscount := has |}
  | _ => defaultResult
  end.

Definition percent (v : num) : jsval :=
  VObj [("type", VStr "percent"); ("value", VNum v)].

Definition fixed (v : num) : jsval :=
  VObj [("type", VStr "fixed"); ("value", VNum v)].

Arguments percent v%_float.
Arguments fixed v%_float.

End Pricing.

(** ** Strings to numbers: [parseFloat] and [Number] conversion *)

(** White space: what [trim], [parseFloat] and the conversion to a number
    skip.  These are the characters TAB, LF, VT, FF, CR and the space, and
    in UTF-8 with two or three bytes U+00A0, U+1680, U+2000 to U+200A,
    U+2028, U+2029, U+202F, U+205F, U+3000 and U+FEFF. *)
Module Space.

Definition space1 (c : ascii) : bool :=
  let n := nat_of_ascii c in
  (Nat.eqb n 32 || (Nat.leb 9 n && Nat.leb n 13))%bool.

Definition space2 (c1 c2 : ascii) : bool :=
  (Nat.eqb (nat_of_ascii c1) 194 && Nat.eqb (nat_of_ascii c2) 160)%bool.

Definition space3 (c1 c2 c3 : ascii) : bool :=
  let n1 := nat_of_ascii c1 in
  let n2 := nat_of_ascii c2 in
  let n3 := nat_of_ascii c3 in
  ((Nat.eqb n1 225 && Nat.eqb n2 154 && Nat.eqb n3 128)
   || (Nat.eqb n1 226 && Nat.eqb n2 128
       && ((Nat.leb 128 n3 && Nat.leb n3 138)
           || Nat.eqb n3 168 || Nat.eqb n3 169 || Nat.eqb n3 175))
   || (Nat.eqb n1 226 && Nat.eqb n2 129 && Nat.eqb n3 159)
   || (Nat.eqb n1 227 && Nat.eqb n2 128 && Nat.eqb n3 128)
   || (Nat.eqb n1 239 && Nat.eqb n2 187 && Nat.eqb n3 191))%bool.

(** The string without the white space it starts with. *)
Fixpoint skip_spaces (s : string) : string :=
  match s with
  | String c1 r1 =>
      if space1 c1 then skip_spaces r1
      else
        match r1 with
        | String c2 r2 =>
            if space2 c1 c2 then skip_spaces r2
            else
              match r2 with
              | String c3 r3 => if space3 c1 c2 c3 then skip_spaces r3 else s
              | EmptyString => s
              end
        | EmptyString => s
        end
  | EmptyString => s
  end.

(** The string is white space from its first to its last byte. *)
Definition all_space (s : string) : bool :=
  match skip_spaces s with EmptyString => true | _ => false end.

(** The string without the white space it ends with. *)
Fixpoint trim_end (s : string) : string :=
  if all_space s then EmptyString
  else
    match s with
    | String c r => String c (trim_end r)
    | EmptyString => EmptyString
    end.

(** [s.trim()]. *)
Definition trim (s : string) : string := trim_end (skip_spaces s).

End Space.

Module ParseFloat.

Definition skip_spaces : string -> string := Space.skip_spaces.

Definition digit (c : ascii) : option Z :=
  let n := nat_of_ascii c in
  if (Nat.leb 48 n && Nat.leb n 57)%bool then Some (Z.of_nat (n - 48))
  else None.

(** Reads decimal digits: the number read after [acc], how many digits
    there were, and the rest of the string. *)
Fixpoint digits (s : string) (acc : Z) (count : Z) : Z * Z * string :=
  match s with
  | String c s' =>
      match digit c with
      | Some d => digits s' (acc * 10 + d) (count + 1)
      | None => (acc, count, s)
      end
  | EmptyString => (acc, count, s)
  end.

Definition sign (s : string) : bool * string :=
  match s with
  | String "-" s' => (true, s')
  | String "+" s' => (false, s')
  | _ => (false, s)
  end.

(** The exponent part [e], [e+] or [e-] with at least one digit, and what
    follows it; [0] and the string itself when there is none. *)
Definition exponent (s : string) : Z * string :=
  match s with
  | String c s' =>
      if (Ascii.eqb c "e" || Ascii.eqb c "E")%bool then
        let '(neg, s'') := sign s' in
        let '(x, count, rest) := digits s'' 0 0 in
        if Z.eqb count 0 then (0, s)
        else (if neg then - x else x, rest)
      else (0, s)
  | EmptyString => (0, s)
  end.

(** The binary64 value nearest to [m * 10^e], ties to even. *)
Definition of_decimal (neg : bool) (m e : Z) : num :=
  match m with
  | Z0 => if neg then (-0)%float else 0%float
  | _ =>
      if Z.leb 0 e then
        SF2Prim (binary_normalize prec emax
                   (if neg then - (m * 10 ^ e) else m * 10 ^ e) 0 false)
      else
        let '(q, e2, l) := SFdiv_core_binary prec emax m 0 (10 ^ (- e)) 0 in
        SF2Prim (binary_round_aux prec emax neg q e2 l)
  end.

(** The longest signed decimal literal (or [Infinity]) at the start of
    [s] and what follows it; [None] when there is none. *)
Definition literal (s : string) : option (num * string) :=
  let '(neg, s) := sign s in
  if String.prefix "Infinity" s then
    Some (if neg then neg_infinity else infinity,
          String.substring 8 (String.length s - 8) s)
  else
    let '(ip, ni, rest) := digits s 0 0 in
    let '(m, nf, rest) :=
      match rest with
      | String "." rest' => digits rest' ip 0
      | _ => (ip, 0, rest)
      end in
    if Z.eqb (ni + nf) 0 then None
    else
      let '(x, rest) := exponent rest in
      Some (of_decimal neg m (x - nf), rest).

(** [parseFloat(s)] on a string: leading white space is skipped, what
    follows the literal is ignored; [NaN] when there is no literal. *)
Definition parse (s : string) : num :=
  match literal (skip_spaces s) with
  | Some (x, _) => x
  | None => NaN
  end.

End ParseFloat.

(** [Number(v)], the conversion that [++] applies to its operand. *)
Module ToNumber.

(** [s.trim()]. *)
Definition trim : string -> string := Space.trim.

Definition digit_in (base : Z) (c : ascii) : option Z :=
  let n := Z.of_nat (nat_of_ascii c) in
  let d :=
    if (48 <=? n)%Z && (n <=? 57)%Z then n - 48
    else if (97 <=? n)%Z && (n <=? 122)%Z then n - 87
    else if (65 <=? n)%Z && (n <=? 90)%Z then n - 55
    else base in
  if (d <? base)%Z then Some d else None.

(** An integer written in [base], all of [s]. *)
Fixpoint integer_in (base : Z) (s : string) (acc : Z) : option Z :=
  match s with
  | String c s' =>
      match digit_in base c with
      | Some d => integer_in base s' (acc * base + d)
      | None => None
      end
  | EmptyString => Some acc
  end.

Definition of_integer (n : option Z) : num :=
  match n with
  | Some n => SF2Prim (binary_normalize prec emax n 0 false)
  | None => NaN
  end.

(** A string converts when all of it, white space aside, is a numeric
    literal; the empty string converts to [0]. *)
Definition of_string (s : string) : num :=
  match trim s with
  | EmptyString => zero
  | String "0" (String c (String d r)) =>
      let body := String d r in
      if (Ascii.eqb c "x" || Ascii.eqb c "X")%bool then
        of_integer (integer_in 16 body 0)
      else if (Ascii.eqb c "o" || Ascii.eqb c "O")%bool then
        of_integer (integer_in 8 body 0)
      else if (Ascii.eqb c "b" || Ascii.eqb c "B")%bool then
        of_integer (integer_in 2 body 0)
      else
        match ParseFloat.literal (trim s) with
        | Some (x, EmptyString) => x
        | _ => NaN
        end
  | t =>
      match ParseFloat.literal t with
      | Some (x, EmptyString) => x
      | _ => NaN
      end
  end.

(** An array converts through the string that joins its elements: the
    empty array as the empty string, a one-element array as that element
    printed ([null] and [undefined] print as the empty string, a number
    prints as a literal that reads back as itself). *)
Fixpoint of_value (v : jsval) : num :=
  match v with
  | VUndef => NaN
  | VNull => zero
  | VBool b => if b then one else zero
  | VNum x => x
  | VStr s => of_string s
  | VObj _ => NaN
  | VArr [] => zero
  | VArr [x] =>
      match x with
      | VUndef | VNull => zero
      | VBool _ => NaN
      | _ => of_value x
      end
  | VArr _ => NaN
  end.

End ToNumber.

(** What [addToCart] is given as the price: a number or a string (the
    [data-product-price] attribute of a button). *)
Inductive price_arg :=
| PNum (x : num)
| PStr (s : string).

Arguments PNum x%_float.

(** [parseFloat(p)].  A number is printed and read back, which gives the
    number itself, with [+0] for [-0]. *)
Definition parseFloat (p : price_arg) : num :=
  match p with
  | PNum x => if PrimFloat.eqb x 0 then zero else x
  | PStr s => ParseFloat.parse s
  end.

(** ** Web storage and JSON *)

Module Storage.

(** A stored string: [Json v] is the JSON text of the value [v];
    [Garbage raw] is a string [raw] that is no JSON text, on which
    [JSON.parse] throws. *)
Inductive text :=
| Garbage (raw : string)
| Json (v : jsval).

(** A storage area ([localStorage] or [sessionStorage]): its items, and
    whether its quota is used up, in which case [setItem] throws. *)
Record store := {
  items : list (string * text);
  full : bool
}.

Definition empty : store := {| items := []; full := false |}.

(** [getItem(key)]: [None] is [null]. *)
Fixpoint lookup (key : string) (l : list (string * text)) : option text :=
  match l with
  | [] => None
  | (k, t) :: l' => if String.eqb key k then Some t else lookup key l'
  end.

Definition getItem (st : store) (key : string) : option text :=
  lookup key (items st).

Fixpoint update (key : string) (t : text) (l : list (string * text))
  : list (string * text) :=
  match l with
  | [] => [(key, t)]
  | (k, t') :: l' =>
      if String.eqb key k then (key, t) :: l' else (k, t') :: update key t l'
  end.

(** [setItem(key, t)]: [None] when it throws. *)
Definition setItem (st : store) (key : string) (t : text) : option store :=
  if full st then None
  else Some {| items := update key t (items st); full := false |}.

(** [JSON.parse(getItem(key))]: [None] when it throws.  A missing item
    is [null], which [JSON.parse] reads as the text ["null"]. *)
Definition JSON_parse (t : option text) : option jsval :=
  match t with
  | None => Some VNull
  | Some (Garbage _) => None
  | Some (Json v) => Some v
  end.

(** What a value reads back as after [JSON.stringify]: a number that is
    not finite prints as [null], a negative zero as [0], a property whose
    value is [undefined] is left out, and an array element that is
    [undefined] prints as [null]. *)
Fixpoint json_image (v : jsval) : jsval :=
  match v with
  | VNum x =>
      if isFinite x then VNum (if PrimFloat.eqb x 0 then zero else x)
      else VNull
  | VObj fields =>
      VObj ((fix image_fields (l : list (string * jsval)) :=
               match l with
               | [] => []
               | (k, VUndef) :: l' => image_fields l'
               | (k, x) :: l' => (k, json_image x) :: image_fields l'
               end) fields)
  | VArr xs =>
      VArr ((fix image_items (l : list jsval) :=
               match l with
               | [] => []
               | VUndef :: l' => VNull :: image_items l'
               | x :: l' => json_image x :: image_items l'
               end) xs)
  | _ => v
  end.

(** [JSON.stringify(v)] for an object or an array [v]. *)
Definition JSON_stringify (v : jsval) : text := Json (json_image v).

End Storage.

Import Storage.

(** ** Cart ledger: [window.cart], [updateCartDisplay], [addToCart] *)

Module Cart.

(** The cart sidebar as [updateCartDisplay] leaves it: the identifiers of
    the rendered lines, the item count (shown when the [.cart-count]
    element exists), the total, and whether the empty-cart message is
    shown. *)
Record panel := {
  lines : list string;
  count : num;
  total : num;
  emptyMsg : bool
}.

(** The part of the page the cart ledger works on, with [window.cart] a
    plain object, which is what the program itself creates and stores.
    [cart] is the own properties of [window.cart]; [panel] is [None] on a
    page that lacks [#cart-sidebar], [#cart-items-list] or
    [#cart-total-amount]. *)
Record state := {
  cart : list (string * jsval);
  localStorage : store;
  panel_ : option panel;
  alerts : list string
}.

Definition KEY : string := "shoppingCart".

(** What [window.cart] is after the script has read the storage: a plain
    object with these own properties, or an [Array] with these elements.
    A stored JSON array passes the test [typeof window.cart !== 'object'],
    so it stays; the functions below describe the pages whose cart is a
    plain object. *)
Inductive loaded :=
| PlainCart (fields : list (string * jsval))
| ArrayCart (items : list jsval).

(** Module initialisation of [script.js]: reads the cart from storage. *)
Definition load (ls : store) : loaded * store :=
  match JSON_parse (getItem ls KEY) with
  | Some v =>
      let c := if truthy v then v else VObj [] in
      match c with
      | VObj fields => (PlainCart fields, ls)
      | VArr xs => (ArrayCart xs, ls)
      | _ =>
          (* not an object: reset, and reset the stored item too; when
             that write throws, the [catch] resets the cart again *)
          match setItem ls KEY (Json (VObj [])) with
          | Some ls' => (PlainCart [], ls')
          | None => (PlainCart [], ls)
          end
      end
  | None => (PlainCart [], ls)
  end.

(** The test that removes an item in [updateCartDisplay]. *)
Definition invalid (item : jsval) : bool :=
  negb (truthy item)
  || match prop item "quantity", prop item "price" with
     | VNum q, VNum p => le q zero || isNaN p
     | _, _ => true
     end.

(** One step of [productIds.forEach]. *)
Definition visit (acc : list (string * jsval) * num * num * list string)
    (id : string) : list (string * jsval) * num * num * list string :=
  let '(c, totalItems, currentCartTotal, rendered) := acc in
  let item := prop (VObj c) id in
  if invalid item then (Obj.delete id c, totalItems, currentCartTotal, rendered)
  else
    match prop item "quantity", prop item "price" with
    | VNum q, VNum p =>
        (c, (totalItems + q)%float, (currentCartTotal + p * q)%float,
         rendered ++ [id])
    | _, _ => acc
    end.

(** The loop over [Object.keys(window.cart)]. *)
Definition sweep (c : list (string * jsval))
  : list (string * jsval) * num * num * list string :=
  fold_left visit (Obj.keys c) (c, zero, zero, []).

Definition cleaned (c : list (string * jsval)) : list (string * jsval) :=
  fst (fst (fst (sweep c))).

(** [localStorage.setItem('shoppingCart', JSON.stringify(window.cart))]
    inside [try], for the plain object with the properties [c]: a write
    that throws is logged and nothing else. *)
Definition persist (c : list (string * jsval)) (ls : store) : store :=
  match setItem ls KEY (JSON_stringify (VObj c)) with
  | Some ls' => ls'
  | None => ls
  end.

Definition updateCartDisplay (st : state) : state :=
  match panel_ st with
  | None => st
  | Some _ =>
      let '(c, totalItems, currentCartTotal, rendered) := sweep (cart st) in
      {| cart := c;
         localStorage := persist c (localStorage st);
         panel_ := Some {| lines := rendered; count := totalItems;
                           total := currentCartTotal;
                           emptyMsg := match c with [] => true | _ => false end |};
         alerts := alerts st |}
  end.

(** [window.cart[productId].quantity++] on the item [item]: the stored
    quantity becomes the old one, converted to a number, plus one.  On
    a number, boolean or string [item] the assignment does nothing (the
    script is not in strict mode), and an array keeps its elements. *)
Definition bump (item : jsval) : jsval :=
  match item with
  | VObj fields =>
      VObj (Obj.set "quantity"
              (VNum (incr (ToNumber.of_value (prop item "quantity")))) fields)
  | _ => item
  end.

(** [window.cart[productId]] as a condition, on a plain object: an own
    property counts by its truthiness; without one, the name of a property
    inherited from [Object.prototype] reads that function or object, which
    is truthy. *)
Definition has_entry (c : list (string * jsval)) (id : string) : bool :=
  match Obj.get id c with
  | Some item => truthy item
  | None => negb (Obj.plain id)
  end.

(** [window.addToCart(productId, productName, productPrice)].  When
    [window.cart[productId]] is an inherited function, [quantity++] lands
    on that function and the cart keeps its properties.  (For [__proto__]
    it lands on [Object.prototype]; the model does not follow that.) *)
Definition addToCart (productId : option string) (productName : jsval)
    (productPrice : price_arg) (st : state) : state :=
  let price := parseFloat productPrice in
  match productId, productName with
  | Some id, VStr name =>
      if String.eqb id "" || String.eqb name "" || isNaN price
         || lt price zero
      then
        {| cart := cart st; localStorage := localStorage st;
           panel_ := panel_ st;
           alerts := alerts st
                     ++ ["Could not add item: invalid product data provided."] |}
      else
        let c :=
          if has_entry (cart st) id then
            match Obj.get id (cart st) with
            | Some item => Obj.set id (bump item) (cart st)
            | None => cart st
            end
          else Obj.set id
                 (VObj [("name", VStr name); ("price", VNum price);
                        ("quantity", VNum one)]) (cart st) in
        updateCartDisplay
          {| cart := c; localStorage := localStorage st;
             panel_ := panel_ st; alerts := alerts st |}
  | _, _ =>
      {| cart := cart st; localStorage := localStorage st;
         panel_ := panel_ st;
         alerts := alerts st
                   ++ ["Could not add item: invalid product data provided."] |}
  end.

(** The click handler of a [.cart-item-remove-btn]. *)
Definition removeItem (id : string) (st : state) : state :=
  if negb (String.eqb id "") && has_entry (cart st) id then
    updateCartDisplay
      {| cart := Obj.delete id (cart st); localStorage := localStorage st;
         panel_ := panel_ st; alerts := alerts st |}
  else st.

End Cart.

(** ** Filter and search: [renderProducts], [applyAllFilters] *)

Module Filters.

(** A product of [products.json] that [createProductCardHTML] accepts:
    [id] and [name] are strings and [price] is a number. *)
Record product := {
  id : string;
  name : string;
  price : num;
  discount : jsval;
  category : option string;
  brand : option string
}.

(** A [.product-card] of the grid: its [data-id], and whether it is
    displayed ([display: flex]) or hidden ([display: none]). *)
Record card := {
  card_id : string;
  shown : bool
}.

(** The filter controls; each element may be missing from the page.  A
    slider holds its value as a string; [brandList] is the values of the
    ticked check boxes. *)
Record controls := {
  searchBar : option string;
  minPriceSlider : option string;
  maxPriceSlider : option string;
  brandList : option (list string)
}.

Record page := {
  allProductsData : list product;
  cards : list card;
  selectedCategory : string;
  isLoading : bool;
  inputs : controls;
  noResultsMsg : bool
}.

(** The grid as [renderProducts] fills it: one card per product, in the
    order of the list. *)
Definition render_cards (products : list product) : list card :=
  map (fun p => {| card_id := id p; shown := true |}) products.

(** [s.includes(t)]. *)
Fixpoint includes (s t : string) : bool :=
  String.prefix t s
  || match s with
     | String _ s' => includes s' t
     | EmptyString => false
     end.

Section Engine.

(** [String.prototype.toLowerCase], a function of the platform. *)
Variable toLowerCase : string -> string.

(** [setActiveCategory(categoryValue)] for a string. *)
Definition setActiveCategory (categoryValue : string) (pg : page) : page :=
  {| allProductsData := allProductsData pg; cards := cards pg;
     selectedCategory := toLowerCase categoryValue;
     isLoading := isLoading pg; inputs := inputs pg;
     noResultsMsg := noResultsMsg pg |}.

Definition searchTerm (pg : page) : string :=
  match searchBar (inputs pg) with
  | Some value => ToNumber.trim (toLowerCase value)
  | None => ""
  end.

Definition currentMinPrice (pg : page) : num :=
  match minPriceSlider (inputs pg) with
  | Some value => ParseFloat.parse value
  | None => zero
  end.

Definition currentMaxPrice (pg : page) : num :=
  match maxPriceSlider (inputs pg) with
  | Some value => ParseFloat.parse value
  | None => Infinity
  end.

Definition selectedBrands (pg : page) : list string :=
  match brandList (inputs pg) with
  | Some values => map toLowerCase values
  | None => []
  end.

Definition nonempty (s : string) : bool := negb (String.eqb s "").

Definition nameMatches (pg : page) (p : product) : bool :=
  negb (nonempty (searchTerm pg))
  || (nonempty (name p) && includes (toLowerCase (name p)) (searchTerm pg)).

Definition categoryMatches (pg : page) (p : product) : bool :=
  negb (nonempty (selectedCategory pg))
  || match category p with
     | Some c => nonempty c && String.eqb (toLowerCase c) (selectedCategory pg)
     | None => false
     end.

Definition priceMatches (pg : page) (p : product) : bool :=
  match Pricing.finalPrice
          (Pricing.calculateDiscountedPrice (VNum (price p)) (discount p)) with
  | VNum finalPrice =>
      ge finalPrice (currentMinPrice pg) && le finalPrice (currentMaxPrice pg)
  | _ => false
  end.

Definition brandMatches (pg : page) (p : product) : bool :=
  match selectedBrands pg with
  | [] => true
  | brands =>
      match brand p with
      | Some b => nonempty b && existsb (String.eqb (toLowerCase b)) brands
      | None => false
      end
  end.

Definition isVisible (pg : page) (p : product) : bool :=
  nameMatches pg p && categoryMatches pg p && priceMatches pg p
  && brandMatches pg p.

(** The body of [allCards.forEach]: the card's product is the first one
    of [allProductsData] with the card's [data-id]. *)
Definition filter_card (pg : page) (c : card) : card :=
  match find (fun p => String.eqb (id p) (card_id c)) (allProductsData pg) with
  | None => {| card_id := card_id c; shown := false |}
  | Some p => {| card_id := card_id c; shown := isVisible pg p |}
  end.

Definition applyAllFilters (pg : page) : page :=
  if isLoading pg then pg
  else
    match allProductsData pg, cards pg with
    | [], [] =>
        {| allProductsData := []; cards := []; 
           selectedCategory := selectedCategory pg;
           isLoading := false; inputs := inputs pg;
           noResultsMsg := false |}
    | _, _ =>
        let cs := map (filter_card pg) (cards pg) in
        {| allProductsData := allProductsData pg; cards := cs;
           selectedCategory := selectedCategory pg;
           isLoading := false; inputs := inputs pg;
           noResultsMsg :=
             negb (existsb shown cs)
             && match allProductsData pg with [] => false | _ => true end |}
    end.

(** The visible subset: the products whose card is displayed. *)
Definition visible (pg : page) : list product :=
  map snd
    (filter (fun cp => shown (fst cp))
            (List.combine (cards pg) (allProductsData pg))).

End Engine.

(** Lower case for the letters [A] to [Z]. *)
Definition ascii_lower (c : ascii) : ascii :=
  let n := nat_of_ascii c in
  if (Nat.leb 65 n && Nat.leb n 90)%bool then ascii_of_nat (n + 32) else c.

Fixpoint lower (s : string) : string :=
  match s with
  | String c s' => String (ascii_lower c) (lower s')
  | EmptyString => EmptyString
  end.

End Filters.

(** ** Recently viewed products: [sessionStorage] *)

Module RecentlyViewed.

Definition RECENTLY_VIEWED_KEY : string := "recentlyViewedProducts".
Definition MAX_RECENTLY_VIEWED : nat := 8.

(** [getRecentlyViewedIds()]: the stored value parsed, [[]] when nothing
    (or the empty string) is stored and when parsing throws. *)
Definition getRecentlyViewedIds (ss : store) : jsval :=
  match getItem ss RECENTLY_VIEWED_KEY with
  | None => VArr []
  | Some (Garbage _) => VArr []
  | Some (Json v) => v
  end.

(** [id !== productId] for an element of the stored array. *)
Definition differs (productId : string) (x : jsval) : bool :=
  match x with
  | VStr s => negb (String.eqb s productId)
  | _ => true
  end.

(** [addRecentlyViewedId(productId)].  On a stored value that is no
    array, [ids.filter] throws and the [catch] leaves the storage as it
    is; so does a [setItem] that throws. *)
Definition addRecentlyViewedId (productId : string) (ss : store) : store :=
  if String.eqb productId "" then ss
  else
    match getRecentlyViewedIds ss with
    | VArr ids =>
        let ids := filter (differs productId) ids in
        let ids := VStr productId :: ids in
        let ids := firstn MAX_RECENTLY_VIEWED ids in
        match setItem ss RECENTLY_VIEWED_KEY (JSON_stringify (VArr ids)) with
        | Some ss' => ss'
        | None => ss
        end
    | _ => ss
    end.

End RecentlyViewed.

(** ** Overlays: sidebars, modals and the zoom layer *)

Module Overlays.

(** The elements of [index.html] that carry the class [visible]: the
    three sidebars and their backdrop [#overlay], the quick-view modal
    and its backdrop, the sign-in modal and its backdrop, and the zoom
    layer.  The page has every one of them, so [getElement] finds each.
    Keyboard focus is not part of the model. *)
Inductive element :=
| Nav | CartSidebar | FilterSidebar | Overlay
| ProductModal | ModalOverlay
| AuthModal | AuthModalOverlay
| ZoomOverlay.

Inductive form := Login | Signup.

(** What [setTimeout] has queued, all with the same delay of 50 ms, so
    in the order of the calls. *)
Inductive task :=
| AfterClose                 (* [closeOverlay]: recompute the scroll lock *)
| OpenAuthLater (f : form)   (* the trigger's deferred [openAuthModal] *)
| ShowAuth (f : form).       (* the deferred body of [openAuthModal] *)

Record dom := {
  nav : bool;
  cartSidebar : bool;
  filterSidebar : bool;
  overlay : bool;
  productModal : bool;
  modalOverlay : bool;
  authModal : bool;
  authModalOverlay : bool;
  zoomOverlay : bool;
  authForm : form;
  noScroll : bool;
  timers : list task
}.

Definition initial : dom :=
  {| nav := false; cartSidebar := false; filterSidebar := false;
     overlay := false; productModal := false; modalOverlay := false;
     authModal := false; authModalOverlay := false; zoomOverlay := false;
     authForm := Login; noScroll := false; timers := [] |}.

Definition visible (e : element) (d : dom) : bool :=
  match e with
  | Nav => nav d
  | CartSidebar => cartSidebar d
  | FilterSidebar => filterSidebar d
  | Overlay => overlay d
  | ProductModal => productModal d
  | ModalOverlay => modalOverlay d
  | AuthModal => authModal d
  | AuthModalOverlay => authModalOverlay d
  | ZoomOverlay => zoomOverlay d
  end.

Definition set_visible (e : element) (b : bool) (d : dom) : dom :=
  match e with
  | Nav =>
    {| nav := b; cartSidebar := cartSidebar d;
     filterSidebar := filterSidebar d; overlay := overlay d;
     productModal := productModal d; modalOverlay := modalOverlay d;
     authModal := authModal d; authModalOverlay := authModalOverlay d;
     zoomOverlay := zoomOverlay d; authForm := authForm d;
     noScroll := noScroll d; timers := timers d |}
  | CartSidebar =>
    {| nav := nav d; cartSidebar := b; filterSidebar := filterSidebar d;
       overlay := overlay d; productModal := productModal d;
       modalOverlay := modalOverlay d; authModal := authModal d;
       authModalOverlay := authModalOverlay d;
     zoomOverlay := zoomOverlay d; authForm := authForm d;
     noScroll := noScroll d; timers := timers d |}
  | FilterSidebar =>
    {| nav := nav d; cartSidebar := cartSidebar d; filterSidebar := b;
       overlay := overlay d; productModal := productModal d;
       modalOverlay := modalOverlay d; authModal := authModal d;
       authModalOverlay := authModalOverlay d;
     zoomOverlay := zoomOverlay d; authForm := authForm d;
     noScroll := noScroll d; timers := timers d |}
  | Overlay =>
    {| nav := nav d; cartSidebar := cartSidebar d;
     filterSidebar := filterSidebar d; overlay := b;
     productModal := productModal d; modalOverlay := modalOverlay d;
     authModal := authModal d; authModalOverlay := authModalOverlay d;
     zoomOverlay := zoomOverlay d; authForm := authForm d;
     noScroll := noScroll d; timers := timers d |}
  | ProductModal =>
    {| nav := nav d; cartSidebar := cartSidebar d;
     filterSidebar := filterSidebar d; overlay := overlay d;
     productModal := b; modalOverlay := modalOverlay d;
     authModal := authModal d; authModalOverlay := authModalOverlay d;
     zoomOverlay := zoomOverlay d; authForm := authForm d;
     noScroll := noScroll d; timers := timers d |}
  | ModalOverlay =>
    {| nav := nav d; cartSidebar := cartSidebar d;
     filterSidebar := filterSidebar d; overlay := overlay d;
     productModal := productModal d; modalOverlay := b;
     authModal := authModal d; authModalOverlay := authModalOverlay d;
     zoomOverlay := zoomOverlay d; authForm := authForm d;
     noScroll := noScroll d; timers := timers d |}
  | AuthModal =>
    {| nav := nav d; cartSidebar := cartSidebar d;
     filterSidebar := filterSidebar d; overlay := overlay d;
     productModal := productModal d; modalOverlay := modalOverlay d;
     authModal := b; authModalOverlay := authModalOverlay d;
     zoomOverlay := zoomOverlay d; authForm := authForm d;
     noScroll := noScroll d; timers := timers d |}
  | AuthModalOverlay =>
    {| nav := nav d; cartSidebar := cartSidebar d;
     filterSidebar := filterSidebar d; overlay := overlay d;
     productModal := productModal d; modalOverlay := modalOverlay d;
     authModal := authModal d; authModalOverlay := b;
     zoomOverlay := zoomOverlay d; authForm := authForm d;
     noScroll := noScroll d; timers := timers d |}
  | ZoomOverlay =>
    {| nav := nav d; cartSidebar := cartSidebar d;
     filterSidebar := filterSidebar d; overlay := overlay d;
     productModal := productModal d; modalOverlay := modalOverlay d;
     authModal := authModal d; authModalOverlay := authModalOverlay d;
     zoomOverlay := b; authForm := authForm d; noScroll := noScroll d;
       timers := timers d |}
  end.

Definition set_noScroll (b : bool) (d : dom) : dom :=
  {| nav := nav d; cartSidebar := cartSidebar d;
     filterSidebar := filterSidebar d; overlay := overlay d;
     productModal := productModal d; modalOverlay := modalOverlay d;
     authModal := authModal d; authModalOverlay := authModalOverlay d;
     zoomOverlay := zoomOverlay d; authForm := authForm d;
     noScroll := b; timers := timers d |}.

Definition schedule (t : task) (d : dom) : dom :=
  {| nav := nav d; cartSidebar := cartSidebar d;
     filterSidebar := filterSidebar d; overlay := overlay d;
     productModal := productModal d; modalOverlay := modalOverlay d;
     authModal := authModal d; authModalOverlay := authModalOverlay d;
     zoomOverlay := zoomOverlay d; authForm := authForm d;
     noScroll := noScroll d; timers := timers d ++ [t] |}.

Definition set_authForm (f : form) (d : dom) : dom :=
  {| nav := nav d; cartSidebar := cartSidebar d;
     filterSidebar := filterSidebar d; overlay := overlay d;
     productModal := productModal d; modalOverlay := modalOverlay d;
     authModal := authModal d; authModalOverlay := authModalOverlay d;
     zoomOverlay := zoomOverlay d; authForm := f;
     noScroll := noScroll d; timers := timers d |}.

Definition isSidebarOverlayActive (d : dom) : bool := overlay d.
Definition isModalOverlayActive (d : dom) : bool :=
  modalOverlay d || authModalOverlay d.
Definition isZoomOverlayActive (d : dom) : bool := zoomOverlay d.

Definition updateBodyScroll (d : dom) : dom :=
  set_noScroll
    (isSidebarOverlayActive d || isModalOverlayActive d
     || isZoomOverlayActive d) d.

Definition openOverlay (specificOverlay : element) (d : dom) : dom :=
  if visible specificOverlay d then d
  else updateBodyScroll (set_visible specificOverlay true d).

Definition closeOverlay (specificOverlay : element) (d : dom) : dom :=
  if negb (visible specificOverlay d) then d
  else schedule AfterClose (set_visible specificOverlay false d).

Definition closeSidebar (sidebar : element) (d : dom) : dom :=
  if negb (visible sidebar d) then d
  else closeOverlay Overlay (set_visible sidebar false d).

Definition closeAllSidebars (d : dom) : dom :=
  let d := if nav d then closeSidebar Nav d else d in
  let d := if cartSidebar d then closeSidebar CartSidebar d else d in
  if filterSidebar d then closeSidebar FilterSidebar d else d.

Definition closeProductModal (d : dom) : dom :=
  if negb (productModal d) then d
  else set_visible ProductModal false (closeOverlay ModalOverlay d).

Definition closeAuthModal (d : dom) : dom :=
  if negb (authModal d) then d
  else set_visible AuthModal false (closeOverlay AuthModalOverlay d).

Definition closeZoom (d : dom) : dom :=
  if negb (zoomOverlay d) then d else closeOverlay ZoomOverlay d.

(** "Closes the top-most active popup (Zoom > Auth Modal > Product Modal
    > Sidebars)". *)
Definition closeAllPopups (d : dom) : dom :=
  if isZoomOverlayActive d then closeZoom d
  else if authModal d then closeAuthModal d
  else if productModal d then closeProductModal d
  else if isSidebarOverlayActive d then closeAllSidebars d
  else d.

Definition openSidebar (sidebar : element) (d : dom) : dom :=
  if visible sidebar d then d
  else
    let d := closeAllPopups d in
    openOverlay Overlay (set_visible sidebar true d).

(** [openProductModal(product)] with a product and all the modal's
    elements at hand. *)
Definition openProductModal (d : dom) : dom :=
  let d := closeAllPopups d in
  openOverlay ModalOverlay (set_visible ProductModal true d).

(** [window.openZoom(imageUrl)] with an image: the call of
    [closeAllPopups] is commented out in the source. *)
Definition openZoom (d : dom) : dom := openOverlay ZoomOverlay d.

Definition openAuthModal (showForm : form) (d : dom) : dom :=
  if authModal d then d
  else schedule (ShowAuth showForm) (closeAllPopups d).

(** The click handler of an [.auth-trigger]. *)
Definition authTrigger (showForm : form) (d : dom) : dom :=
  if nav d then schedule (OpenAuthLater showForm) (closeSidebar Nav d)
  else openAuthModal showForm d.

Definition run (t : task) (d : dom) : dom :=
  match t with
  | AfterClose => updateBodyScroll d
  | OpenAuthLater f => openAuthModal f d
  | ShowAuth f =>
      if authModal d then d
      else
        set_visible AuthModal true
          (openOverlay AuthModalOverlay (set_authForm f d))
  end.

(** What can happen on the page: the user's actions that reach one of
    the functions above, and the oldest timer firing. *)
Inductive event :=
| ToggleClick (sidebar : element)   (* a sidebar's toggle button *)
| CloseClick (sidebar : element)    (* a sidebar's close button *)
| OverlayClick                      (* the backdrop of the sidebars *)
| ViewDetailsClick                  (* quick view of a product *)
| ModalCloseClick
| ImageClick                        (* a zoomable main image *)
| ZoomCloseClick
| AuthTriggerClick (f : form)
| AuthCloseClick
| EscapeKey
| TimerFires.

Definition is_sidebar (e : element) : bool :=
  match e with
  | Nav | CartSidebar | FilterSidebar => true
  | _ => false
  end.

Definition step (ev : event) (d : dom) : dom :=
  match ev with
  | ToggleClick sb =>
      if is_sidebar sb then
        if visible sb d then closeSidebar sb d else openSidebar sb d
      else d
  | CloseClick sb => if is_sidebar sb then closeSidebar sb d else d
  | OverlayClick => closeAllSidebars d
  | ViewDetailsClick => openProductModal d
  | ModalCloseClick => closeProductModal d
  | ImageClick => openZoom d
  | ZoomCloseClick => closeZoom d
  | AuthTriggerClick f => authTrigger f d
  | AuthCloseClick => closeAuthModal d
  | EscapeKey => closeAllPopups d
  | TimerFires =>
      match timers d with
      | [] => d
      | t :: rest =>
          run t
            {| nav := nav d; cartSidebar := cartSidebar d;
               filterSidebar := filterSidebar d; overlay := overlay d;
               productModal := productModal d; modalOverlay := modalOverlay d;
               authModal := authModal d;
               authModalOverlay := authModalOverlay d;
               zoomOverlay := zoomOverlay d; authForm := authForm d;
               noScroll := noScroll d; timers := rest |}
      end
  end.

Definition steps (evs : list event) (d : dom) : dom :=
  fold_left (fun d ev => step ev d) evs d.

(** The six overlays a user sees, and whether one is open. *)
Inductive popup := PNav | PCart | PFilters | PQuickView | PAuth | PZoom.

Definition is_open (p : popup) (d : dom) : bool :=
  match p with
  | PNav => nav d
  | PCart => cartSidebar d
  | PFilters => filterSidebar d
  | PQuickView => productModal d
  | PAuth => authModal d
  | PZoom => zoomOverlay d
  end.

Definition popups : list popup :=
  [PNav; PCart; PFilters; PQuickView; PAuth; PZoom].

Definition open_count (d : dom) : nat :=
  List.length (filter (fun p => is_open p d) popups).

End Overlays.

(** ** Product detail page: the lists behind the three sliders *)

Module DetailPage.

Import RecentlyViewed.

(** [a === b] for two values that were parsed from JSON: numbers, strings
    and booleans are compared by value, [null] equals [null].  An object
    or an array equals only itself; the program compares properties of two
    different parsed objects, or a property with a string, so two objects
    that meet here are never the same one. *)
Definition strict_eq (a b : jsval) : bool :=
  match a, b with
  | VUndef, VUndef | VNull, VNull => true
  | VBool x, VBool y => Bool.eqb x y
  | VNum x, VNum y => PrimFloat.eqb x y
  | VStr x, VStr y => String.eqb x y
  | _, _ => false
  end.

(** [p.k] for an element [p] of the product list; [None] when the read
    throws, which it does on [null] and [undefined]. *)
Definition member (p : jsval) (k : string) : option jsval :=
  match p with
  | VNull | VUndef => None
  | _ => Some (prop p k)
  end.

(** [products.find(p => p.id === id)]: the first match, [undefined]
    without one; [None] when the callback throws before a match. *)
Fixpoint findById (id : jsval) (products : list jsval) : option jsval :=
  match products with
  | [] => Some VUndef
  | p :: rest =>
      match member p "id" with
      | None => None
      | Some x => if strict_eq x id then Some p else findById id rest
      end
  end.

(** [products.filter(f)] for a callback that may throw. *)
Fixpoint filterBy (f : jsval -> option bool) (products : list jsval)
  : option (list jsval) :=
  match products with
  | [] => Some []
  | p :: rest =>
      match f p, filterBy f rest with
      | Some b, Some l => Some (if b then p :: l else l)
      | _, _ => None
      end
  end.

(** [ids.map(f)] for a callback that may throw. *)
Fixpoint mapBy (f : jsval -> option jsval) (ids : list jsval)
  : option (list jsval) :=
  match ids with
  | [] => Some []
  | x :: rest =>
      match f x, mapBy f rest with
      | Some y, Some l => Some (y :: l)
      | _, _ => None
      end
  end.

(** The callbacks of the two filters of [loadProductData].  The product
    on the page was found by its identifier, the string [productId];
    [category] is its [category] property. *)
Definition sameCategory (category : jsval) (productId : string) (p : jsval)
  : option bool :=
  match member p "category", member p "id" with
  | Some c, Some i =>
      Some (strict_eq c category && negb (strict_eq i (VStr productId)))
  | _, _ => None
  end.

Definition isTrending (productId : string) (p : jsval) : option bool :=
  match member p "trending", member p "id" with
  | Some t, Some i =>
      Some (strict_eq t (VBool true) && negb (strict_eq i (VStr productId)))
  | _, _ => None
  end.

(** The products handed to the "recommended" and "trending" sliders. *)
Definition recommended (allProducts : list jsval) (category : jsval)
    (productId : string) : option (list jsval) :=
  option_map (firstn 8) (filterBy (sameCategory category productId) allProducts).

Definition trending (allProducts : list jsval) (productId : string)
  : option (list jsval) :=
  option_map (firstn 8) (filterBy (isTrending productId) allProducts).

Definition is_undefined (v : jsval) : bool :=
  match v with VUndef => true | _ => false end.

(** The products handed to the "recently viewed" slider: [None] when
    the stored value is no array, on which [filter] throws. *)
Definition recentlyViewedProducts (ss : store) (allProducts : list jsval)
    (productId : string) : option (list jsval) :=
  match getRecentlyViewedIds ss with
  | VArr ids =>
      match filter (differs productId) ids with
      | [] => Some []
      | recentIds =>
          option_map (filter (fun p => negb (is_undefined p)))
            (mapBy (fun id => findById id allProducts) recentIds)
      end
  | _ => None
  end.

End DetailPage.

(** ** Debouncing: [debounce(func, delay)] *)

Module Debounce.

Local Open Scope nat_scope.

Section Debounced.

(** What a call passes on ([...args]), and the delay in milliseconds. *)
Variable A : Type.
Variable delay : nat.

(** A timer set by [setTimeout]: its identifier, the time from which it
    may run, and the arguments its callback hands to [func]. *)
Record timer := {
  timer_id : nat;
  due : nat;
  args : A
}.

(** The state around one debounced function: the time, the timers that
    wait (in the order in which they were set), the next free timer
    identifier, the variable [timeoutId] of the closure ([None] while it
    is [undefined]), and the calls of [func] so far, oldest first. *)
Record world := {
  clock : nat;
  queue : list timer;
  next_id : nat;
  timeoutId : option nat;
  calls : list A
}.

Definition start : world :=
  {| clock := 0; queue := []; next_id := 1; timeoutId := None; calls := [] |}.

(** [clearTimeout(id)]; nothing happens for [undefined] or an identifier
    that is not waiting. *)
Definition clearTimeout (id : option nat) (q : list timer) : list timer :=
  match id with
  | None => q
  | Some i => filter (fun t => negb (Nat.eqb (timer_id t) i)) q
  end.

(** One call of the function that [debounce] returns. *)
Definition invoke (a : A) (w : world) : world :=
  {| clock := clock w;
     queue := clearTimeout (timeoutId w) (queue w)
              ++ [{| timer_id := next_id w; due := clock w + delay;
                     args := a |}];
     next_id := S (next_id w);
     timeoutId := Some (next_id w);
     calls := calls w |}.

Definition is_due (now : nat) (t : timer) : bool := Nat.leb (due t) now.

(** [t] milliseconds pass without a call: the timers whose time has
    come run their callback, [func.apply(this, args)]. *)
Definition elapse (t : nat) (w : world) : world :=
  let now := clock w + t in
  {| clock := now;
     queue := filter (fun x => negb (is_due now x)) (queue w);
     next_id := next_id w;
     timeoutId := timeoutId w;
     calls := calls w ++ map args (filter (is_due now) (queue w)) |}.

Inductive event :=
| Invoke (a : A)
| Wait (t : nat).

Definition step (w : world) (ev : event) : world :=
  match ev with
  | Invoke a => invoke a w
  | Wait t => elapse t w
  end.

Definition run (evs : list event) (w : world) : world :=
  fold_left step evs w.

End Debounced.

Arguments timer_id {A} t.
Arguments due {A} t.
Arguments args {A} t.
Arguments clock {A} w.
Arguments queue {A} w.
Arguments next_id {A} w.
Arguments timeoutId {A} w.
Arguments calls {A} w.
Arguments start {A}.
Arguments clearTimeout {A} id q.
Arguments invoke {A} delay a w.
Arguments is_due {A} now t.
Arguments elapse {A} t w.
Arguments Invoke {A} a.
Arguments Wait {A} t.
Arguments step {A} delay w ev.
Arguments run {A} delay evs w.

End Debounce.

(** * Vocabulary of the statements

    The predicates and the sample data that the lemmas and theorems of the
    second part are stated with. *)

Module Binary64.

Local Open Scope Z_scope.

(** The position of the leading bit of a finite number. *)
Definition mag (m : positive) (e : Z) : Z := Zdigits2 (Zpos m) + e.

(** Classes of numbers in their specification. *)
Definition finite_or_zero (x : spec_float) : Prop :=
  match x with
  | S754_zero _ | S754_finite _ _ _ => True
  | _ => False
  end.

Definition not_nan (x : spec_float) : Prop :=
  match x with S754_nan => False | _ => True end.

(** Below [2^k] in absolute value. *)
Definition below (k : Z) (x : spec_float) : Prop :=
  match x with
  | S754_zero _ => True
  | S754_finite _ m e => mag m e <= k
  | _ => False
  end.

(** Above zero: a finite number or the infinity of positive sign. *)
Definition positive_number (x : spec_float) : Prop :=
  match x with
  | S754_finite false _ _ | S754_infinity false => True
  | _ => False
  end.

(** The numbers [1] and [100]. *)
Definition SF_one : spec_float := S754_finite false 4503599627370496 (-52).

Definition SF_hundred : spec_float :=
  S754_finite false 7036874417766400 (-46).

End Binary64.

Module PricingSpec.

Import Pricing.

(** The result that hands the price back unchanged. *)
Definition passthrough (price : jsval) : result :=
  {| finalPrice := price; discountText := None;
     originalPrice := price; hasDiscount := false |}.

(** [price] is a finite number that is at least zero. *)
Definition finite_nonneg (price : jsval) : bool :=
  match price with
  | VNum p => isFinite p && ge p zero
  | _ => false
  end.

(** [finalPrice < price] for a result and a price. *)
Definition lower (r : result) (price : num) : bool :=
  match finalPrice r with
  | VNum f => lt f price
  | _ => false
  end.

End PricingSpec.

Module CartSpec.

Import Cart.

(** The cart that the loop of [updateCartDisplay] leaves. *)
Definition sweep_cart (ks : list string) (c : list (string * jsval))
  : list (string * jsval) :=
  fold_left
    (fun c id => if invalid (prop (VObj c) id) then Obj.delete id c else c)
    ks c.

(** A page with an empty cart panel and an empty storage. *)
Definition fresh (c : list (string * jsval)) : state :=
  {| cart := c; localStorage := Storage.empty;
     panel_ := Some {| lines := []; count := zero; total := zero;
                       emptyMsg := true |};
     alerts := [] |}.

(** A cart line with a negative price. *)
Definition negative_line : jsval :=
  VObj [("name", VStr "Widget"); ("price", VNum (-5)); ("quantity", VNum 1)].

(** An entry that the sweep is to keep: it is truthy, its quantity and
    its price are numbers, the quantity is not [<= 0] and the price is not
    [NaN]. *)
Definition stays (item : jsval) : Prop :=
  truthy item = true
  /\ exists q p,
       prop item "quantity" = VNum q /\ prop item "price" = VNum p
       /\ le q zero = false /\ isNaN p = false.

(** A stored cart with a good line, a line of quantity 0, a line with a
    negative price, an entry that is [null], a line whose quantity is a
    string and a line whose price is [NaN]. *)
Definition mixed_cart : list (string * jsval) :=
  [("p1", VObj [("name", VStr "Mug"); ("price", VNum 15);
                ("quantity", VNum 2)]);
   ("p2", VObj [("name", VStr "Lamp"); ("price", VNum 30);
                ("quantity", VNum 0)]);
   ("p3", negative_line);
   ("p4", VNull);
   ("p5", VObj [("name", VStr "Pen"); ("price", VNum 2);
                ("quantity", VStr "2")]);
   ("p6", VObj [("name", VStr "Cap"); ("price", VNum NaN);
                ("quantity", VNum 1)])].

(** The text of the alert of [addToCart]. *)
Definition alert_text : string :=
  "Could not add item: invalid product data provided.".

(** The state after a rejected call: one more alert, nothing else. *)
Definition alerted (st : state) : state :=
  {| cart := cart st; localStorage := localStorage st; panel_ := panel_ st;
     alerts := alerts st ++ [alert_text] |}.

(** The test of [addToCart]: the identifier is missing or empty, the
    name is not a non-empty string, or the parsed price is [NaN] or
    negative. *)
Definition rejects (productId : option string) (productName : jsval)
    (productPrice : price_arg) : bool :=
  match productId, productName with
  | Some id, VStr name =>
      String.eqb id "" || String.eqb name "" || isNaN (parseFloat productPrice)
      || lt (parseFloat productPrice) zero
  | _, _ => true
  end.

(** The entry that a first add creates. *)
Definition new_line (name : string) (price : num) : jsval :=
  VObj [("name", VStr name); ("price", VNum price); ("quantity", VNum one)].

(** The entry [item] with its quantity replaced. *)
Definition with_quantity (q : num) (fields : list (string * jsval)) : jsval :=
  VObj (Obj.set "quantity" (VNum q) fields).

(** Every entry of the cart passes the test of the sweep: the state of
    the cart after [updateCartDisplay] has run on a page with the panel. *)
Definition clean (c : list (string * jsval)) : bool :=
  forallb (fun kv => negb (invalid (snd kv))) c.

End CartSpec.

Module RecentlyViewedSpec.

Import RecentlyViewed.
Local Open Scope nat_scope.

(** The list after one more view, on identifiers. *)
Definition record (id : string) (ids : list string) : list string :=
  firstn MAX_RECENTLY_VIEWED
    (id :: filter (fun x => negb (String.eqb x id)) ids).

(** The stored list is the list of strings [ids]. *)
Definition holds (ss : store) (ids : list string) : Prop :=
  getRecentlyViewedIds ss = VArr (map VStr ids).

(** A session storage in which three products were viewed. *)
Definition three_viewed : store :=
  {| items := [(RECENTLY_VIEWED_KEY,
                Json (VArr [VStr "p3"; VStr "p2"; VStr "p1"]))];
     full := false |}.

(** The stored list is a list of identifiers without duplicates, at most
    8 long. *)
Definition well_formed (ss : store) : Prop :=
  exists ids, holds ss ids /\ NoDup ids /\ List.length ids <= 8.

End RecentlyViewedSpec.

Module FiltersSpec.

Import Filters.

(** What the shopper has chosen, as the specification names it: the
    search term, the selected category, the two ends of the price range
    and the ticked brands. *)
Record criteria := {
  term : string;
  chosen : string;
  lowest : num;
  highest : num;
  ticked : list string
}.

(** The byte pair of U+00A0, the no-break space. *)
Definition nbsp : string :=
  String (ascii_of_nat 194) (String (ascii_of_nat 160) EmptyString).

Section Matching.

Variable toLowerCase : string -> string.

(** The choices that the controls of a page show: the text of the search
    box in lower case without the white space around it, the active
    category, the numbers at the head of the two slider values, and the
    values of the ticked boxes in lower case.  A page without the search
    box searches for nothing, one without a slider has the bound 0 or
    [Infinity], one without the brand list has no brand ticked. *)
Definition criteria_of (pg : page) : criteria :=
  let c := inputs pg in
  {| term := match searchBar c with
             | Some text => Space.trim (toLowerCase text)
             | None => ""
             end;
     chosen := selectedCategory pg;
     lowest := match minPriceSlider c with
               | Some text => ParseFloat.parse text
               | None => zero
               end;
     highest := match maxPriceSlider c with
                | Some text => ParseFloat.parse text
                | None => Infinity
                end;
     ticked := match brandList c with
               | Some values => map toLowerCase values
               | None => []
               end |}.

(** The four conditions of a match, as the specification words them:
    the search term is empty or the lower-cased name contains it; the
    selected category is empty or equals the lower-cased category; the
    final price of the pricing engine lies between the two ends of the
    range, bounds included; no brand is ticked or the lower-cased brand is
    among the ticked ones. *)
Definition matches (f : criteria) (p : product) : Prop :=
  (term f = ""
   \/ (name p <> "" /\ includes (toLowerCase (name p)) (term f) = true))
  /\ (chosen f = ""
      \/ exists c, category p = Some c /\ c <> ""
                   /\ toLowerCase c = chosen f)
  /\ (exists final,
        Pricing.finalPrice
          (Pricing.calculateDiscountedPrice (VNum (price p)) (discount p))
        = VNum final
        /\ ge final (lowest f) = true
        /\ le final (highest f) = true)
  /\ (ticked f = []
      \/ exists b, brand p = Some b /\ b <> ""
                   /\ In (toLowerCase b) (ticked f)).

End Matching.

(** The catalog of the example: two products without discount. *)
Definition laptop : product :=
  {| id := "p1"; name := "Laptop Pro X"; price := 1099; discount := VUndef;
     category := Some "Electronics"; brand := Some "TechCo" |}.

Definition mug : product :=
  {| id := "p2"; name := "Coffee Mug"; price := 15; discount := VUndef;
     category := Some "Home"; brand := Some "Cozy" |}.

(** The grid after [renderProducts], with the search term ["lap"], no
    category, the price range 0 to 1200 and no brand ticked. *)
Definition example_page : page :=
  {| allProductsData := [laptop; mug];
     cards := render_cards [laptop; mug];
     selectedCategory := "";
     isLoading := false;
     inputs := {| searchBar := Some "lap"; minPriceSlider := Some "0";
                  maxPriceSlider := Some "1200"; brandList := Some [] |};
     noResultsMsg := false |}.

(** The choices of the example. *)
Definition example_criteria : criteria :=
  {| term := "lap"; chosen := ""; lowest := 0; highest := 1200;
     ticked := [] |}.

(** The same grid with the search text [" Lap"] followed by a no-break
    space. *)
Definition nbsp_page : page :=
  {| allProductsData := [laptop; mug];
     cards := render_cards [laptop; mug];
     selectedCategory := "";
     isLoading := false;
     inputs := {| searchBar := Some (String.append " Lap" nbsp);
                  minPriceSlider := Some "0";
                  maxPriceSlider := Some "1200"; brandList := Some [] |};
     noResultsMsg := false |}.

End FiltersSpec.

Module OverlaysSpec.

Import Overlays.

(** The elements that carry the class [visible]. *)
Definition elements : list element :=
  [Nav; CartSidebar; FilterSidebar; Overlay; ProductModal; ModalOverlay;
   AuthModal; AuthModalOverlay; ZoomOverlay].

(** The elements that are visible when [A] is the one open overlay:
    the overlay itself and its backdrop. *)
Definition expected (A : option popup) (e : element) : bool :=
  match A, e with
  | Some PNav, (Nav | Overlay) => true
  | Some PCart, (CartSidebar | Overlay) => true
  | Some PFilters, (FilterSidebar | Overlay) => true
  | Some PQuickView, (ProductModal | ModalOverlay) => true
  | Some PAuth, (AuthModal | AuthModalOverlay) => true
  | Some PZoom, ZoomOverlay => true
  | _, _ => false
  end.

(** [shows A d]: exactly the overlay [A] is open in [d], or none when [A]
    is [None]. *)
Definition shows (A : option popup) (d : dom) : bool :=
  forallb (fun e => Bool.eqb (visible e d) (expected A e)) elements.

(** The element of a sidebar. *)
Definition sidebar_of (p : popup) : element :=
  match p with
  | PNav => Nav
  | PCart => CartSidebar
  | _ => FilterSidebar
  end.

(** What opening the overlay [B] does to the page: the three sidebars
    and the quick view open at once; the sign-in modal opens when the
    timers of its trigger have fired; the zoom layer opens at once. *)
Definition open (B : popup) (f : form) (d : dom) : dom :=
  match B with
  | PNav | PCart | PFilters => openSidebar (sidebar_of B) d
  | PQuickView => openProductModal d
  | PAuth => steps [AuthTriggerClick f; TimerFires; TimerFires; TimerFires] d
  | PZoom => openZoom d
  end.

(** A user action followed by the timers it started: actions are more
    than 50 ms apart. *)
Definition act (ev : event) (d : dom) : dom :=
  steps [ev; TimerFires; TimerFires; TimerFires] d.

(** A sequence of such actions. *)
Definition acts (evs : list event) (d : dom) : dom :=
  fold_left (fun d ev => act ev d) evs d.

(** The action that opens the zoom layer. *)
Definition opens_zoom (ev : event) : bool :=
  match ev with ImageClick => true | _ => false end.

(** No timer is pending, and one overlay or none is open. *)
Definition tidy (d : dom) : Prop :=
  timers d = [] /\ exists A, shows A d = true.

End OverlaysSpec.

Module Signs.

(** Not below zero: a zero of either sign, a positive finite number or
    the positive infinity. *)
Definition nonneg (x : spec_float) : Prop :=
  match x with
  | S754_zero _ | S754_finite false _ _ | S754_infinity false => True
  | _ => False
  end.

(** Not above zero. *)
Definition nonpos (x : spec_float) : Prop :=
  match x with
  | S754_zero _ | S754_finite true _ _ | S754_infinity true => True
  | _ => False
  end.

End Signs.

Module LedgerSpec.

Import Cart CartSpec.

(** The entry passes the test of the sweep. *)
Definition valid (kv : string * jsval) : bool := negb (invalid (snd kv)).

(** The entries that pass the test, in the order of the cart. *)
Definition kept (c : list (string * jsval)) : list (string * jsval) :=
  filter valid c.

(** [item.quantity] and [item.price * item.quantity] of a cart line. *)
Definition quantity (item : jsval) : num :=
  match prop item "quantity" with VNum q => q | _ => zero end.

Definition line_total (item : jsval) : num :=
  match prop item "price", prop item "quantity" with
  | VNum p, VNum q => (p * q)%float
  | _, _ => zero
  end.

(** The sums over the lines of a cart, from the first line on. *)
Definition count_from (t : num) (c : list (string * jsval)) : num :=
  fold_left (fun t kv => (t + quantity (snd kv))%float) c t.

Definition total_from (t : num) (c : list (string * jsval)) : num :=
  fold_left (fun t kv => (t + line_total (snd kv))%float) c t.

(** The panel that shows the cart [c]. *)
Definition summary (c : list (string * jsval)) : panel :=
  {| lines := Obj.keys c; count := count_from zero c;
     total := total_from zero c;
     emptyMsg := match c with [] => true | _ => false end |}.

(** Every property name occurs once, as in an object. *)
Definition unique_keys (c : list (string * jsval)) : Prop :=
  NoDup (Obj.keys c).

(** The properties of an object as [JSON.stringify] prints them. *)
Fixpoint image_fields (l : list (string * jsval)) : list (string * jsval) :=
  match l with
  | [] => []
  | (k, VUndef) :: l' => image_fields l'
  | (k, x) :: l' => (k, json_image x) :: image_fields l'
  end.

(** A page starts: [script.js] reads the cart from storage, and the
    handler of [DOMContentLoaded] calls [updateCartDisplay].  [None] for
    a stored array, which the cart functions do not describe. *)
Definition startup (ls : store) (pnl : option panel) : option state :=
  match load ls with
  | (PlainCart c, ls') =>
      Some (updateCartDisplay
              {| cart := c; localStorage := ls'; panel_ := pnl;
                 alerts := [] |})
  | (ArrayCart _, _) => None
  end.

(** A cart that [JSON.parse] reads back from its own [JSON.stringify]
    as it is: its numbers are finite and no negative zero, and no
    property is [undefined]. *)
Definition printable (c : list (string * jsval)) : Prop :=
  json_image (VObj c) = VObj c.

(** A number that JSON cannot print: [NaN] or an infinity. *)
Definition unprintable (v : jsval) : bool :=
  match v with VNum x => negb (isFinite x) | _ => false end.

(** Calls of [addToCart] for one product, each with its own name and
    price argument. *)
Definition add_more (id : string) (calls : list (string * price_arg))
    (st : state) : state :=
  fold_left (fun s np => addToCart (Some id) (VStr (fst np)) (snd np) s)
            calls st.

Definition accepted (id : string) (call : string * price_arg) : bool :=
  negb (rejects (Some id) (VStr (fst call)) (snd call)).

(** The first byte of a white-space character outside ASCII. *)
Definition space_lead (c : ascii) : bool :=
  existsb (Nat.eqb (nat_of_ascii c)) [194; 225; 226; 227; 239]%nat.

(** The bytes a price text can start with when [parseFloat] reads a
    number from it: white space, a digit, a sign, a point, and the [I]
    of [Infinity]. *)
Definition starts_number (c : ascii) : bool :=
  Space.space1 c || space_lead c
  || match ParseFloat.digit c with Some _ => true | None => false end
  || Ascii.eqb c "+" || Ascii.eqb c "-" || Ascii.eqb c "."
  || Ascii.eqb c "I".

(** A price text that is empty or starts with another character. *)
Definition no_number (s : string) : bool :=
  match s with
  | EmptyString => true
  | String c _ => negb (starts_number c)
  end.

(** A cart with two lines and an entry that is no line. *)
Definition sample_cart : list (string * jsval) :=
  [("p1", new_line "Widget" 19.99); ("gone", VNull);
   ("p2", new_line "Mug" 15)].

End LedgerSpec.

Module DetailPageSpec.

Import DetailPage.

(** An element on which a property read throws. *)
Definition nullish (p : jsval) : bool :=
  match p with VNull | VUndef => true | _ => false end.

(** A product list without such elements. *)
Definition no_null (products : list jsval) : bool :=
  forallb (fun p => negb (nullish p)) products.

(** A product list of three products and a number. *)
Definition sample_products : list jsval :=
  [VObj [("id", VStr "p1"); ("category", VStr "Home")];
   VNum 7;
   VObj [("id", VStr "p2"); ("category", VStr "Home")];
   VObj [("id", VStr "p3"); ("trending", VBool true)]].

(** A session storage in which [null] is stored for the tracker. *)
Definition null_viewed : store :=
  {| items := [(RecentlyViewed.RECENTLY_VIEWED_KEY, Json VNull)];
     full := false |}.

End DetailPageSpec.

Module DebounceSpec.

Local Open Scope nat_scope.

Import Debounce.

(** Calls that follow each other, each with the pause after it. *)
Definition burst {A : Type} (l : list (A * nat)) : list (event A) :=
  flat_map (fun at_ => [Invoke (fst at_); Wait (snd at_)]) l.

(** The arguments of the calls among some events. *)
Definition invoked {A : Type} (evs : list (event A)) : list A :=
  flat_map (fun ev => match ev with Invoke a => [a] | Wait _ => [] end) evs.

(** At most one timer waits, and it is the one [timeoutId] names. *)
Definition tracked {A : Type} (w : world A) : Prop :=
  match queue w with
  | [] => True
  | [t] => timeoutId w = Some (timer_id t)
  | _ => False
  end.

End DebounceSpec.

Module GridSpec.

Import Filters FiltersSpec.

(** The grid of the example with a search that no product matches. *)
Definition silent_page : page :=
  {| allProductsData := [laptop; mug];
     cards := render_cards [laptop; mug];
     selectedCategory := "";
     isLoading := false;
     inputs := {| searchBar := Some "sofa"; minPriceSlider := Some "0";
                  maxPriceSlider := Some "1200"; brandList := Some [] |};
     noResultsMsg := false |}.

End GridSpec.

Module LayersSpec.

Import Overlays OverlaysSpec.

(** One of the four backdrops is visible: the condition under which
    [updateBodyScroll] locks the page. *)
Definition backdrop (d : dom) : bool :=
  isSidebarOverlayActive d || isModalOverlayActive d || isZoomOverlayActive d.

(** The scroll lock is up to date, or a timer that will update it is
    still waiting. *)
Definition settled (d : dom) : Prop :=
  In AfterClose (timers d) \/ noScroll d = backdrop d.

(** The control that closes an overlay: the close button of a sidebar,
    of the quick view, of the sign-in modal and of the zoom layer. *)
Definition closer (p : popup) : event :=
  match p with
  | PNav => CloseClick Nav
  | PCart => CloseClick CartSidebar
  | PFilters => CloseClick FilterSidebar
  | PQuickView => ModalCloseClick
  | PAuth => AuthCloseClick
  | PZoom => ZoomCloseClick
  end.

(** Whether an element is one of the backdrops. *)
Definition is_backdrop (e : element) : bool :=
  match e with
  | Overlay | ModalOverlay | AuthModalOverlay | ZoomOverlay => true
  | _ => false
  end.

(** The state without its oldest timer. *)
Definition pop (d : dom) : dom :=
  {| nav := nav d; cartSidebar := cartSidebar d;
     filterSidebar := filterSidebar d; overlay := overlay d;
     productModal := productModal d; modalOverlay := modalOverlay d;
     authModal := authModal d; authModalOverlay := authModalOverlay d;
     zoomOverlay := zoomOverlay d; authForm := authForm d;
     noScroll := noScroll d; timers := tl (timers d) |}.

End LayersSpec.

(** * Facts about binary64 arithmetic

    The operations on primitive floats are specified by the functions of
    [SpecFloat] on sign, mantissa and exponent.  The lemmas below bound what
    rounding to the format can return. *)

Module FloatFacts.

Import Binary64.
Local Open Scope Z_scope.

(** *** Number of binary digits *)

Lemma digits2_pos_size p : digits2_pos p = Pos.size p.
Proof. induction p; simpl; congruence. Qed.

Lemma Zdigits2_log2 m : 0 < m -> Zdigits2 m = Z.log2 m + 1.
Proof.
  destruct m as [|p|p]; try lia. intros _. simpl.
  rewrite digits2_pos_size. destruct p; simpl; lia.
Qed.

Lemma Zdigits2_nonneg m : 0 <= Zdigits2 m.
Proof. destruct m; simpl; lia. Qed.

Lemma Zdigits2_pos m : 0 < m -> 0 < Zdigits2 m.
Proof. destruct m; simpl; lia. Qed.

Lemma Zdigits2_lt_pow2 m k : 0 <= m -> 0 <= k -> (m < 2 ^ k <-> Zdigits2 m <= k).
Proof.
  intros Hm Hk. assert (m = 0 \/ 0 < m) as [->|Hp] by lia.
  - simpl. split; intros; [lia|]. apply Z.pow_pos_nonneg; lia.
  - rewrite Zdigits2_log2 by lia. rewrite Z.log2_lt_pow2 by lia. lia.
Qed.

Lemma Zdigits2_le_pow2 m k : 0 < m -> 0 <= k -> (2 ^ k <= m <-> k + 1 <= Zdigits2 m).
Proof.
  intros Hm Hk. rewrite Zdigits2_log2 by lia.
  rewrite Z.log2_le_pow2 by lia. lia.
Qed.

Lemma Zdigits2_mono a b : 0 <= a <= b -> Zdigits2 a <= Zdigits2 b.
Proof.
  intros H. assert (a = 0 \/ 0 < a) as [->|Hp] by lia.
  - apply Zdigits2_nonneg.
  - rewrite !Zdigits2_log2 by lia. pose proof (Z.log2_le_mono a b). lia.
Qed.

Lemma Zdigits2_succ m : 0 <= m -> Zdigits2 (m + 1) <= Zdigits2 m + 1.
Proof.
  intros Hm. apply Zdigits2_lt_pow2; [lia| pose proof (Zdigits2_nonneg m); lia|].
  assert (m < 2 ^ Zdigits2 m).
  { apply Zdigits2_lt_pow2; try lia. apply Zdigits2_nonneg. }
  rewrite Z.pow_add_r by (try apply Zdigits2_nonneg; lia). lia.
Qed.

Lemma Zdigits2_div_pow2 m n :
  0 <= m -> 0 <= n -> Zdigits2 (m / 2 ^ n) = Z.max 0 (Zdigits2 m - n).
Proof.
  intros Hm Hn. assert (m = 0 \/ 0 < m) as [->|Hp] by lia.
  - rewrite Z.div_0_l by (apply Z.pow_nonzero; lia). simpl. lia.
  - rewrite <- Z.shiftr_div_pow2 by lia.
    assert (Z.shiftr m n = 0 \/ 0 < Z.shiftr m n) as [E|E].
    { pose proof (Z.shiftr_nonneg m n). lia. }
    + rewrite E. simpl. apply Z.shiftr_eq_0_iff in E.
      rewrite Zdigits2_log2 by lia. lia.
    + rewrite (Zdigits2_log2 _ E), (Zdigits2_log2 _ Hp).
      rewrite Z.log2_shiftr by lia.
      assert (~ (Z.shiftr m n = 0)) as NE by lia.
      rewrite Z.shiftr_eq_0_iff in NE. lia.
Qed.

Lemma Zdigits2_mul_pow2 m n :
  0 < m -> 0 <= n -> Zdigits2 (m * 2 ^ n) = Zdigits2 m + n.
Proof.
  intros Hm Hn.
  assert (0 < 2 ^ n) by (apply Z.pow_pos_nonneg; lia).
  rewrite !Zdigits2_log2 by nia.
  rewrite <- Z.shiftl_mul_pow2 by lia. rewrite Z.log2_shiftl by lia. lia.
Qed.

(** *** Right shifts and rounding to the format *)

Lemma shr_1_m r : 0 <= shr_m r -> shr_m (shr_1 r) = shr_m r / 2.
Proof.
  destruct r as [m r s]. simpl. intros Hm.
  destruct m as [|[p|p|]|p]; cbn [shr_m shr_1]; try lia; try reflexivity.
  - apply Z.div_unique with 1; lia.
  - apply Z.div_unique with 0; lia.
Qed.

Lemma iter_shr_m n r :
  0 <= shr_m r -> shr_m (iter_pos shr_1 n r) = shr_m r / 2 ^ Zpos n.
Proof.
  revert r. induction n as [n IH|n IH|]; intros r Hr; simpl iter_pos.
  - assert (0 <= shr_m (shr_1 r)).
    { rewrite shr_1_m by lia. apply Z.div_pos; lia. }
    assert (0 <= shr_m (iter_pos shr_1 n (shr_1 r))).
    { rewrite IH by lia. apply Z.div_pos; lia. }
    rewrite IH, IH, shr_1_m by lia.
    rewrite !Z.div_div by lia.
    f_equal.
    replace (Zpos n~1) with (1 + Zpos n + Zpos n) by lia.
    rewrite !Z.pow_add_r by lia. lia.
  - assert (0 <= shr_m (iter_pos shr_1 n r)).
    { rewrite IH by lia. apply Z.div_pos; lia. }
    rewrite IH, IH by lia. rewrite Z.div_div by lia.
    f_equal.
    replace (Zpos n~0) with (Zpos n + Zpos n) by lia.
    rewrite Z.pow_add_r by lia. lia.
  - rewrite shr_1_m by lia. reflexivity.
Qed.

Lemma shr_m_of_loc m l : shr_m (shr_record_of_loc m l) = m.
Proof. destruct l as [|[]]; reflexivity. Qed.

(** [shr_fexp] divides the mantissa by a power of two and moves the
    exponent up to that of the format. *)
Lemma shr_fexp_spec m e l :
  0 <= m ->
  let n := fexp prec emax (Zdigits2 m + e) - e in
  shr_m (fst (shr_fexp prec emax m e l)) = m / 2 ^ Z.max 0 n
  /\ snd (shr_fexp prec emax m e l) = e + Z.max 0 n.
Proof.
  intros Hm n. unfold shr_fexp. fold n. unfold shr.
  destruct n as [|p|p]; simpl fst; simpl snd.
  - rewrite shr_m_of_loc. simpl. rewrite Z.div_1_r. lia.
  - rewrite iter_shr_m by (rewrite shr_m_of_loc; lia).
    rewrite shr_m_of_loc. rewrite Z.max_r by lia. lia.
  - rewrite shr_m_of_loc. simpl. rewrite Z.div_1_r. lia.
Qed.

Lemma round_nearest_even_bounds m l :
  m <= round_nearest_even m l <= m + 1.
Proof. destruct l as [|[]]; simpl; try lia. destruct (Z.even m); lia. Qed.

Lemma Zdigits2_zero_iff m : 0 <= m -> (Zdigits2 m = 0 <-> m = 0).
Proof. destruct m; simpl; lia. Qed.

(** Rounding a non-negative mantissa gives a zero, a finite number or an
    infinity of the given sign.  With [D] the position of the leading
    bit: the result is below [2^(D+1)]; it is no infinity when that is
    representable; it is no zero when the value is not below the
    smallest positive number. *)
Lemma binary_round_aux_cases s m e l :
  0 <= m ->
  let D := Zdigits2 m + e in
  match binary_round_aux prec emax s m e l with
  | S754_zero s' => s' = s /\ (0 < m -> D <= emin)
  | S754_finite s' m' e' =>
      s' = s /\ Zdigits2 (Zpos m') + e' <= Z.max D emin + 1
  | S754_infinity s' => s' = s /\ ~ (e <= emax - prec /\ D + 1 <= emax)
  | S754_nan => False
  end.
Proof.
  intros Hm D. unfold binary_round_aux.
  pose proof (shr_fexp_spec m e l Hm) as [Hm1 He1].
  destruct (shr_fexp prec emax m e l) as [r1 e1]. simpl in Hm1, He1.
  fold D in Hm1, He1.
  set (n := fexp prec emax D - e) in *.
  set (m1 := shr_m r1) in *.
  set (m2 := round_nearest_even m1 (loc_of_shr_record r1)).
  assert (0 <= m1) as Hm1pos.
  { rewrite Hm1. apply Z.div_pos; [lia|]. apply Z.pow_pos_nonneg; lia. }
  pose proof (round_nearest_even_bounds m1 (loc_of_shr_record r1)) as Hm2.
  fold m2 in Hm2.
  pose proof (shr_fexp_spec m2 e1 loc_Exact ltac:(lia)) as [Hm3 He3].
  destruct (shr_fexp prec emax m2 e1 loc_Exact) as [r3 e3].
  simpl in Hm3, He3.
  set (D2 := Zdigits2 m2 + e1) in *.
  set (n2 := fexp prec emax D2 - e1) in *.
  set (m3 := shr_m r3) in *.
  assert (Zdigits2 m1 = Z.max 0 (Zdigits2 m - Z.max 0 n)) as Hd1.
  { rewrite Hm1. apply Zdigits2_div_pow2; lia. }
  assert (Zdigits2 m1 <= Zdigits2 m2 <= Zdigits2 m1 + 1) as Hd2.
  { split; [apply Zdigits2_mono; lia|].
    etransitivity; [apply (Zdigits2_mono m2 (m1 + 1)); lia|].
    apply Zdigits2_succ; lia. }
  assert (Zdigits2 m3 = Z.max 0 (Zdigits2 m2 - Z.max 0 n2)) as Hd3.
  { rewrite Hm3. apply Zdigits2_div_pow2; lia. }
  assert (0 <= m3) as Hm3pos.
  { rewrite Hm3. apply Z.div_pos; [lia|]. apply Z.pow_pos_nonneg; lia. }
  pose proof (Zdigits2_zero_iff m Hm) as Hz.
  pose proof (Zdigits2_zero_iff m3 Hm3pos) as Hz3.
  pose proof (Zdigits2_nonneg m) as Hdn.
  pose proof (Zdigits2_nonneg m2) as Hdn2.
  unfold fexp, SpecFloat.emin in n, n2.
  assert (emin = -1074) as Hemin by reflexivity.
  assert (prec = 53) as Hprec by reflexivity.
  assert (emax = 1024) as Hemax by reflexivity.
  destruct m3 as [|p3|p3] eqn:E3.
  - split; [reflexivity|]. intros Hpos. subst n n2 D2 D. lia.
  - destruct (Z.leb_spec e3 (emax - prec)).
    + split; [reflexivity|]. subst n n2 D2 D. lia.
    + split; [reflexivity|]. subst n n2 D2 D. lia.
  - lia.
Qed.

Lemma iter_xO m d : Zpos (Pos.iter xO m d) = Zpos m * 2 ^ Zpos d.
Proof.
  revert m. induction d using Pos.peano_ind; intros m.
  - simpl. lia.
  - rewrite Pos.iter_succ, Pos2Z.inj_xO, IHd, Pos2Z.inj_succ.
    rewrite Z.pow_succ_r by lia. lia.
Qed.

Lemma shl_align_spec mx ex ex' :
  snd (shl_align mx ex ex') = Z.min ex ex'
  /\ Zpos (fst (shl_align mx ex ex'))
     = Zpos mx * 2 ^ (ex - Z.min ex ex').
Proof.
  unfold shl_align. destruct (ex' - ex) as [|d|d] eqn:E; cbn [fst snd].
  - rewrite Z.min_l by lia. rewrite Z.sub_diag, Z.pow_0_r. lia.
  - rewrite Z.min_l by lia. rewrite Z.sub_diag, Z.pow_0_r. lia.
  - rewrite Z.min_r by lia. rewrite iter_xO.
    replace (ex - ex') with (Zpos d) by lia. lia.
Qed.

Lemma shl_align_digits mx ex ex' :
  Zdigits2 (Zpos (fst (shl_align mx ex ex'))) + snd (shl_align mx ex ex')
  = Zdigits2 (Zpos mx) + ex.
Proof.
  destruct (shl_align_spec mx ex ex') as [-> ->].
  rewrite Zdigits2_mul_pow2 by lia. lia.
Qed.

Lemma binary_round_cases s m e :
  match binary_round prec emax s m e with
  | S754_zero s' => s' = s /\ mag m e <= emin
  | S754_finite s' m' e' => s' = s /\ mag m' e' <= Z.max (mag m e) emin + 1
  | S754_infinity s' => s' = s /\ emax <= mag m e
  | S754_nan => False
  end.
Proof.
  unfold binary_round.
  pose proof (shl_align_spec m e (fexp prec emax (Zdigits2 (Zpos m) + e)))
    as [He _].
  pose proof (shl_align_digits m e (fexp prec emax (Zdigits2 (Zpos m) + e)))
    as Hd.
  destruct (shl_align m e _) as [mz ez]. cbn [fst snd] in He, Hd.
  pose proof (binary_round_aux_cases s (Zpos mz) ez loc_Exact ltac:(lia)) as H.
  cbv zeta in H. unfold mag.
  unfold fexp, SpecFloat.emin in He.
  assert (emin = -1074) as Hemin by reflexivity.
  assert (prec = 53) as Hprec by reflexivity.
  assert (emax = 1024) as Hemax by reflexivity.
  destruct (binary_round_aux prec emax s (Zpos mz) ez loc_Exact);
    try (destruct H as [-> H]; split; [reflexivity|]); try lia.
Qed.

Lemma binary_normalize_cases m e sz :
  match binary_normalize prec emax m e sz with
  | S754_zero s' => (m = 0 /\ s' = sz) \/ (m <> 0 /\ Zdigits2 m + e <= emin)
  | S754_finite s' m' e' =>
      s' = (m <? 0) /\ mag m' e' <= Z.max (Zdigits2 m + e) emin + 1
  | S754_infinity s' => s' = (m <? 0) /\ emax <= Zdigits2 m + e
  | S754_nan => False
  end.
Proof.
  destruct m as [|p|p]; simpl.
  - left. auto.
  - pose proof (binary_round_cases false p e) as H. unfold mag in *.
    destruct (binary_round prec emax false p e); try tauto.
    right. split; [discriminate|tauto].
  - pose proof (binary_round_cases true p e) as H. unfold mag in *.
    destruct (binary_round prec emax true p e); try tauto.
    right. split; [discriminate|tauto].
Qed.

(** *** What the operations return *)

Lemma SFmul_not_nan x y :
  finite_or_zero x -> finite_or_zero y -> not_nan (SFmul prec emax x y).
Proof.
  destruct x as [sx|sx| |sx mx ex], y as [sy|sy| |sy my ey]; simpl;
    try tauto. intros _ _.
  pose proof (binary_round_aux_cases (xorb sx sy) (Zpos (mx * my)) (ex + ey)
                loc_Exact ltac:(lia)) as H.
  destruct (binary_round_aux _ _ _ _ _ _); simpl; tauto.
Qed.

Lemma SFsub_not_nan x y :
  finite_or_zero x -> not_nan y -> not_nan (SFsub prec emax x y).
Proof.
  destruct x as [sx|sx| |sx mx ex], y as [sy|sy| |sy my ey]; simpl;
    try tauto; intros _ _.
  - destruct sx, sy; exact I.
  - match goal with |- not_nan (binary_normalize _ _ ?m ?e ?z) =>
      pose proof (binary_normalize_cases m e z) as H;
      destruct (binary_normalize prec emax m e z); simpl; tauto end.
Qed.

Lemma Zdigits2_abs m : Zdigits2 (Z.abs m) = Zdigits2 m.
Proof. destruct m; reflexivity. Qed.

Lemma mag_pow2 m e k : mag m e <= k -> e <= k -> Zpos m < 2 ^ (k - e).
Proof.
  unfold mag. intros H He. apply Zdigits2_lt_pow2; lia.
Qed.

Lemma mag_exp m e : e < mag m e.
Proof. unfold mag. pose proof (Zdigits2_pos (Zpos m)). lia. Qed.

(** The difference of two numbers below [2^k] is finite when [2^(k+2)]
    is representable. *)
Lemma SFsub_finite k x y :
  below k x -> below k y -> k + 3 <= emax ->
  finite_or_zero (SFsub prec emax x y).
Proof.
  destruct x as [sx|sx| |sx mx ex], y as [sy|sy| |sy my ey]; simpl;
    try tauto; intros Hx Hy Hk.
  - destruct sx, sy; exact I.
  - set (ez := Z.min ex ey).
    destruct (shl_align_spec mx ex ez) as [_ Hmx].
    destruct (shl_align_spec my ey ez) as [_ Hmy].
    replace (Z.min ex ez) with ez in Hmx by lia.
    replace (Z.min ey ez) with ez in Hmy by lia.
    set (mx' := Zpos (fst (shl_align mx ex ez))) in *.
    set (my' := Zpos (fst (shl_align my ey ez))) in *.
    set (S := cond_Zopp sx mx' - cond_Zopp sy my').
    pose proof (mag_exp mx ex). pose proof (mag_exp my ey).
    assert (mx' < 2 ^ (k - ez)) as Bx.
    { rewrite Hmx.
      replace (k - ez) with ((k - ex) + (ex - ez)) by lia.
      rewrite Z.pow_add_r by lia.
      apply Z.mul_lt_mono_pos_r; [apply Z.pow_pos_nonneg; lia|].
      apply mag_pow2; lia. }
    assert (my' < 2 ^ (k - ez)) as By.
    { rewrite Hmy.
      replace (k - ez) with ((k - ey) + (ey - ez)) by lia.
      rewrite Z.pow_add_r by lia.
      apply Z.mul_lt_mono_pos_r; [apply Z.pow_pos_nonneg; lia|].
      apply mag_pow2; lia. }
    assert (Zdigits2 S <= k + 1 - ez) as HS.
    { rewrite <- Zdigits2_abs. apply Zdigits2_lt_pow2; try lia.
      replace (k + 1 - ez) with (1 + (k - ez)) by lia.
      rewrite Z.pow_add_r by lia. change (2 ^ 1) with 2.
      subst S. unfold cond_Zopp. destruct sx, sy; lia. }
    pose proof (binary_normalize_cases S ez false) as H1.
    assert (emax = 1024) as Hemax by reflexivity.
    destruct (binary_normalize prec emax S ez false); simpl; try tauto; lia.
Qed.

(** The quotient of two finite numbers is finite when the quotient of
    their magnitudes is representable. *)
Lemma SFdiv_below sx mx ex sy my ey :
  mag mx ex - mag my ey + 2 <= emax ->
  below (Z.max (mag mx ex - mag my ey + 1) emin + 1)
    (SFdiv prec emax (S754_finite sx mx ex) (S754_finite sy my ey)).
Proof.
  intros HM. unfold SFdiv, SFdiv_core_binary.
  set (M := mag mx ex - mag my ey) in *.
  replace (Zdigits2 (Zpos mx) + ex - (Zdigits2 (Zpos my) + ey)) with M
    by (unfold M, mag; lia).
  set (e' := Z.min (fexp prec emax M) (ex - ey)).
  set (s := ex - ey - e').
  set (m' := match s with
             | Zpos _ => Z.shiftl (Zpos mx) s
             | Z0 => Zpos mx
             | Zneg _ => 0
             end).
  assert (0 <= s) as Hs by (unfold s, e'; lia).
  assert (m' = Zpos mx * 2 ^ s) as Hm'.
  { unfold m'. destruct s as [|p|p] eqn:Es; try lia.
    apply Z.shiftl_mul_pow2. lia. }
  destruct (Z.div_eucl m' (Zpos my)) as [q r] eqn:E.
  assert (q = m' / Zpos my) as Hq by (unfold Z.div; rewrite E; reflexivity).
  assert (0 <= q) as Hq0.
  { rewrite Hq. apply Z.div_pos; lia. }
  assert (0 < 2 ^ s) as Hp by (apply Z.pow_pos_nonneg; lia).
  assert (Zdigits2 m' = Zdigits2 (Zpos mx) + s) as Hdm.
  { rewrite Hm'. apply Zdigits2_mul_pow2; lia. }
  pose proof (Zdigits2_pos (Zpos my) ltac:(lia)) as Hdy.
  assert (Zdigits2 q <= Z.max 0 (Zdigits2 m' - (Zdigits2 (Zpos my) - 1)))
    as Hdq.
  { rewrite <- Zdigits2_div_pow2 by nia.
    apply Zdigits2_mono. split; [lia|]. rewrite Hq.
    apply Z.div_le_compat_l; [nia|]. split; [apply Z.pow_pos_nonneg; lia|].
    apply Zdigits2_le_pow2; lia. }
  pose proof (binary_round_aux_cases (xorb sx sy) q e' (new_location (Zpos my) r)
                Hq0) as H.
  cbv zeta in H.
  unfold fexp, SpecFloat.emin in e'.
  assert (emin = -1074) as Hemin by reflexivity.
  assert (prec = 53) as Hprec by reflexivity.
  assert (emax = 1024) as Hemax by reflexivity.
  unfold mag in *.
  destruct (binary_round_aux prec emax (xorb sx sy) q e' _); simpl;
    try tauto; unfold mag; subst e' s M; lia.
Qed.

(** The sum of two positive finite numbers, one of them not below the
    smallest positive number, is positive. *)
Lemma SFadd_positive mx ex my ey :
  emin < mag my ey ->
  positive_number
    (SFadd prec emax (S754_finite false mx ex) (S754_finite false my ey)).
Proof.
  intros Hy. unfold SFadd, cond_Zopp.
  set (ez := Z.min ex ey).
  pose proof (shl_align_digits my ey ez) as Hd.
  destruct (shl_align_spec my ey ez) as [He _].
  replace (Z.min ey ez) with ez in He by lia. rewrite He in Hd.
  set (mx' := Zpos (fst (shl_align mx ex ez))) in *.
  set (my' := Zpos (fst (shl_align my ey ez))) in *.
  pose proof (binary_normalize_cases (mx' + my') ez false) as H.
  assert (Zdigits2 my' <= Zdigits2 (mx' + my')) as Hm.
  { apply Zdigits2_mono. unfold mx', my'. lia. }
  unfold mag in *.
  assert ((mx' + my' <? 0) = false) as Hs by (unfold mx', my'; lia).
  destruct (binary_normalize prec emax (mx' + my') ez false) as [s|s| |s m e];
    simpl; try tauto.
  - destruct H as [[H _]|[_ H]]; [unfold mx', my' in H|]; lia.
  - destruct H as [-> _]. rewrite Hs. exact I.
  - destruct H as [-> _]. rewrite Hs. exact I.
Qed.

(** *** Comparison *)

Lemma SFcompare_antisym x y :
  SFcompare x y = option_map CompOpp (SFcompare y x).
Proof.
  destruct x as [sx|sx| |sx mx ex], y as [sy|sy| |sy my ey]; simpl;
    try reflexivity;
    try (destruct sx; reflexivity); try (destruct sy; reflexivity);
    try (destruct sx, sy; reflexivity).
  destruct sx, sy; try reflexivity;
    rewrite (Z.compare_antisym ex ey);
    destruct (ex ?= ey); simpl; try reflexivity;
    rewrite (Pos.compare_cont_antisym my mx Eq); simpl;
    destruct (Pos.compare_cont Eq mx my); reflexivity.
Qed.

Lemma SFcompare_refl x : not_nan x -> SFcompare x x = Some Eq.
Proof.
  destruct x as [s|s| |s m e]; simpl; try tauto; intros _.
  - destruct s; reflexivity.
  - rewrite Z.compare_refl, Pos.compare_cont_refl. destruct s; reflexivity.
Qed.

Lemma SFcompare_some x y :
  not_nan x -> not_nan y -> exists c, SFcompare x y = Some c.
Proof.
  destruct x as [sx|sx| |sx mx ex], y as [sy|sy| |sy my ey]; simpl;
    try tauto; intros _ _; eauto.
Qed.
End FloatFacts.

(** * Facts about JavaScript numbers *)

Module NumFacts.

Import Binary64.
Import FloatFacts.
Local Open Scope Z_scope.

Lemma isNaN_spec x :
  isNaN x = match Prim2SF x with S754_nan => true | _ => false end.
Proof.
  unfold isNaN, is_nan. rewrite FloatAxioms.eqb_spec. unfold SFeqb.
  destruct (Prim2SF x) as [s|s| |s m e] eqn:E; try reflexivity.
  - destruct s; reflexivity.
  - rewrite SFcompare_refl by exact I. reflexivity.
Qed.

Lemma isNaN_false x : isNaN x = false <-> not_nan (Prim2SF x).
Proof.
  rewrite isNaN_spec. destruct (Prim2SF x); simpl; intuition discriminate.
Qed.

Lemma isFinite_spec x : isFinite x = true <-> finite_or_zero (Prim2SF x).
Proof.
  unfold isFinite. destruct (Prim2SF x); simpl; intuition discriminate.
Qed.

Lemma isFinite_not_nan x : isFinite x = true -> isNaN x = false.
Proof.
  rewrite isFinite_spec, isNaN_false. destruct (Prim2SF x); simpl; tauto.
Qed.

Lemma le_refl p : isNaN p = false -> le p p = true.
Proof.
  rewrite isNaN_false. intros H. unfold le.
  rewrite FloatAxioms.leb_spec. unfold SFleb.
  rewrite SFcompare_refl by assumption. reflexivity.
Qed.

Lemma lt_le a b : lt a b = true -> le a b = true.
Proof.
  unfold lt, le. rewrite FloatAxioms.ltb_spec, FloatAxioms.leb_spec.
  unfold SFltb, SFleb. destruct (SFcompare _ _) as [[]|]; congruence.
Qed.

(** On numbers, [!(a >= b)] is [a < b]. *)
Lemma not_ge_lt a b :
  isNaN a = false -> isNaN b = false -> ge a b = false -> lt a b = true.
Proof.
  rewrite !isNaN_false. intros Ha Hb. unfold ge, lt.
  rewrite FloatAxioms.ltb_spec, FloatAxioms.leb_spec.
  unfold SFltb, SFleb. rewrite (SFcompare_antisym (Prim2SF a)).
  destruct (SFcompare_some _ _ Hb Ha) as [c ->].
  destruct c; simpl; congruence.
Qed.

Lemma SF2Prim_not_nan x : not_nan x -> isNaN (SF2Prim x) = false.
Proof.
  destruct x as [s|s| |s m e]; simpl not_nan; try tauto; intros _.
  - destruct s; reflexivity.
  - destruct s; reflexivity.
  - unfold SF2Prim.
    set (pm := of_uint63 (Uint63.of_Z (Zpos m))).
    assert (not_nan (Prim2SF (Z.ldexp pm e))) as H.
    { rewrite Z_ldexp_spec. unfold pm. rewrite of_uint63_spec.
      match goal with |- context [binary_normalize _ _ ?a ?b ?c] =>
        pose proof (binary_normalize_cases a b c) as H;
        destruct (binary_normalize prec emax a b c) as [s1|s1| |s1 m1 e1]
      end; simpl; try tauto.
      pose proof (binary_round_cases s1 m1 (e1 + e)) as H1.
      destruct (binary_round prec emax s1 m1 (e1 + e)); simpl; tauto. }
    apply isNaN_false. destruct s; [rewrite opp_spec|]; trivial.
    destruct (Prim2SF (Z.ldexp pm e)); simpl in *; tauto.
Qed.

Lemma cents_nonneg m e : 0 <= cents m e.
Proof.
  unfold cents. destruct e as [|p|p].
  - lia.
  - pose proof (Z.pow_pos_nonneg 2 (Zpos p)). lia.
  - apply Z.div_pos.
    + pose proof (Z.pow_pos_nonneg 2 (Zpos p)). lia.
    + apply Z.pow_pos_nonneg; lia.
Qed.

Lemma of_cents_not_nan s n : 0 <= n -> isNaN (of_cents s n) = false.
Proof.
  intros Hn. unfold of_cents. destruct n as [|p|p]; try lia.
  - destruct s; reflexivity.
  - unfold SFdiv_core_binary.
    match goal with |- context [Z.div_eucl ?a ?b] =>
      assert (0 <= a / b) as Hq;
      [ apply Z.div_pos; [|lia] | unfold Z.div in Hq;
        destruct (Z.div_eucl a b) as [q r] ] end.
    + match goal with |- 0 <= match ?x with _ => _ end =>
        destruct x; try lia end.
      apply Z.shiftl_nonneg. lia.
    + apply SF2Prim_not_nan.
      match goal with |- context [binary_round_aux _ _ ?a ?b ?c ?d] =>
        pose proof (binary_round_aux_cases a b c d Hq) as H;
        destruct (binary_round_aux prec emax a b c d) end; simpl; tauto.
Qed.

(** [parseFloat(x.toFixed(2))] is a number when [x] is one. *)
Lemma round2_not_nan x : isNaN x = false -> isNaN (round2 x) = false.
Proof.
  intros Hx. unfold round2.
  pose proof (proj1 (isNaN_false x) Hx) as H.
  destruct (Prim2SF x) as [s|s| |s m e]; simpl in H;
    try tauto; try reflexivity.
  destruct (ge (abs x) ten21); [assumption|].
  apply of_cents_not_nan, cents_nonneg.
Qed.

Lemma below_weaken k k' x : below k x -> k <= k' -> below k' x.
Proof. destruct x; simpl; try tauto. intros. lia. Qed.

(** A valid finite number keeps at most [prec] bits. *)
Lemma valid_digits x s m e :
  Prim2SF x = S754_finite s m e -> Zdigits2 (Zpos m) <= prec.
Proof.
  intros E. pose proof (Prim2SF_valid x) as V. rewrite E in V.
  simpl in V. unfold bounded, canonical_mantissa in V.
  apply andb_prop in V. destruct V as [V _]. apply Z.eqb_eq in V.
  unfold fexp, SpecFloat.emin in V.
  change (Zpos (digits2_pos m)) with (Zdigits2 (Zpos m)) in V. lia.
Qed.

Lemma Prim2SF_one : Prim2SF 1 = SF_one.
Proof. reflexivity. Qed.

Lemma Prim2SF_hundred : Prim2SF 100 = SF_hundred.
Proof. reflexivity. Qed.

Lemma Prim2SF_zero : Prim2SF 0 = S754_zero false.
Proof. reflexivity. Qed.

(** A number [v] with [0 < v <= 100] is finite, positive and below
    [2^7]. *)
Lemma percent_value v :
  gt v zero = true -> le v hundred = true ->
  exists m e, Prim2SF v = S754_finite false m e /\ mag m e <= 7.
Proof.
  unfold gt, le, lt, zero, hundred.
  rewrite FloatAxioms.ltb_spec, FloatAxioms.leb_spec.
  rewrite Prim2SF_zero, Prim2SF_hundred. intros H0 H100.
  destruct (Prim2SF v) as [s|s| |s m e] eqn:E;
    try (destruct s); try discriminate.
  exists m, e. split; [reflexivity|].
  pose proof (valid_digits v _ _ _ E) as Hd.
  assert (e <= -46) as He.
  { unfold SFleb, SF_hundred in H100.
    cbv beta iota delta [SFcompare] in H100.
    destruct (Z.compare_spec e (-46)); try lia; discriminate. }
  unfold mag. change prec with 53 in Hd. lia.
Qed.

(** The percent branch gives a number on a finite price. *)
Lemma percent_price_not_nan p v :
  isFinite p = true -> gt v zero = true -> le v hundred = true ->
  isNaN (Pricing.percent_price p v) = false.
Proof.
  intros Hp H0 H100. apply isNaN_false. unfold Pricing.percent_price.
  rewrite mul_spec, sub_spec, div_spec, Prim2SF_one, Prim2SF_hundred.
  destruct (percent_value v H0 H100) as (m & e & -> & Hm).
  apply SFmul_not_nan; [apply isFinite_spec; assumption|].
  apply (SFsub_finite 2).
  - simpl. unfold mag. simpl. lia.
  - eapply below_weaken; [apply SFdiv_below|].
    + change (mag 7036874417766400 (-46)) with 7. change emax with 1024. lia.
    + change (mag 7036874417766400 (-46)) with 7. change emin with (-1074).
      lia.
  - change emax with 1024. lia.
Qed.

Lemma max0_not_nan x : isNaN x = false -> isNaN (max0 x) = false.
Proof.
  intros H. unfold max0. rewrite H. destruct (gt x zero); trivial.
Qed.

(** The fixed branch gives a number on a finite price. *)
Lemma fixed_price_not_nan p v :
  isFinite p = true -> isNaN v = false ->
  isNaN (Pricing.fixed_price p v) = false.
Proof.
  intros Hp Hv. unfold Pricing.fixed_price. apply max0_not_nan.
  apply isNaN_false. rewrite sub_spec.
  apply SFsub_not_nan; [apply isFinite_spec|apply isNaN_false]; assumption.
Qed.

Lemma gt_not_nan a b : gt a b = true -> isNaN a = false.
Proof.
  unfold gt, lt. rewrite FloatAxioms.ltb_spec, isNaN_spec. unfold SFltb.
  destruct (Prim2SF a), (Prim2SF b); simpl; congruence.
Qed.

(** A quantity that passes the cart's test still passes it after
    [quantity++]. *)
Lemma incr_valid q : le q zero = false -> le (incr q) zero = false.
Proof.
  unfold le, incr, zero. rewrite !FloatAxioms.leb_spec, add_spec.
  rewrite Prim2SF_zero, Prim2SF_one. unfold SFleb, SF64add.
  destruct (Prim2SF q) as [s|s| |s m e]; try (destruct s);
    try (cbn; congruence).
  intros _. pose proof (SFadd_positive m e 4503599627370496 (-52)) as H.
  change (mag 4503599627370496 (-52)) with 1 in H.
  specialize (H ltac:(change emin with (-1074); lia)).
  unfold SF_one.
  destruct (SFadd prec emax _ _) as [s|s| |s m' e']; simpl in H;
    try tauto; destruct s; simpl; tauto || reflexivity.
Qed.

End NumFacts.

(** * The pricing engine *)

Module PricingFacts.

Import NumFacts.
Import Pricing.
Import PricingSpec.

Lemma ge_not_lt a b : ge a b = true -> lt a b = false.
Proof.
  unfold ge, lt, le. rewrite FloatAxioms.ltb_spec, FloatAxioms.leb_spec.
  unfold SFltb, SFleb.
  rewrite (FloatFacts.SFcompare_antisym (Prim2SF a)).
  destruct (SFcompare (Prim2SF b) (Prim2SF a)) as [[]|]; simpl; congruence.
Qed.

Lemma Prim2SF_infinity x : Prim2SF x = S754_infinity false -> x = infinity.
Proof. intros H. apply Prim2SF_inj. rewrite H. reflexivity. Qed.

(** Outside the finite numbers from zero up, the test
    [typeof price !== 'number' || isNaN(price) || price < 0] lets only
    [Infinity] through. *)
Lemma price_test price :
  finite_nonneg price = false -> price <> VNum Infinity ->
  match price with VNum p => isNaN p || lt p zero | _ => true end = true.
Proof.
  destruct price as [| |b|p|s|o|a]; trivial. simpl. intros H Hinf.
  rewrite isNaN_spec. unfold isFinite, ge, lt, le, zero in *.
  rewrite FloatAxioms.ltb_spec. rewrite FloatAxioms.leb_spec in H.
  rewrite Prim2SF_zero in *.
  destruct (Prim2SF p) as [s|s| |s m e] eqn:E; trivial.
  - destruct s; discriminate.
  - destruct s; trivial. apply Prim2SF_infinity in E. subst p.
    exfalso. apply Hinf. reflexivity.
  - destruct s; trivial. discriminate.
Qed.

(** C8, as amended.  For every price argument that is not a finite
    number at least zero, other than [Infinity], and for every discount
    argument, the function returns the price unchanged in [finalPrice]
    and [originalPrice], no discount text and [hasDiscount = false]. *)
Theorem calculateDiscountedPrice_passthrough price discount :
  finite_nonneg price = false -> price <> VNum Infinity ->
  calculateDiscountedPrice price discount = passthrough price.
Proof.
  intros H Hinf. pose proof (price_test price H Hinf) as T.
  unfold calculateDiscountedPrice, passthrough.
  destruct price; try reflexivity. rewrite T. reflexivity.
Qed.

Lemma calculateDiscountedPrice_passthrough_witness :
  calculateDiscountedPrice (VNum (-5)) (percent 10) = passthrough (VNum (-5)).
Proof.
  apply calculateDiscountedPrice_passthrough.
  - reflexivity.
  - intros H.
    apply (f_equal (fun v => match v with VNum x => lt x zero | _ => false end))
      in H.
    discriminate H.
Defined.

(** C8 as stated fails at [Infinity], which is not a finite number: a
    discount of 100 percent gives it the final price [NaN] and the flag
    [hasDiscount = true]. *)
Lemma Infinity_is_not_passed_through :
  finite_nonneg (VNum Infinity) = false
  /\ calculateDiscountedPrice (VNum Infinity) (percent 100)
     <> passthrough (VNum Infinity).
Proof.
  split; [reflexivity|]. intros H.
  apply (f_equal hasDiscount) in H. discriminate H.
Qed.

(** A finite price at least zero passes the function's own test. *)
Lemma finite_nonneg_test p :
  isFinite p = true -> ge p zero = true ->
  isNaN p || lt p zero = false.
Proof.
  intros Hf Hge. rewrite (isFinite_not_nan p Hf), (ge_not_lt p zero Hge).
  reflexivity.
Qed.

(** C3, as amended.  For every finite price at least zero and every
    percent discount with [0 < v <= 100], the final price is
    [price * (1 - v / 100)] rounded to two decimals when that is below
    the price, and the price itself otherwise (the discount is then
    discarded). *)
Theorem percent_finalPrice p discount v :
  isFinite p = true -> ge p zero = true ->
  truthy discount = true ->
  prop discount "type" = VStr "percent" ->
  prop discount "value" = VNum v ->
  gt v zero = true -> le v hundred = true ->
  finalPrice (calculateDiscountedPrice (VNum p) discount)
  = VNum (if ge (round2 (percent_price p v)) p then p
          else round2 (percent_price p v)).
Proof.
  intros Hf Hge Ht Hty Hv H0 H100.
  unfold calculateDiscountedPrice, apply_discount.
  rewrite (finite_nonneg_test p Hf Hge), Hv, Ht, Hty, H0, H100. simpl.
  destruct (ge (round2 (percent_price p v)) p); reflexivity.
Qed.

Lemma percent_finalPrice_witness :
  finalPrice (calculateDiscountedPrice (VNum 100) (percent 10)) = VNum 90.
Proof.
  exact (percent_finalPrice 100 (percent 10) 10 eq_refl eq_refl eq_refl
           eq_refl eq_refl eq_refl eq_refl).
Defined.

(** C3 as stated fails where rounding lifts the discounted price to the
    price or above: 10 percent off 0.006 is 0.0054, which rounds to 0.01,
    and the final price is 0.006. *)
Lemma percent_finalPrice_not_rounded :
  isFinite 0.006 = true /\ ge 0.006 zero = true
  /\ gt 10 zero = true /\ le 10 hundred = true
  /\ finalPrice (calculateDiscountedPrice (VNum 0.006) (percent 10))
     <> VNum (round2 (percent_price 0.006 10)).
Proof.
  repeat (split; [vm_compute; reflexivity|]). intros H.
  apply (f_equal (fun v => match v with
                           | VNum x => PrimFloat.eqb x 0.006
                           | _ => false
                           end)) in H.
  vm_compute in H. discriminate H.
Qed.

(** The discount step returns a number, and the price itself when it
    sets no flag. *)
Lemma apply_discount_spec p discount :
  isFinite p = true ->
  isNaN (fst (fst (apply_discount p discount))) = false
  /\ (snd (apply_discount p discount) = false ->
      fst (fst (apply_discount p discount)) = p).
Proof.
  intros Hf. pose proof (isFinite_not_nan p Hf) as Hn.
  unfold apply_discount.
  destruct (prop discount "value") as [| |b|v|s|o|a]; simpl; auto.
  destruct (truthy discount); simpl; auto.
  destruct (gt v zero) eqn:H0; simpl; auto.
  destruct (is_str (prop discount "type") "percent"); simpl.
  - destruct (le v hundred) eqn:H100; simpl.
    + split; [|discriminate]. apply percent_price_not_nan; assumption.
    + destruct (is_str (prop discount "type") "fixed"); simpl; auto.
      destruct (lt (fixed_price p v) p); simpl; auto.
      split; [|discriminate]. apply fixed_price_not_nan; trivial.
      apply (gt_not_nan v zero H0).
  - destruct (is_str (prop discount "type") "fixed"); simpl; auto.
    destruct (lt (fixed_price p v) p); simpl; auto.
    split; [|discriminate]. apply fixed_price_not_nan; trivial.
    apply (gt_not_nan v zero H0).
Qed.

(** C2, as amended.  For every finite price at least zero and every
    discount argument, the final price is a number that is at most the
    price; [hasDiscount = true] only when it is strictly below the price;
    and with [hasDiscount = false] it is the price, or the price rounded
    to two decimals where rounding lowers it. *)
Theorem finalPrice_at_most_price p discount :
  isFinite p = true -> ge p zero = true ->
  let r := calculateDiscountedPrice (VNum p) discount in
  exists f,
    finalPrice r = VNum f
    /\ le f p = true
    /\ (hasDiscount r = true -> lt f p = true)
    /\ (hasDiscount r = false -> f = p \/ (f = round2 p /\ lt f p = true)).
Proof.
  intros Hf Hge r. subst r. unfold calculateDiscountedPrice.
  rewrite (finite_nonneg_test p Hf Hge).
  pose proof (isFinite_not_nan p Hf) as Hn.
  destruct (apply_discount_spec p discount Hf) as [Hfp Hhas].
  destruct (apply_discount p discount) as [[fp text] has].
  simpl in Hfp, Hhas.
  pose proof (round2_not_nan fp Hfp) as Hr.
  destruct (ge (round2 fp) p) eqn:G; simpl.
  - exists p. repeat split; auto using le_refl. discriminate.
  - pose proof (not_ge_lt _ _ Hr Hn G) as L.
    exists (round2 fp). repeat split; auto using lt_le.
    intros ->. right. rewrite Hhas in * by reflexivity. auto.
Qed.

Lemma finalPrice_at_most_price_witness :
  exists f,
    finalPrice (calculateDiscountedPrice (VNum 19.99) (fixed 5)) = VNum f
    /\ le f 19.99 = true
    /\ (hasDiscount (calculateDiscountedPrice (VNum 19.99) (fixed 5)) = true
        -> lt f 19.99 = true)
    /\ (hasDiscount (calculateDiscountedPrice (VNum 19.99) (fixed 5)) = false
        -> f = 19.99%float \/ (f = round2 19.99 /\ lt f 19.99 = true)).
Proof.
  exact (finalPrice_at_most_price 19.99 (fixed 5) eq_refl eq_refl).
Defined.

(** C2 as stated fails where rounding alone lowers the price: 10.001
    with no discount has the final price 10, strictly below the price,
    and [hasDiscount = false]. *)
Lemma rounding_lowers_without_discount :
  finite_nonneg (VNum 10.001) = true
  /\ ~ (hasDiscount (calculateDiscountedPrice (VNum 10.001) VNull) = true
        <-> lower (calculateDiscountedPrice (VNum 10.001) VNull) 10.001 = true).
Proof.
  split; [vm_compute; reflexivity|]. intros [_ H].
  assert (lower (calculateDiscountedPrice (VNum 10.001) VNull) 10.001 = true)
    as L by (vm_compute; reflexivity).
  specialize (H L). vm_compute in H. discriminate H.
Qed.

(** *** The pricing scenarios, evaluated *)

(** Ten percent off 100 gives 90, with the badge and the flag. *)
Example ten_percent_off_hundred :
  calculateDiscountedPrice (VNum 100) (percent 10)
  = {| finalPrice := VNum 90; discountText := Some (PercentOff 10);
       originalPrice := VNum 100; hasDiscount := true |}.
Proof. vm_compute. reflexivity. Qed.

(** A fixed discount larger than the price stops at zero. *)
Example fixed_off_stops_at_zero :
  calculateDiscountedPrice (VNum 20) (fixed 25)
  = {| finalPrice := VNum 0; discountText := Some (FixedOff 25);
       originalPrice := VNum 20; hasDiscount := true |}.
Proof. vm_compute. reflexivity. Qed.

(** A percentage above 100 is not applied. *)
Example percent_above_hundred_ignored :
  calculateDiscountedPrice (VNum 20) (percent 150)
  = {| finalPrice := VNum 20; discountText := None;
       originalPrice := VNum 20; hasDiscount := false |}.
Proof. vm_compute. reflexivity. Qed.

(** [toFixed(2)] rounds the binary value, not the decimal literal. *)
Example round2_of_binary_value :
  round2 1.005 = 1%float /\ round2 2.675 = 2.67%float
  /\ round2 89.999 = 90%float.
Proof. vm_compute. repeat split; reflexivity. Qed.

End PricingFacts.

(** * The cart ledger *)

Module CartFacts.

Import NumFacts.
Import Cart.
Import CartSpec.

(** ** Own properties *)

Lemma get_set_eq k v o : Obj.get k (Obj.set k v o) = Some v.
Proof.
  induction o as [|[k' v'] o IH]; simpl.
  - rewrite String.eqb_refl. reflexivity.
  - destruct (String.eqb k k') eqn:E; simpl.
    + rewrite String.eqb_refl. reflexivity.
    + rewrite E. exact IH.
Qed.

Lemma get_set_ne k k' v o :
  k <> k' -> Obj.get k' (Obj.set k v o) = Obj.get k' o.
Proof.
  intros Hne. induction o as [|[k0 v0] o IH]; simpl.
  - destruct (String.eqb_spec k' k); congruence.
  - destruct (String.eqb_spec k k0); simpl.
    + subst k0. destruct (String.eqb_spec k' k); congruence.
    + rewrite IH. reflexivity.
Qed.

Lemma get_delete_eq k o : Obj.get k (Obj.delete k o) = None.
Proof.
  induction o as [|[k' v'] o IH]; simpl; trivial.
  destruct (String.eqb k k') eqn:E; simpl; trivial. rewrite E. exact IH.
Qed.

Lemma get_delete_ne k k' o :
  k <> k' -> Obj.get k' (Obj.delete k o) = Obj.get k' o.
Proof.
  intros Hne. induction o as [|[k0 v0] o IH]; simpl; trivial.
  destruct (String.eqb_spec k k0); simpl.
  - subst k0. rewrite IH. destruct (String.eqb_spec k' k); congruence.
  - rewrite IH. reflexivity.
Qed.

Lemma get_in_keys k v o : Obj.get k o = Some v -> In k (Obj.keys o).
Proof.
  induction o as [|[k' v'] o IH]; simpl; [discriminate|].
  destruct (String.eqb_spec k k'); auto.
Qed.

Lemma prop_get k v o : Obj.get k o = Some v -> prop (VObj o) k = v.
Proof. intros H. simpl. rewrite H. reflexivity. Qed.

(** ** The validation sweep *)

Lemma visit_cart acc id :
  fst (fst (fst (visit acc id)))
  = (if invalid (prop (VObj (fst (fst (fst acc)))) id)
     then Obj.delete id (fst (fst (fst acc))) else fst (fst (fst acc))).
Proof.
  destruct acc as [[[c a] b] r]. unfold visit. cbn [fst].
  destruct (invalid (prop (VObj c) id)); [reflexivity|].
  destruct (prop (prop (VObj c) id) "quantity"); try reflexivity.
  destruct (prop (prop (VObj c) id) "price"); reflexivity.
Qed.

Lemma fold_visit_cart ks acc :
  fst (fst (fst (fold_left visit ks acc)))
  = sweep_cart ks (fst (fst (fst acc))).
Proof.
  revert acc. induction ks as [|k ks IH]; intros acc; simpl; trivial.
  rewrite IH, visit_cart. reflexivity.
Qed.

Lemma cleaned_sweep_cart c : cleaned c = sweep_cart (Obj.keys c) c.
Proof. unfold cleaned, sweep. rewrite fold_visit_cart. reflexivity. Qed.

Lemma sweep_cart_get ks c id :
  Obj.get id (sweep_cart ks c)
  = match Obj.get id c with
    | Some item =>
        if existsb (String.eqb id) ks && invalid item then None else Some item
    | None => None
    end.
Proof.
  revert c. induction ks as [|k ks IH]; intros c.
  - simpl. destruct (Obj.get id c); reflexivity.
  - cbn [sweep_cart fold_left existsb]. fold (sweep_cart ks).
    rewrite IH. destruct (String.eqb_spec id k) as [->|Hne].
    + unfold prop. destruct (Obj.get k c) as [item|] eqn:G.
      * destruct (invalid item) eqn:I.
        -- rewrite get_delete_eq. reflexivity.
        -- rewrite G, I, andb_false_r. reflexivity.
      * destruct (invalid VUndef); [rewrite get_delete_eq|rewrite G];
          reflexivity.
    + cbn [orb].
      destruct (invalid (prop (VObj c) k));
        [rewrite get_delete_ne by congruence|]; reflexivity.
Qed.

(** The sweep keeps exactly the entries that pass the test. *)
Lemma cleaned_get c id item :
  Obj.get id (cleaned c) = Some item
  <-> Obj.get id c = Some item /\ invalid item = false.
Proof.
  rewrite cleaned_sweep_cart, sweep_cart_get.
  destruct (Obj.get id c) as [it|] eqn:G.
  - assert (existsb (String.eqb id) (Obj.keys c) = true) as ->.
    { apply existsb_exists. exists id. split; [|apply String.eqb_refl].
      eapply get_in_keys; eassumption. }
    simpl. destruct (invalid it) eqn:I; split.
    + discriminate.
    + intros [E I']. congruence.
    + intros E. inversion E. subst. auto.
    + intros [E _]. exact E.
  - split; [discriminate|]. intros [E _]. discriminate.
Qed.

(** An entry that passes the test is an object or array with a numeric
    quantity that is not [<= 0] and a numeric price that is not [NaN]. *)
Lemma valid_item item :
  invalid item = false ->
  truthy item = true
  /\ exists q p,
       prop item "quantity" = VNum q /\ prop item "price" = VNum p
       /\ le q zero = false /\ isNaN p = false.
Proof.
  unfold invalid. intros H. apply orb_false_elim in H. destruct H as [T H].
  split; [destruct (truthy item); trivial; discriminate|].
  destruct (prop item "quantity") as [| | |q| | |]; try discriminate.
  destruct (prop item "price") as [| | |p| | |]; try discriminate.
  apply orb_false_elim in H. destruct H. exists q, p. auto.
Qed.

Lemma lookup_update key t l : Storage.lookup key (Storage.update key t l) = Some t.
Proof.
  induction l as [|[k t'] l IH]; simpl.
  - rewrite String.eqb_refl. reflexivity.
  - destruct (String.eqb key k) eqn:E; simpl.
    + rewrite String.eqb_refl. reflexivity.
    + rewrite E. exact IH.
Qed.

Lemma persist_stored c ls :
  full ls = false ->
  getItem (persist c ls) KEY = Some (JSON_stringify (VObj c)).
Proof.
  intros H. unfold persist, setItem, getItem. rewrite H. simpl.
  apply lookup_update.
Qed.

Lemma updateCartDisplay_cart st pnl :
  panel_ st = Some pnl ->
  cart (updateCartDisplay st) = cleaned (cart st)
  /\ localStorage (updateCartDisplay st)
     = persist (cleaned (cart st)) (localStorage st)
  /\ alerts (updateCartDisplay st) = alerts st.
Proof.
  intros H. unfold updateCartDisplay, cleaned. rewrite H.
  destruct (sweep (cart st)) as [[[c a] b] r]. simpl. auto.
Qed.

(** The test of the sweep fails on exactly the entries that are to
    stay. *)
Lemma invalid_stays item : invalid item = false <-> stays item.
Proof.
  split.
  - intros H. destruct (valid_item item H) as (T & q & p & H1 & H2 & H3 & H4).
    split; [exact T|]. exists q, p. auto.
  - intros (T & q & p & Hq & Hp & Lq & Np). unfold invalid.
    rewrite T, Hq, Hp, Lq, Np. reflexivity.
Qed.

(** C1, as amended.  With [window.cart] a plain object, on a page that
    has the cart panel, and while the storage takes the write,
    [updateCartDisplay] drops exactly the entries that fail its test: an
    entry is in the cart afterwards if and only if it was there before
    and is truthy, its quantity and its price are numbers, the quantity
    is not [<= 0] and the price is not [NaN].  Every remaining entry has
    such a quantity and price, and the cleaned mapping is what is stored
    under [shoppingCart]. *)
Theorem updateCartDisplay_sweeps st pnl :
  panel_ st = Some pnl -> full (localStorage st) = false ->
  let st' := updateCartDisplay st in
  (forall id item,
      Obj.get id (cart st') = Some item
      <-> Obj.get id (cart st) = Some item /\ stays item)
  /\ (forall id item,
        Obj.get id (cart st') = Some item ->
        exists q p,
          prop item "quantity" = VNum q /\ prop item "price" = VNum p
          /\ le q zero = false /\ isNaN p = false)
  /\ getItem (localStorage st') KEY = Some (JSON_stringify (VObj (cart st'))).
Proof.
  intros Hp Hf st'. subst st'.
  destruct (updateCartDisplay_cart st pnl Hp) as (-> & -> & _).
  split; [|split].
  - intros id item. rewrite cleaned_get, invalid_stays. reflexivity.
  - intros id item H. apply cleaned_get in H. destruct H as [_ H].
    apply valid_item in H. tauto.
  - apply persist_stored. assumption.
Qed.

Lemma updateCartDisplay_sweeps_witness :
  let st' := updateCartDisplay (fresh mixed_cart) in
  (forall id item,
      Obj.get id (cart st') = Some item
      <-> Obj.get id mixed_cart = Some item /\ stays item)
  /\ (forall id item,
        Obj.get id (cart st') = Some item ->
        exists q p,
          prop item "quantity" = VNum q /\ prop item "price" = VNum p
          /\ le q zero = false /\ isNaN p = false)
  /\ getItem (localStorage st') KEY = Some (JSON_stringify (VObj (cart st'))).
Proof.
  exact (updateCartDisplay_sweeps (fresh mixed_cart) _ eq_refl eq_refl).
Defined.

(** On the mixed cart the sweep keeps the good line and the line with
    the negative price, drops the other four entries, counts three items
    for a total of 25, and stores what it kept. *)
Example sweep_of_mixed_cart :
  let st' := updateCartDisplay (fresh mixed_cart) in
  Obj.keys (cart st') = ["p1"; "p3"]
  /\ Obj.get "p1" (cart st') = Obj.get "p1" mixed_cart
  /\ Obj.get "p3" (cart st') = Some negative_line
  /\ panel_ st' = Some {| lines := ["p1"; "p3"]; count := 3%float;
                          total := 25%float; emptyMsg := false |}
  /\ getItem (localStorage st') KEY
     = Some (Json (VObj [("p1", VObj [("name", VStr "Mug");
                                      ("price", VNum 15);
                                      ("quantity", VNum 2)]);
                         ("p3", negative_line)])).
Proof. vm_compute. repeat split; reflexivity. Qed.

(** C1 as stated fails for a stored entry with a negative price: the sweep
    keeps it, so an entry with [unitPrice < 0] remains. *)
Lemma negative_price_survives_sweep :
  exists item p,
    Obj.get "p1" (cart (updateCartDisplay (fresh [("p1", negative_line)])))
    = Some item
    /\ prop item "price" = VNum p /\ ge p zero = false.
Proof.
  exists negative_line, (-5)%float. repeat split; vm_compute; reflexivity.
Qed.

(** ** Adding to the cart *)

Lemma addToCart_rejected productId productName productPrice st :
  rejects productId productName productPrice = true ->
  addToCart productId productName productPrice st = alerted st.
Proof.
  unfold rejects, addToCart, alerted, alert_text.
  destruct productId as [id|]; [|reflexivity].
  destruct productName; try reflexivity. intros ->. reflexivity.
Qed.

Lemma addToCart_accepted id name productPrice st :
  rejects (Some id) (VStr name) productPrice = false ->
  addToCart (Some id) (VStr name) productPrice st
  = updateCartDisplay
      {| cart :=
           if has_entry (cart st) id then
             match Obj.get id (cart st) with
             | Some item => Obj.set id (bump item) (cart st)
             | None => cart st
             end
           else Obj.set id (new_line name (parseFloat productPrice)) (cart st);
         localStorage := localStorage st; panel_ := panel_ st;
         alerts := alerts st |}.
Proof.
  unfold rejects, addToCart. intros ->. reflexivity.
Qed.

(** The cart after [updateCartDisplay] holds every entry that passes the
    test, with or without a cart panel on the page. *)
Lemma updateCartDisplay_keeps st id item :
  Obj.get id (cart st) = Some item -> invalid item = false ->
  Obj.get id (cart (updateCartDisplay st)) = Some item.
Proof.
  intros G I. destruct (panel_ st) as [pnl|] eqn:P.
  - destruct (updateCartDisplay_cart st pnl P) as (-> & _).
    apply cleaned_get. auto.
  - unfold updateCartDisplay. rewrite P. assumption.
Qed.

Lemma updateCartDisplay_alerts st :
  alerts (updateCartDisplay st) = alerts st.
Proof.
  destruct (panel_ st) as [pnl|] eqn:P.
  - apply (updateCartDisplay_cart st pnl P).
  - unfold updateCartDisplay. rewrite P. reflexivity.
Qed.

Lemma new_line_valid name price :
  isNaN price = false -> invalid (new_line name price) = false.
Proof. intros H. unfold invalid, new_line. simpl. rewrite H. reflexivity. Qed.

Lemma bump_valid fields q p :
  prop (VObj fields) "quantity" = VNum q ->
  prop (VObj fields) "price" = VNum p ->
  le q zero = false -> isNaN p = false ->
  bump (VObj fields) = with_quantity (incr q) fields
  /\ invalid (with_quantity (incr q) fields) = false.
Proof.
  intros Hq Hp Lq Np. unfold bump, with_quantity. rewrite Hq. simpl ToNumber.of_value.
  split; [reflexivity|].
  unfold invalid. cbn [truthy negb orb]. unfold prop in *.
  rewrite get_set_eq, get_set_ne by discriminate.
  destruct (Obj.get "price" fields) as [x|]; [|discriminate].
  subst x. rewrite (incr_valid q Lq), Np. reflexivity.
Qed.

(** C6, as amended.  [addToCart] raises the alert and changes neither the
    cart nor the storage whenever the identifier is missing or empty, the
    name is not a non-empty string, or [parseFloat] of the price is [NaN]
    or negative.  Otherwise it raises no alert and: an identifier absent
    from the cart, and not the name of a property inherited from
    [Object.prototype], gets a new entry with the name, the parsed price
    and quantity 1; an existing entry that passes the cart's test has its
    quantity incremented. *)
Theorem addToCart_spec productId productName productPrice st :
  (rejects productId productName productPrice = true ->
   addToCart productId productName productPrice st = alerted st)
  /\ (rejects productId productName productPrice = false ->
      exists id name,
        productId = Some id /\ productName = VStr name
        /\ alerts (addToCart productId productName productPrice st) = alerts st
        /\ (Obj.plain id = true -> Obj.get id (cart st) = None ->
            Obj.get id (cart (addToCart productId productName productPrice st))
            = Some (new_line name (parseFloat productPrice)))
        /\ (forall fields q,
              Obj.get id (cart st) = Some (VObj fields) ->
              invalid (VObj fields) = false ->
              prop (VObj fields) "quantity" = VNum q ->
              Obj.get id (cart (addToCart productId productName productPrice st))
              = Some (with_quantity (incr q) fields))).
Proof.
  split; [apply addToCart_rejected|]. intros R.
  destruct productId as [id|]; [|discriminate].
  destruct productName as [| | | |name| |]; try discriminate.
  exists id, name. split; [reflexivity|]. split; [reflexivity|].
  rewrite (addToCart_accepted id name productPrice st R).
  assert (isNaN (parseFloat productPrice) = false) as Hn.
  { unfold rejects in R. repeat (apply orb_false_elim in R; destruct R as [R ?]).
    assumption. }
  split; [rewrite updateCartDisplay_alerts; reflexivity|]. split.
  - intros Hplain G.
    apply updateCartDisplay_keeps; [|apply new_line_valid; exact Hn].
    cbn [cart]. unfold has_entry. rewrite G, Hplain. apply get_set_eq.
  - intros fields q G I Hq.
    destruct (valid_item _ I) as (_ & q' & p & Hq' & Hp & Lq & Np).
    assert (q' = q) as -> by congruence.
    destruct (bump_valid fields q p Hq Hp Lq Np) as [B V].
    apply updateCartDisplay_keeps; [|exact V].
    cbn [cart]. unfold has_entry. rewrite G. cbn [truthy]. rewrite B.
    apply get_set_eq.
Qed.

Lemma addToCart_spec_witness :
  addToCart (Some "p1") (VStr "Widget") (PStr "abc") (fresh [])
  = alerted (fresh [])
  /\ exists id name,
       Some "p1" = Some id /\ VStr "Widget" = VStr name
       /\ alerts (addToCart (Some "p1") (VStr "Widget") (PStr "19.99") (fresh []))
          = alerts (fresh [])
       /\ (Obj.plain id = true -> Obj.get id (cart (fresh [])) = None ->
           Obj.get id
             (cart (addToCart (Some "p1") (VStr "Widget") (PStr "19.99")
                      (fresh [])))
           = Some (new_line name (parseFloat (PStr "19.99"))))
       /\ (forall fields q,
             Obj.get id (cart (fresh [])) = Some (VObj fields) ->
             invalid (VObj fields) = false ->
             prop (VObj fields) "quantity" = VNum q ->
             Obj.get id
               (cart (addToCart (Some "p1") (VStr "Widget") (PStr "19.99")
                        (fresh [])))
             = Some (with_quantity (incr q) fields)).
Proof.
  split.
  - exact (proj1 (addToCart_spec (Some "p1") (VStr "Widget") (PStr "abc")
                    (fresh [])) eq_refl).
  - exact (proj2 (addToCart_spec (Some "p1") (VStr "Widget") (PStr "19.99")
                    (fresh [])) eq_refl).
Defined.

(** C6 as stated fails for a price that is not finite: [Infinity] is
    neither [NaN] nor negative, so the call is accepted without an alert
    and the entry is stored with the price [Infinity]. *)
Lemma infinite_price_is_accepted :
  isFinite (parseFloat (PStr "Infinity")) = false
  /\ alerts (addToCart (Some "p1") (VStr "Widget") (PStr "Infinity") (fresh []))
     = []
  /\ Obj.get "p1"
       (cart (addToCart (Some "p1") (VStr "Widget") (PStr "Infinity") (fresh [])))
     = Some (new_line "Widget" Infinity).
Proof. repeat split; vm_compute; reflexivity. Qed.

(** ** Repeat adds *)

Lemma clean_get c k item :
  clean c = true -> Obj.get k c = Some item -> invalid item = false.
Proof.
  induction c as [|[k' v] c IH]; simpl; [discriminate|].
  intros H G. apply andb_prop in H. destruct H as [Hv Hc].
  destruct (String.eqb k k').
  - inversion G. subst. destruct (invalid item); trivial. discriminate.
  - auto.
Qed.

Lemma cleaned_get_valid c k :
  (forall item, Obj.get k c = Some item -> invalid item = false) ->
  Obj.get k (cleaned c) = Obj.get k c.
Proof.
  intros H. rewrite cleaned_sweep_cart, sweep_cart_get.
  destruct (Obj.get k c) as [item|]; trivial.
  rewrite (H item eq_refl), andb_false_r. reflexivity.
Qed.

Lemma updateCartDisplay_get_valid st k :
  (forall item, Obj.get k (cart st) = Some item -> invalid item = false) ->
  Obj.get k (cart (updateCartDisplay st)) = Obj.get k (cart st).
Proof.
  intros H. destruct (panel_ st) as [pnl|] eqn:P.
  - destruct (updateCartDisplay_cart st pnl P) as (-> & _).
    apply cleaned_get_valid. assumption.
  - unfold updateCartDisplay. rewrite P. reflexivity.
Qed.

(** The sweep leaves a clean cart. *)
Lemma cleaned_valid c k item :
  Obj.get k (cleaned c) = Some item -> invalid item = false.
Proof. intros H. apply cleaned_get in H. tauto. Qed.

(** C10.  When [addToCart] is called with valid arguments for an
    identifier that has an entry, in a cart whose entries all pass the
    cart's test, the entry afterwards is the same object with its quantity
    incremented by one: every other property of the entry, its name and
    price among them, is what it was, whatever name and price the call
    supplied; and every other entry of the cart is unchanged. *)
Theorem addToCart_existing_frame id name productPrice st item :
  rejects (Some id) (VStr name) productPrice = false ->
  clean (cart st) = true ->
  Obj.get id (cart st) = Some item ->
  let st' := addToCart (Some id) (VStr name) productPrice st in
  exists fields q,
    item = VObj fields
    /\ prop item "quantity" = VNum q
    /\ Obj.get id (cart st') = Some (with_quantity (incr q) fields)
    /\ prop (with_quantity (incr q) fields) "quantity" = VNum (incr q)
    /\ (forall k, k <> "quantity" ->
                  prop (with_quantity (incr q) fields) k = prop item k)
    /\ (forall k, k <> id -> Obj.get k (cart st') = Obj.get k (cart st)).
Proof.
  intros R C G st'. subst st'.
  pose proof (clean_get _ _ _ C G) as I.
  destruct (valid_item _ I) as (T & q & p & Hq & Hp & Lq & Np).
  destruct item as [| | | | |fields|]; try discriminate.
  exists fields, q. split; [reflexivity|]. split; [exact Hq|].
  destruct (bump_valid fields q p Hq Hp Lq Np) as [B V].
  rewrite (addToCart_accepted id name productPrice st R).
  unfold has_entry. rewrite G. cbn [truthy]. rewrite B.
  split; [|split; [|split]].
  - apply updateCartDisplay_keeps; [apply get_set_eq|exact V].
  - unfold with_quantity, prop. rewrite get_set_eq. reflexivity.
  - intros k Hk. unfold with_quantity, prop.
    rewrite get_set_ne by congruence. reflexivity.
  - intros k Hk. rewrite updateCartDisplay_get_valid; cbn [cart].
    + apply get_set_ne. congruence.
    + intros it. rewrite get_set_ne by congruence. apply clean_get. exact C.
Qed.

Lemma addToCart_existing_frame_witness :
  let c := [("p1", new_line "Widget" 19.99); ("p2", new_line "Mug" 15)] in
  let st' := addToCart (Some "p1") (VStr "Gadget") (PStr "5") (fresh c) in
  exists fields q,
    new_line "Widget" 19.99 = VObj fields
    /\ prop (new_line "Widget" 19.99) "quantity" = VNum q
    /\ Obj.get "p1" (cart st') = Some (with_quantity (incr q) fields)
    /\ prop (with_quantity (incr q) fields) "quantity" = VNum (incr q)
    /\ (forall k, k <> "quantity" ->
                  prop (with_quantity (incr q) fields) k
                  = prop (new_line "Widget" 19.99) k)
    /\ (forall k, k <> "p1" -> Obj.get k (cart st') = Obj.get k c).
Proof.
  exact (addToCart_existing_frame "p1" "Gadget" (PStr "5")
           (fresh [("p1", new_line "Widget" 19.99); ("p2", new_line "Mug" 15)])
           (new_line "Widget" 19.99) eq_refl eq_refl eq_refl).
Defined.

(** ** Loading the cart *)

(** C7 fails on the code.  When the stored text is no JSON, [JSON.parse]
    throws and the [catch] only resets [window.cart]: the storage keeps
    the corrupt text (the branch for a value that is not an object does
    rewrite it). *)
Theorem load_keeps_corrupt_text raw rest f :
  let ls := {| items := (KEY, Garbage raw) :: rest; full := f |} in
  load ls = (PlainCart [], ls)
  /\ getItem (snd (load ls)) KEY = Some (Garbage raw)
  /\ getItem (snd (load ls)) KEY <> Some (Json (VObj [])).
Proof.
  simpl. repeat split. discriminate.
Qed.

(** The sibling branch: a stored value that is truthy and not an object
    resets the cart and rewrites the stored item. *)
Lemma load_rewrites_non_object ls v :
  getItem ls KEY = Some (Json v) -> truthy v = true ->
  typeof v <> TObject -> full ls = false ->
  fst (load ls) = PlainCart []
  /\ getItem (snd (load ls)) KEY = Some (Json (VObj [])).
Proof.
  intros G T Ty F. unfold load. rewrite G. cbn [JSON_parse]. rewrite T.
  unfold setItem. rewrite F.
  destruct v; simpl in Ty; try congruence; cbn [fst snd];
    (split; [reflexivity|]); unfold getItem; simpl; apply lookup_update.
Qed.

(** A stored value that is falsy ([null], [0], [false], the empty string)
    gives the empty cart through [|| {}] and leaves the storage as it is. *)
Lemma load_falsy ls v :
  getItem ls KEY = Some (Json v) -> truthy v = false ->
  load ls = (PlainCart [], ls).
Proof.
  intros G T. unfold load. rewrite G. cbn [JSON_parse]. rewrite T.
  reflexivity.
Qed.

(** *** The cart scenario, evaluated *)

(** Adding the same product twice gives one line of quantity 2, a count
    of 2 and a total of 39.98, stored under [shoppingCart]. *)
Example add_twice :
  let st := addToCart (Some "p1") (VStr "Widget") (PStr "19.99")
              (addToCart (Some "p1") (VStr "Widget") (PStr "19.99")
                 (fresh [])) in
  cart st = [("p1", VObj [("name", VStr "Widget"); ("price", VNum 19.99);
                          ("quantity", VNum 2)])]
  /\ panel_ st = Some {| lines := ["p1"]; count := 2%float;
                         total := 39.98%float; emptyMsg := false |}
  /\ getItem (localStorage st) KEY = Some (JSON_stringify (VObj (cart st)))
  /\ alerts st = [].
Proof. vm_compute. repeat split; reflexivity. Qed.

End CartFacts.

(** * The recently-viewed list *)

Module RecentlyViewedFacts.

Import RecentlyViewed.
Import RecentlyViewedSpec.
Local Open Scope nat_scope.

Lemma json_image_strings ids :
  json_image (VArr (map VStr ids)) = VArr (map VStr ids).
Proof.
  simpl. f_equal. induction ids as [|x ids IH]; simpl; congruence.
Qed.

Lemma filter_differs id ids :
  filter (differs id) (map VStr ids)
  = map VStr (filter (fun x => negb (String.eqb x id)) ids).
Proof.
  induction ids as [|x ids IH]; simpl; trivial.
  destruct (String.eqb x id); simpl; congruence.
Qed.

Lemma addRecentlyViewedId_holds ss ids id :
  holds ss ids -> id <> "" -> full ss = false ->
  holds (addRecentlyViewedId id ss) (record id ids).
Proof.
  unfold holds, addRecentlyViewedId. intros H Hid Hf.
  destruct (String.eqb_spec id ""); [contradiction|].
  rewrite H, filter_differs. unfold setItem. rewrite Hf.
  unfold getRecentlyViewedIds, getItem. cbn [items].
  rewrite CartFacts.lookup_update. unfold JSON_stringify.
  change (VStr id :: map VStr ?l) with (map VStr (id :: l)).
  rewrite firstn_map. apply json_image_strings.
Qed.

Lemma filter_length_NoDup id ids :
  NoDup ids -> In id ids ->
  S (List.length (filter (fun x => negb (String.eqb x id)) ids))
  = List.length ids.
Proof.
  induction 1 as [|x ids Hx Hnd IH]; simpl; [contradiction|].
  intros [->|Hin].
  - rewrite String.eqb_refl. simpl. f_equal.
    clear IH Hnd. induction ids as [|y ids IH]; simpl; trivial.
    destruct (String.eqb_spec y id) as [->|Hne]; simpl.
    + exfalso. apply Hx. left. reflexivity.
    + f_equal. apply IH. intros Hin. apply Hx. right. exact Hin.
  - destruct (String.eqb_spec x id) as [->|Hne]; [contradiction|].
    simpl. f_equal. apply IH. exact Hin.
Qed.

Lemma NoDup_firstn (n : nat) (l : list string) : NoDup l -> NoDup (firstn n l).
Proof.
  intros H. rewrite <- (firstn_skipn n l) in H.
  apply NoDup_app_remove_r in H. exact H.
Qed.

Lemma record_NoDup id ids : NoDup ids -> NoDup (record id ids).
Proof.
  intros H. unfold record. apply NoDup_firstn. constructor.
  - intros Hin. apply filter_In in Hin. destruct Hin as [_ Hin].
    rewrite String.eqb_refl in Hin. discriminate.
  - apply NoDup_filter. exact H.
Qed.

Lemma record_length id ids : List.length (record id ids) <= 8.
Proof. unfold record. apply firstn_le_length. Qed.

Lemma record_head id ids : hd_error (record id ids) = Some id.
Proof. reflexivity. Qed.

Lemma record_same_length id ids :
  NoDup ids -> List.length ids <= 8 -> In id ids ->
  List.length (record id ids) = List.length ids.
Proof.
  intros Hnd Hlen Hin. unfold record. rewrite length_firstn.
  cbn [List.length]. rewrite (filter_length_NoDup id ids Hnd Hin).
  unfold MAX_RECENTLY_VIEWED. lia.
Qed.

(** C9.  For every recently-viewed list (duplicate-free, at most 8
    identifiers) and every product identifier, after
    [addRecentlyViewedId] the stored list has the identifier at the
    front, has at most 8 entries and no duplicates; an identifier already
    in the list moves to the front and the length stays the same.  The
    identifier is not empty (the function returns at once on an empty
    one) and the storage takes the write. *)
Theorem addRecentlyViewedId_spec ss ids id :
  holds ss ids -> NoDup ids -> List.length ids <= 8 ->
  id <> "" -> full ss = false ->
  exists ids',
    holds (addRecentlyViewedId id ss) ids'
    /\ hd_error ids' = Some id
    /\ List.length ids' <= 8
    /\ NoDup ids'
    /\ (In id ids -> List.length ids' = List.length ids).
Proof.
  intros H Hnd Hlen Hid Hf. exists (record id ids).
  split; [apply addRecentlyViewedId_holds; assumption|].
  split; [apply record_head|]. split; [apply record_length|].
  split; [apply record_NoDup; assumption|].
  apply record_same_length; assumption.
Qed.

Lemma addRecentlyViewedId_spec_witness :
  exists ids',
    holds (addRecentlyViewedId "p1" three_viewed) ids'
    /\ hd_error ids' = Some "p1"
    /\ List.length ids' <= 8
    /\ NoDup ids'
    /\ (In "p1" ["p3"; "p2"; "p1"] -> List.length ids' = 3).
Proof.
  refine (addRecentlyViewedId_spec three_viewed ["p3"; "p2"; "p1"] "p1"
            eq_refl _ _ _ eq_refl).
  - repeat constructor; simpl; intuition discriminate.
  - simpl. lia.
  - discriminate.
Defined.

(** The hypotheses of the theorem hold whenever the list is read: the
    storage starts empty and every write keeps the list duplicate-free
    and at most 8 long, whatever identifier is recorded. *)
Lemma empty_well_formed : well_formed Storage.empty.
Proof. exists []. repeat split; simpl; try lia. constructor. Qed.

Lemma addRecentlyViewedId_well_formed id ss :
  well_formed ss -> well_formed (addRecentlyViewedId id ss).
Proof.
  intros (ids & H & Hnd & Hlen).
  destruct (String.eqb_spec id "") as [->|Hid].
  - exists ids. auto.
  - destruct (full ss) eqn:Hf.
    + exists ids. repeat split; trivial.
      unfold holds, addRecentlyViewedId in *. rewrite H.
      destruct (String.eqb id ""); trivial.
      unfold setItem. rewrite Hf. exact H.
    + exists (record id ids). split; [|split].
      * apply addRecentlyViewedId_holds; assumption.
      * apply record_NoDup. assumption.
      * apply record_length.
Qed.

End RecentlyViewedFacts.

(** * The filter and search engine *)

Module FiltersFacts.

Import Filters.
Import FiltersSpec.

Section Matching.

Variable toLowerCase : string -> string.

Lemma nonempty_spec s : nonempty s = true <-> s <> "".
Proof.
  unfold nonempty. destruct (String.eqb_spec s ""); simpl;
    intuition congruence.
Qed.

Lemma nonempty_false s : nonempty s = false <-> s = "".
Proof.
  unfold nonempty. destruct (String.eqb_spec s ""); simpl;
    intuition congruence.
Qed.

Lemma nameMatches_spec pg p :
  nameMatches toLowerCase pg p = true
  <-> searchTerm toLowerCase pg = ""
      \/ (name p <> ""
          /\ includes (toLowerCase (name p)) (searchTerm toLowerCase pg) = true).
Proof.
  unfold nameMatches. rewrite orb_true_iff, negb_true_iff, andb_true_iff.
  rewrite nonempty_false, nonempty_spec. reflexivity.
Qed.

Lemma categoryMatches_spec pg p :
  categoryMatches toLowerCase pg p = true
  <-> selectedCategory pg = ""
      \/ exists c, category p = Some c /\ c <> ""
                   /\ toLowerCase c = selectedCategory pg.
Proof.
  unfold categoryMatches. rewrite orb_true_iff, negb_true_iff, nonempty_false.
  split; (intros [H|H]; [left; exact H|right]).
  - destruct (category p) as [c|]; [|discriminate].
    apply andb_true_iff in H. destruct H as [H1 H2].
    exists c. rewrite nonempty_spec in H1. rewrite String.eqb_eq in H2. auto.
  - destruct H as (c & -> & H1 & H2). apply andb_true_iff.
    rewrite nonempty_spec, String.eqb_eq. auto.
Qed.

Lemma priceMatches_spec pg p :
  priceMatches pg p = true
  <-> exists f,
        Pricing.finalPrice
          (Pricing.calculateDiscountedPrice (VNum (price p)) (discount p))
        = VNum f
        /\ ge f (currentMinPrice pg) = true
        /\ le f (currentMaxPrice pg) = true.
Proof.
  unfold priceMatches.
  destruct (Pricing.finalPrice _) as [| | |f| | |]; split;
    try discriminate; try (intros (f' & E & _); discriminate E).
  - intros H. apply andb_true_iff in H. exists f. tauto.
  - intros (f' & E & H1 & H2).
    assert (ge f (currentMinPrice pg) && le f (currentMaxPrice pg)
            = ge f' (currentMinPrice pg) && le f' (currentMaxPrice pg)) as ->.
    { exact (f_equal (fun v => match v with
                               | VNum x => ge x (currentMinPrice pg)
                                           && le x (currentMaxPrice pg)
                               | _ => false
                               end) E). }
    rewrite H1, H2. reflexivity.
Qed.

Lemma existsb_eqb_In s l : existsb (String.eqb s) l = true <-> In s l.
Proof.
  rewrite existsb_exists. split.
  - intros (x & Hin & E). apply String.eqb_eq in E. subst. exact Hin.
  - intros Hin. exists s. split; [exact Hin|apply String.eqb_refl].
Qed.

Lemma brandMatches_spec pg p :
  brandMatches toLowerCase pg p = true
  <-> selectedBrands toLowerCase pg = []
      \/ exists b, brand p = Some b /\ b <> ""
                   /\ In (toLowerCase b) (selectedBrands toLowerCase pg).
Proof.
  unfold brandMatches.
  destruct (selectedBrands toLowerCase pg) as [|x l] eqn:E.
  - intuition.
  - split.
    + intros H. right. destruct (brand p) as [b|]; [|discriminate].
      apply andb_true_iff in H. destruct H as [H1 H2].
      exists b. rewrite nonempty_spec in H1. rewrite existsb_eqb_In in H2.
      auto.
    + intros [H|(b & -> & H1 & H2)]; [discriminate|].
      apply andb_true_iff. rewrite nonempty_spec, existsb_eqb_In. auto.
Qed.

(** What the engine reads off the controls is what the page shows. *)
Lemma reads_criteria pg :
  criteria_of toLowerCase pg
  = {| term := searchTerm toLowerCase pg;
       chosen := selectedCategory pg;
       lowest := currentMinPrice pg;
       highest := currentMaxPrice pg;
       ticked := selectedBrands toLowerCase pg |}.
Proof. reflexivity. Qed.

Lemma isVisible_spec pg p : isVisible toLowerCase pg p = true
  <-> matches toLowerCase (criteria_of toLowerCase pg) p.
Proof.
  rewrite reads_criteria. unfold isVisible, matches.
  cbn [term chosen lowest highest ticked].
  rewrite !andb_true_iff.
  rewrite nameMatches_spec, categoryMatches_spec, priceMatches_spec,
    brandMatches_spec.
  tauto.
Qed.

(** With unique identifiers, the card of a product finds that product. *)
Lemma find_by_id (products : list product) p :
  NoDup (map id products) -> In p products ->
  find (fun q => String.eqb (id q) (id p)) products = Some p.
Proof.
  induction products as [|q products IH]; simpl; [contradiction|].
  intros Hnd Hin. inversion Hnd as [|? ? Hq Hnd']. subst.
  destruct Hin as [->|Hin].
  - rewrite String.eqb_refl. reflexivity.
  - destruct (String.eqb_spec (id q) (id p)) as [E|_]; [|auto].
    exfalso. apply Hq. rewrite E. apply in_map. exact Hin.
Qed.

Lemma visible_spec pg (cs : list card) (products : list product) :
  map card_id cs = map id products ->
  (forall p, In p products ->
             find (fun q => String.eqb (id q) (id p)) (allProductsData pg)
             = Some p) ->
  forall p,
    In p (map snd
            (filter (fun cp => shown (fst cp))
               (List.combine (map (filter_card toLowerCase pg) cs) products)))
    <-> In p products /\ isVisible toLowerCase pg p = true.
Proof.
  revert products. induction cs as [|c cs IH]; intros [|q products] Hids Hfind p;
    simpl in *; try discriminate; [tauto|].
  injection Hids as Hc Hids.
  specialize (IH products Hids (fun p H => Hfind p (or_intror H)) p).
  unfold filter_card at 1. rewrite Hc, (Hfind q (or_introl eq_refl)).
  cbn [shown]. destruct (isVisible toLowerCase pg q) eqn:V; simpl.
  - rewrite IH. split.
    + intros [->|[H1 H2]]; auto.
    + intros [[->|H1] H2]; auto.
  - rewrite IH. split.
    + intros [H1 H2]; auto.
    + intros [[->|H1] H2]; [congruence|auto].
Qed.

Lemma applyAllFilters_visible pg :
  isLoading pg = false ->
  map card_id (cards pg) = map id (allProductsData pg) ->
  NoDup (map id (allProductsData pg)) ->
  forall p,
    In p (visible (applyAllFilters toLowerCase pg))
    <-> In p (allProductsData pg)
        /\ matches toLowerCase (criteria_of toLowerCase pg) p.
Proof.
  intros Hl Hids Hnd p. unfold applyAllFilters. rewrite Hl.
  destruct (allProductsData pg) as [|q products] eqn:Ep.
  - destruct (cards pg) as [|c cs] eqn:Ec; [|discriminate Hids].
    unfold visible. simpl. tauto.
  - unfold visible. cbn [cards allProductsData]. rewrite <- Ep in *.
    rewrite visible_spec; trivial.
    + rewrite isVisible_spec. reflexivity.
    + intros p' Hin. apply find_by_id; assumption.
Qed.

End Matching.

(** C4.  For every catalog with unique identifiers, rendered as the grid,
    and every state of the filter controls, a product is in the visible
    subset after [applyAllFilters] if and only if it meets the four
    conditions for the choices that the controls show (the trimmed,
    lower-cased search text, the active category, the two slider values
    and the ticked brands), whatever function lowers the case; and the
    example of the specification, with the choices "lap", no category, 0
    to 1200 and no brand, yields exactly the laptop. *)
Theorem applyAllFilters_spec :
  (forall toLowerCase pg,
      isLoading pg = false ->
      map card_id (cards pg) = map id (allProductsData pg) ->
      NoDup (map id (allProductsData pg)) ->
      forall p,
        In p (visible (applyAllFilters toLowerCase pg))
        <-> In p (allProductsData pg)
            /\ matches toLowerCase (criteria_of toLowerCase pg) p)
  /\ criteria_of lower example_page = example_criteria
  /\ visible (applyAllFilters lower example_page) = [laptop].
Proof.
  split; [exact applyAllFilters_visible|]. split; vm_compute; reflexivity.
Qed.

Lemma applyAllFilters_spec_witness :
  In laptop (visible (applyAllFilters lower example_page))
  <-> In laptop [laptop; mug] /\ matches lower example_criteria laptop.
Proof.
  refine (proj1 applyAllFilters_spec lower example_page eq_refl eq_refl _
            laptop).
  repeat constructor; simpl; intuition discriminate.
Defined.

(** White space of any kind around the search text does not count: with
    a no-break space behind [" Lap"] the term is still ["lap"], and the
    laptop is shown. *)
Example search_text_is_trimmed :
  term (criteria_of lower nbsp_page) = "lap"
  /\ visible (applyAllFilters lower nbsp_page) = [laptop].
Proof. split; vm_compute; reflexivity. Qed.

End FiltersFacts.

(** * The overlays *)

Module OverlaysFacts.

Import Overlays.
Import OverlaysSpec.

Lemma open_exclusive A B f d :
  shows A d = true -> B <> PZoom -> (B = PAuth -> timers d = []) ->
  shows (Some B) (open B f d) = true.
Proof.
  intros H HB T. destruct d as [n c fl o pm mo am ao z af s t].
  destruct A as [[]|]; destruct n, c, fl, o, pm, mo, am, ao, z;
    try discriminate H;
    destruct B; try (exfalso; apply HB; reflexivity); try reflexivity;
    simpl in T; rewrite (T eq_refl); reflexivity.
Qed.

Lemma openZoom_keeps d e :
  visible e (openZoom d)
  = (visible e d || match e with ZoomOverlay => true | _ => false end).
Proof.
  destruct d as [n c fl o pm mo am ao z af s t].
  destruct e, z; simpl; rewrite ?orb_false_r, ?orb_true_r; reflexivity.
Qed.

Lemma act_tidy ev d : opens_zoom ev = false -> tidy d -> tidy (act ev d).
Proof.
  intros Hev [T [A H]]. destruct d as [n c fl o pm mo am ao z af s t].
  simpl in T. subst t.
  destruct A as [[]|]; destruct n, c, fl, o, pm, mo, am, ao, z;
    try discriminate H; clear H;
    destruct ev as [sb|sb| | | | | |f| | |]; try discriminate Hev;
    try destruct sb;
    (split; [reflexivity|]);
    first [ exists None; reflexivity
          | exists (Some PNav); reflexivity
          | exists (Some PCart); reflexivity
          | exists (Some PFilters); reflexivity
          | exists (Some PQuickView); reflexivity
          | exists (Some PAuth); reflexivity
          | exists (Some PZoom); reflexivity ].
Qed.

Lemma acts_tidy evs d :
  forallb (fun ev => negb (opens_zoom ev)) evs = true ->
  tidy d -> tidy (acts evs d).
Proof.
  revert d. induction evs as [|ev evs IH]; intros d H Hd; simpl; trivial.
  simpl in H. apply andb_prop in H. destruct H as [Hev H].
  apply IH; trivial. apply act_tidy; trivial.
  destruct (opens_zoom ev); trivial. discriminate.
Qed.

Lemma shows_open_count A d : shows A d = true -> (open_count d <= 1)%nat.
Proof.
  intros H. destruct d as [n c fl o pm mo am ao z af s t].
  destruct A as [[]|]; destruct n, c, fl, o, pm, mo, am, ao, z;
    try discriminate H; cbv; lia.
Qed.

(** C5, as amended.  In every state reached by user actions other than
    opening the zoom layer, each followed by the timers it started, at
    most one overlay is open.  Opening a sidebar, the quick view or the
    sign-in modal [B] while [A] is open leaves [B] open and everything
    else closed.  Opening the zoom layer closes nothing: it becomes
    visible on top of what is open. *)
Theorem overlays_exclusive_but_zoom :
  (forall evs,
      forallb (fun ev => negb (opens_zoom ev)) evs = true ->
      (open_count (acts evs initial) <= 1)%nat)
  /\ (forall A B f d,
        shows A d = true -> B <> PZoom -> (B = PAuth -> timers d = []) ->
        shows (Some B) (open B f d) = true)
  /\ (forall d e,
        visible e (openZoom d)
        = (visible e d || match e with ZoomOverlay => true | _ => false end)).
Proof.
  split; [|split].
  - intros evs H.
    destruct (acts_tidy evs initial H) as [_ [A HA]].
    + split; [reflexivity|]. exists None. reflexivity.
    + exact (shows_open_count A _ HA).
  - exact open_exclusive.
  - exact openZoom_keeps.
Qed.

Lemma overlays_exclusive_but_zoom_witness :
  shows (Some PCart) (open PCart Login (open PNav Login initial)) = true.
Proof.
  refine (proj1 (proj2 overlays_exclusive_but_zoom) (Some PNav) PCart Login
            (open PNav Login initial) eq_refl _ _); discriminate.
Defined.

(** C5 as stated fails: the zoom layer opens over the quick view, and
    both are open. *)
Lemma zoom_opens_over_quick_view :
  is_open PQuickView (steps [ViewDetailsClick; ImageClick] initial) = true
  /\ is_open PZoom (steps [ViewDetailsClick; ImageClick] initial) = true
  /\ open_count (steps [ViewDetailsClick; ImageClick] initial) = 2%nat.
Proof. repeat split. Qed.

End OverlaysFacts.

(** * Signs of binary64 results *)

Module SignFacts.

Import Binary64 FloatFacts NumFacts Signs.

Lemma ge_zero_spec x : ge x zero = true <-> nonneg (Prim2SF x).
Proof.
  unfold ge, le, zero. rewrite FloatAxioms.leb_spec, Prim2SF_zero.
  destruct (Prim2SF x) as [s|s| |s m e]; try destruct s; simpl;
    split; try tauto; try discriminate; reflexivity.
Qed.

Lemma gt_zero_false x : nonpos (Prim2SF x) -> gt x zero = false.
Proof.
  unfold gt, lt, zero. rewrite FloatAxioms.ltb_spec, Prim2SF_zero.
  destruct (Prim2SF x) as [s|s| |s m e]; try destruct s; simpl;
    tauto || reflexivity.
Qed.

Lemma nonpos_not_nan x : nonpos x -> not_nan x.
Proof. destruct x; simpl; tauto. Qed.

Lemma SF2Prim_nonneg x : nonneg x -> nonneg (Prim2SF (SF2Prim x)).
Proof.
  destruct x as [s|s| |s m e]; simpl nonneg; try tauto.
  - intros _. destruct s; exact I.
  - destruct s; [tauto|]. intros _. exact I.
  - destruct s; [tauto|]. intros _. unfold SF2Prim.
    rewrite Z_ldexp_spec, of_uint63_spec.
    match goal with |- context [binary_normalize _ _ (Uint63.to_Z ?u) _ _] =>
      pose proof (Uint63.to_Z_bounded u) as Hb;
      pose proof (binary_normalize_cases (Uint63.to_Z u) 0 false) as H;
      assert (Z.ltb (Uint63.to_Z u) 0 = false) as Hs
        by (apply Z.ltb_ge; lia);
      destruct (binary_normalize prec emax (Uint63.to_Z u) 0 false)
        as [s1|s1| |s1 m1 e1]
    end; cbn [SFldexp nonneg]; try tauto.
    + destruct H as [-> _]. rewrite Hs. exact I.
    + destruct H as [-> _]. rewrite Hs.
      pose proof (binary_round_cases false m1 (e1 + e)) as H1.
      destruct (binary_round prec emax false m1 (e1 + e))
        as [s2|s2| |s2 m2 e2]; try tauto; destruct H1 as [-> _]; exact I.
Qed.

Lemma of_cents_nonneg n : 0 <= n -> nonneg (Prim2SF (of_cents false n)).
Proof.
  intros Hn. unfold of_cents. destruct n as [|p|p]; try lia.
  - exact I.
  - unfold SFdiv_core_binary.
    match goal with |- context [Z.div_eucl ?a ?b] =>
      assert (0 <= a / b) as Hq;
      [ apply Z.div_pos; [|lia] | unfold Z.div in Hq;
        destruct (Z.div_eucl a b) as [q r] ] end.
    + match goal with |- 0 <= match ?x with _ => _ end =>
        destruct x; try lia end.
      apply Z.shiftl_nonneg. lia.
    + apply SF2Prim_nonneg.
      match goal with |- context [binary_round_aux _ _ ?a ?b ?c ?d] =>
        pose proof (binary_round_aux_cases a b c d Hq) as H;
        destruct (binary_round_aux prec emax a b c d) as [s2|s2| |s2 m2 e2]
      end; simpl; try tauto; destruct H as [-> _]; exact I.
Qed.

(** Rounding to cents does not take a number below zero. *)
Lemma round2_nonneg x : nonneg (Prim2SF x) -> nonneg (Prim2SF (round2 x)).
Proof.
  intros H. unfold round2.
  destruct (Prim2SF x) as [s|s| |s m e] eqn:E; simpl in H; try tauto.
  - rewrite E. exact H.
  - destruct s; [tauto|].
    destruct (ge (abs x) ten21); [rewrite E; exact I|].
    apply of_cents_nonneg, cents_nonneg.
Qed.

Lemma max0_nonneg x : isNaN x = false -> nonneg (Prim2SF (max0 x)).
Proof.
  intros H. unfold max0. rewrite H.
  destruct (gt x zero) eqn:G; [|exact I].
  unfold gt, lt, zero in G. rewrite FloatAxioms.ltb_spec, Prim2SF_zero in G.
  destruct (Prim2SF x) as [s|s| |s m e]; try destruct s; simpl in *;
    trivial; discriminate.
Qed.

(** The exponent of a valid finite number is the one its digits ask
    for. *)
Lemma valid_exponent x s m e :
  Prim2SF x = S754_finite s m e ->
  e = Z.max (Zdigits2 (Zpos m) + e - prec) (3 - emax - prec).
Proof.
  intros E. pose proof (Prim2SF_valid x) as V. rewrite E in V.
  simpl in V. unfold bounded, canonical_mantissa in V.
  apply andb_prop in V. destruct V as [V _]. apply Z.eqb_eq in V.
  unfold fexp, SpecFloat.emin in V.
  change (Zpos (digits2_pos m)) with (Zdigits2 (Zpos m)) in V. lia.
Qed.

Lemma binary_normalize_nonpos m e :
  m <= 0 -> nonpos (binary_normalize prec emax m e false).
Proof.
  intros Hm. destruct m as [|p|p]; try lia; [exact I|].
  unfold binary_normalize.
  pose proof (binary_round_cases true p e) as H.
  destruct (binary_round prec emax true p e) as [s|s| |s m' e'];
    try tauto; try exact I; destruct H as [-> _]; exact I.
Qed.

(** Taking away at least as much as there is does not leave anything
    above zero. *)
Lemma sub_nonpos p v :
  isFinite p = true -> gt p zero = true -> le p v = true ->
  nonpos (Prim2SF (p - v)).
Proof.
  unfold isFinite, gt, lt, le, zero.
  rewrite FloatAxioms.ltb_spec, FloatAxioms.leb_spec, Prim2SF_zero, sub_spec.
  intros Hf Hp Hle.
  destruct (Prim2SF p) as [sp|sp| |sp mp ep] eqn:Ep; try destruct sp;
    try discriminate.
  - destruct (Prim2SF v) as [sv|sv| |sv mv ev] eqn:Ev; try destruct sv;
      try discriminate; try exact I.
    unfold SF64sub, SFsub.
    apply binary_normalize_nonpos.
    destruct (shl_align_spec mp ep (Z.min ep ev)) as [_ ->].
    destruct (shl_align_spec mv ev (Z.min ep ev)) as [_ ->].
    cbn [cond_Zopp].
    pose proof (valid_exponent p _ _ _ Ep) as Vp.
    pose proof (valid_exponent v _ _ _ Ev) as Vv.
    pose proof (valid_digits p _ _ _ Ep) as Dp.
    unfold SFleb in Hle. cbn [SFcompare] in Hle.
    destruct (Z.compare_spec ep ev) as [He|He|He]; try discriminate.
    + subst ev. rewrite !Z.min_id, Z.sub_diag, Z.pow_0_r, !Z.mul_1_r.
      rewrite Pos.compare_cont_spec in Hle. cbn [Pos.switch_Eq] in Hle.
      destruct (Pos.compare_spec mp mv); try discriminate; lia.
    + rewrite (Z.min_l ep ev) by lia.
      rewrite Z.min_id, (Z.min_r ev ep) by lia.
      rewrite Z.sub_diag, Z.pow_0_r, Z.mul_1_r.
      assert (Zdigits2 (Zpos mv) = prec) as Dv by lia.
      assert (Zpos mp < 2 ^ prec) as Bp
          by (apply Zdigits2_lt_pow2; [lia|unfold prec; lia|exact Dp]).
      assert (2 ^ (prec - 1) <= Zpos mv) as Bv.
      { apply Zdigits2_le_pow2; [lia|unfold prec; lia|lia]. }
      assert (2 ^ 1 <= 2 ^ (ev - ep)) as Hpow
          by (apply Z.pow_le_mono_r; lia).
      assert (2 ^ prec = 2 ^ (prec - 1) * 2 ^ 1) as Hsplit
          by (rewrite <- Z.pow_add_r by (unfold prec; lia); f_equal; lia).
      nia.
Qed.

(** *** A quotient that is at most one *)

(** Shifting out bits that are all zero leaves nothing behind. *)
Lemma shr_1_exact a :
  0 <= a ->
  shr_1 {| shr_m := 2 * a; shr_r := false; shr_s := false |}
  = {| shr_m := a; shr_r := false; shr_s := false |}.
Proof. intros Ha. destruct a as [|p|p]; try lia; reflexivity. Qed.

Lemma iter_shr_exact n : forall a,
  0 <= a ->
  iter_pos shr_1 n
    {| shr_m := a * 2 ^ Zpos n; shr_r := false; shr_s := false |}
  = {| shr_m := a; shr_r := false; shr_s := false |}.
Proof.
  induction n as [n IH|n IH|]; intros a Ha; cbn [iter_pos].
  - replace (a * 2 ^ Zpos n~1) with (2 * ((a * 2 ^ Zpos n) * 2 ^ Zpos n)).
    + assert (0 <= 2 ^ Zpos n) by (apply Z.pow_nonneg; lia).
      rewrite shr_1_exact by nia. rewrite IH by nia. apply IH, Ha.
    + replace (Zpos n~1) with (1 + Zpos n + Zpos n) by lia.
      rewrite !Z.pow_add_r by lia. lia.
  - replace (a * 2 ^ Zpos n~0) with ((a * 2 ^ Zpos n) * 2 ^ Zpos n).
    + assert (0 <= 2 ^ Zpos n) by (apply Z.pow_nonneg; lia).
      rewrite IH by nia. apply IH, Ha.
    + replace (Zpos n~0) with (Zpos n + Zpos n) by lia.
      rewrite Z.pow_add_r by lia. lia.
  - replace (a * 2 ^ 1) with (2 * a) by lia. apply shr_1_exact, Ha.
Qed.

Lemma shr_fexp_exact m e a :
  0 <= a ->
  m = a * 2 ^ Z.max 0 (fexp prec emax (Zdigits2 m + e) - e) ->
  loc_of_shr_record (fst (shr_fexp prec emax m e loc_Exact)) = loc_Exact.
Proof.
  intros Ha Hm. unfold shr_fexp, shr.
  destruct (fexp prec emax (Zdigits2 m + e) - e) as [|p|p] eqn:En;
    try reflexivity.
  cbn [fst shr_record_of_loc]. rewrite Z.max_r in Hm by lia.
  rewrite Hm at 1. rewrite (iter_shr_exact p a Ha). reflexivity.
Qed.

(** Rounding a value that is at most [2^K] gives at most [2^K]: the
    value is [q * 2^e], or between that and [(q+1) * 2^e] when the
    location is not exact. *)
Lemma binary_round_aux_below_pow2 s q e l K :
  0 <= q -> e <= K -> -1074 <= K -> K <= 971 ->
  q <= 2 ^ (K - e) -> (q = 2 ^ (K - e) -> l = loc_Exact) ->
  match binary_round_aux prec emax s q e l with
  | S754_zero s' => s' = s
  | S754_finite s' m' e' => s' = s /\ e' <= K /\ Zpos m' <= 2 ^ (K - e')
  | _ => False
  end.
Proof.
  intros Hq HeK HK1 HK2 Hle Hex. unfold binary_round_aux.
  pose proof (shr_fexp_spec q e l Hq) as [Hm1 He1].
  pose proof (fun a Ha Hm => shr_fexp_exact q e a Ha Hm) as Hx1.
  destruct (shr_fexp prec emax q e l) as [r1 e1] eqn:S1.
  simpl in Hm1, He1.
  set (n := Z.max 0 (fexp prec emax (Zdigits2 q + e) - e)) in *.
  set (m1 := shr_m r1) in *.
  assert (prec = 53) as Hprec by reflexivity.
  assert (emax = 1024) as Hemax by reflexivity.
  assert (0 <= n) as Hn by (unfold n; lia).
  assert (Zdigits2 q <= K - e + 1) as Hdq.
  { destruct (Z.eq_dec q (2 ^ (K - e))) as [->|Hne].
    - rewrite Zdigits2_log2 by (apply Z.pow_pos_nonneg; lia).
      rewrite Z.log2_pow2 by lia. lia.
    - assert (q < 2 ^ (K - e)) as Hlt by lia.
      apply Zdigits2_lt_pow2 in Hlt; lia. }
  assert (e1 <= K) as He1K.
  { rewrite He1. unfold n, fexp, SpecFloat.emin. lia. }
  assert (2 ^ (K - e) = 2 ^ (K - e1) * 2 ^ n) as Hsplit.
  { rewrite <- Z.pow_add_r by lia. f_equal. lia. }
  assert (0 < 2 ^ n) as Hpn by (apply Z.pow_pos_nonneg; lia).
  assert (0 < 2 ^ (K - e1)) as Hpk by (apply Z.pow_pos_nonneg; lia).
  assert (0 <= m1) as Hm1pos by (rewrite Hm1; apply Z.div_pos; lia).
  assert (m1 <= 2 ^ (K - e1)) as Hm1le.
  { rewrite Hm1. apply Z.div_le_upper_bound; [lia|]. rewrite Z.mul_comm.
    rewrite <- Hsplit. exact Hle. }
  set (m2 := round_nearest_even m1 (loc_of_shr_record r1)).
  assert (m1 <= m2 <= 2 ^ (K - e1)) as Hm2.
  { pose proof (round_nearest_even_bounds m1 (loc_of_shr_record r1)) as Hb.
    fold m2 in Hb. split; [lia|].
    destruct (Z.eq_dec m1 (2 ^ (K - e1))) as [E|Hne]; [|lia].
    assert (q = 2 ^ (K - e)) as Eq.
    { assert (2 ^ (K - e1) * 2 ^ n <= q); [|lia].
      rewrite <- E, Hm1, Z.mul_comm. apply Z.mul_div_le. lia. }
    specialize (Hex Eq). subst l.
    assert (loc_of_shr_record r1 = loc_Exact) as Lx.
    { change r1 with (fst (r1, e1)). rewrite <- S1.
      apply (shr_fexp_exact q e (2 ^ (K - e1))); [lia|].
      fold n. rewrite Eq. lia. }
    unfold m2. rewrite Lx. simpl. lia. }
  pose proof (shr_fexp_spec m2 e1 loc_Exact ltac:(lia)) as [Hm3 He3].
  destruct (shr_fexp prec emax m2 e1 loc_Exact) as [r3 e3].
  simpl in Hm3, He3.
  set (n2 := Z.max 0 (fexp prec emax (Zdigits2 m2 + e1) - e1)) in *.
  assert (0 <= n2) as Hn2 by (unfold n2; lia).
  assert (Zdigits2 m2 <= K - e1 + 1) as Hd2.
  { destruct (Z.eq_dec m2 (2 ^ (K - e1))) as [->|Hne].
    - rewrite Zdigits2_log2 by lia. rewrite Z.log2_pow2 by lia. lia.
    - assert (m2 < 2 ^ (K - e1)) as Hlt by lia.
      apply Zdigits2_lt_pow2 in Hlt; lia. }
  assert (e3 <= K) as He3K.
  { rewrite He3. unfold n2, fexp, SpecFloat.emin. lia. }
  assert (2 ^ (K - e1) = 2 ^ (K - e3) * 2 ^ n2) as Hsplit2.
  { rewrite <- Z.pow_add_r by lia. f_equal. lia. }
  assert (0 < 2 ^ n2) as Hpn2 by (apply Z.pow_pos_nonneg; lia).
  assert (shr_m r3 <= 2 ^ (K - e3)) as Hm3le.
  { rewrite Hm3. apply Z.div_le_upper_bound; [lia|]. rewrite Z.mul_comm.
    rewrite <- Hsplit2. lia. }
  assert (0 <= shr_m r3) as Hm3pos by (rewrite Hm3; apply Z.div_pos; lia).
  destruct (shr_m r3) as [|p3|p3]; try lia.
  - reflexivity.
  - destruct (Z.leb_spec e3 (emax - prec)); [|lia]. auto.
Qed.

Lemma binary_normalize_nonneg m e :
  0 <= m -> nonneg (binary_normalize prec emax m e false).
Proof.
  intros Hm. destruct m as [|p|p]; try lia; [exact I|].
  unfold binary_normalize.
  pose proof (binary_round_cases false p e) as H.
  destruct (binary_round prec emax false p e) as [s|s| |s m' e'];
    try tauto; try exact I; destruct H as [-> _]; exact I.
Qed.

(** A number between 0 and 100, divided by 100, is at most 1. *)
Lemma percent_quotient v :
  gt v zero = true -> le v hundred = true ->
  match Prim2SF (v / 100)%float with
  | S754_zero _ => True
  | S754_finite false m e => e <= 0 /\ Zpos m <= 2 ^ (- e)
  | _ => False
  end.
Proof.
  intros H0 H100.
  destruct (percent_value v H0 H100) as (m & e & E & Hmag).
  pose proof (valid_exponent v _ _ _ E) as Ve.
  pose proof (valid_digits v _ _ _ E) as Vd.
  assert (e < -46 \/ (e = -46 /\ Zpos m <= 7036874417766400)) as Hv.
  { unfold le, hundred in H100.
    rewrite FloatAxioms.leb_spec, E, Prim2SF_hundred in H100.
    unfold SFleb, SF_hundred in H100.
    cbv beta iota delta [SFcompare] in H100.
    destruct (Z.compare_spec e (-46)) as [He|He|He]; try discriminate.
    - right. split; [exact He|].
      rewrite Pos.compare_cont_spec in H100. cbn [Pos.switch_Eq] in H100.
      destruct (Pos.compare_spec m 7036874417766400) as [Hc|Hc|Hc];
        [subst m; lia| |discriminate H100].
      apply Pos2Z.pos_lt_pos in Hc. apply Z.lt_le_incl. exact Hc.
    - left. exact He. }
  rewrite div_spec, E, Prim2SF_hundred. unfold SF64div, SFdiv, SF_hundred.
  unfold SFdiv_core_binary.
  assert (Zdigits2 7036874417766400 = 53) as D100 by reflexivity.
  rewrite D100. unfold mag in Hmag.
  set (d1 := Zdigits2 (Zpos m)) in *.
  set (e' := Z.min (fexp prec emax (d1 + e - (53 + -46))) (e - -46)).
  assert (prec = 53) as Hprec by reflexivity.
  assert (emax = 1024) as Hemax by reflexivity.
  assert (e' <= -53) as He' by (unfold e', fexp, SpecFloat.emin; lia).
  assert (e' <= e + 46) as He'' by (unfold e'; lia).
  set (s := e - -46 - e').
  assert (0 <= s) as Hs by (unfold s; lia).
  set (m' := match s with
             | 0 => Zpos m
             | Zpos _ => Z.shiftl (Zpos m) s
             | Zneg _ => 0
             end).
  assert (m' = Zpos m * 2 ^ s) as Em'.
  { unfold m'. destruct s as [|p|p] eqn:Es; try lia.
    rewrite Z.shiftl_mul_pow2 by lia. reflexivity. }
  assert (0 < 2 ^ s) as Hps by (apply Z.pow_pos_nonneg; lia).
  assert (m' <= 7036874417766400 * 2 ^ (- e')) as Hle.
  { rewrite Em'. replace (- e') with (s + (- e - 46)) by (unfold s; lia).
    rewrite Z.pow_add_r by lia.
    assert (Zpos m <= 7036874417766400 * 2 ^ (- e - 46)) as Hm.
    { destruct Hv as [He|[He Hm]].
      - assert (Zpos m < 2 ^ 53) as Bm
            by (apply Zdigits2_lt_pow2; [lia|lia|fold d1; lia]).
        assert (2 ^ 1 <= 2 ^ (- e - 46)) as Hp
            by (apply Z.pow_le_mono_r; lia).
        change (2 ^ 53) with 9007199254740992 in Bm.
        change (2 ^ 1) with 2 in Hp. nia.
      - subst e. change (2 ^ (- -46 - 46)) with 1. lia. }
    nia. }
  pose proof (Z.div_eucl_eq m' 7036874417766400 ltac:(lia)) as Hdiv.
  pose proof (Z.mod_pos_bound m' 7036874417766400 ltac:(lia)) as Hmod.
  unfold Z.modulo in Hmod.
  destruct (Z.div_eucl m' 7036874417766400) as [q r].
  assert (0 < 2 ^ (- e')) as Hpe by (apply Z.pow_pos_nonneg; lia).
  assert (0 <= q) as Hq by nia.
  assert (q <= 2 ^ (0 - e')) as Hqle by (rewrite Z.sub_0_l; nia).
  pose proof (binary_round_aux_below_pow2 false q e'
                (new_location 7036874417766400 r) 0
                Hq ltac:(lia) ltac:(lia) ltac:(lia) Hqle) as R.
  cbn [xorb].
  destruct (binary_round_aux prec emax false q e' _) as [s'|s'| |s' mq eq];
    try exact I.
  - apply R. intros Eq. rewrite Z.sub_0_l in Eq.
    assert (r = 0) as -> by nia. reflexivity.
  - apply R. intros Eq. rewrite Z.sub_0_l in Eq.
    assert (r = 0) as -> by nia. reflexivity.
  - destruct R as (-> & R1 & R2).
    + intros Eq. rewrite Z.sub_0_l in Eq.
      assert (r = 0) as -> by nia. reflexivity.
    + rewrite Z.sub_0_l in R2. auto.
Qed.

(** What is left of the price after a percentage is not below zero. *)
Lemma percent_factor_nonneg v :
  gt v zero = true -> le v hundred = true ->
  nonneg (Prim2SF (1 - v / 100)%float).
Proof.
  intros H0 H100. pose proof (percent_quotient v H0 H100) as Q.
  rewrite sub_spec, Prim2SF_one.
  destruct (Prim2SF (v / 100)%float) as [s|s| |s mq eq]; try tauto.
  destruct s; [tauto|]. destruct Q as [He Hm].
  unfold SF64sub, SFsub, SF_one.
  apply binary_normalize_nonneg.
  destruct (shl_align_spec 4503599627370496 (-52) (Z.min (-52) eq))
    as [_ ->].
  destruct (shl_align_spec mq eq (Z.min (-52) eq)) as [_ ->].
  cbn [cond_Zopp].
  set (ez := Z.min (-52) eq).
  rewrite (Z.min_r (-52) ez), (Z.min_r eq ez) by (unfold ez; lia).
  change 4503599627370496 with (2 ^ 52).
  rewrite <- Z.pow_add_r by (unfold ez; lia).
  assert (Zpos mq * 2 ^ (eq - ez) <= 2 ^ (- eq) * 2 ^ (eq - ez)) as Hb.
  { apply Z.mul_le_mono_nonneg_r; [|exact Hm].
    apply Z.pow_nonneg. lia. }
  rewrite <- Z.pow_add_r in Hb by (unfold ez; lia).
  replace (52 + (-52 - ez)) with (- eq + (eq - ez)) by lia. lia.
Qed.

Lemma mul_nonneg x y :
  isFinite x = true -> nonneg (Prim2SF x) ->
  finite_or_zero (Prim2SF y) -> nonneg (Prim2SF y) ->
  nonneg (Prim2SF (x * y)%float).
Proof.
  rewrite isFinite_spec, mul_spec. unfold SF64mul, SFmul.
  destruct (Prim2SF x) as [sx|sx| |sx mx ex]; simpl; try tauto;
    destruct (Prim2SF y) as [sy|sy| |sy my ey]; simpl; try tauto.
  destruct sx, sy; try tauto. intros _ _ _ _. cbn [xorb].
  pose proof (binary_round_aux_cases false (Zpos (mx * my)) (ex + ey)
                loc_Exact ltac:(lia)) as H.
  destruct (binary_round_aux prec emax false _ _ _) as [s|s| |s m e];
    try tauto; try exact I; destruct H as [-> _]; exact I.
Qed.

End SignFacts.

(** * The pricing engine: badges and free products *)

Module DiscountFacts.

Import Binary64 FloatFacts NumFacts Pricing PricingSpec PricingFacts.
Import Signs SignFacts.

Lemma is_str_spec v s : is_str v s = true <-> v = VStr s.
Proof.
  destruct v; simpl; try (split; [discriminate|congruence]).
  rewrite String.eqb_eq. split; congruence.
Qed.

(** X9.  The discount badge and the flag go together: for every price
    and discount argument, the result has a discount text if and only if
    [hasDiscount] is [true]. *)
Theorem badge_iff_flag price discount :
  hasDiscount (calculateDiscountedPrice price discount)
  = match discountText (calculateDiscountedPrice price discount) with
    | Some _ => true
    | None => false
    end.
Proof.
  unfold calculateDiscountedPrice.
  destruct price as [| | |p| | |]; try reflexivity.
  destruct (isNaN p || lt p zero); [reflexivity|].
  assert (snd (apply_discount p discount)
          = match snd (fst (apply_discount p discount)) with
            | Some _ => true
            | None => false
            end) as H.
  { unfold apply_discount.
    destruct (prop discount "value"); try reflexivity.
    destruct (truthy discount && gt x zero); [|reflexivity].
    destruct (is_str (prop discount "type") "percent" && gt x zero
              && le x hundred); [reflexivity|].
    destruct (is_str (prop discount "type") "fixed"); [|reflexivity].
    destruct (lt (fixed_price p x) p); reflexivity. }
  destruct (apply_discount p discount) as [[fp text] has]. simpl in H.
  destruct (ge (round2 fp) p); [reflexivity|exact H].
Qed.

(** X10.  A discount needs a descriptor.  [hasDiscount] is [true] only
    for a numeric price and a truthy descriptor whose value is a number
    above 0 and whose type is the string ["percent"], with a value of at
    most 100, or the string ["fixed"]; the badge then names that value. *)
Theorem discount_needs_descriptor price discount :
  hasDiscount (calculateDiscountedPrice price discount) = true ->
  exists p v,
    price = VNum p /\ truthy discount = true
    /\ prop discount "value" = VNum v /\ gt v zero = true
    /\ ((prop discount "type" = VStr "percent" /\ le v hundred = true
         /\ discountText (calculateDiscountedPrice price discount)
            = Some (PercentOff v))
        \/ (prop discount "type" = VStr "fixed"
            /\ discountText (calculateDiscountedPrice price discount)
               = Some (FixedOff v))).
Proof.
  unfold calculateDiscountedPrice.
  destruct price as [| | |p| | |]; try discriminate.
  destruct (isNaN p || lt p zero); [discriminate|].
  unfold apply_discount.
  destruct (prop discount "value") as [| | |v| | |];
    try (destruct (ge (round2 p) p); discriminate).
  destruct (truthy discount); cbn [andb];
    [|destruct (ge (round2 p) p); discriminate].
  destruct (gt v zero) eqn:H0; cbn [andb];
    [|destruct (ge (round2 p) p); discriminate].
  destruct (is_str (prop discount "type") "percent") eqn:Tp; cbn [andb].
  - apply is_str_spec in Tp. destruct (le v hundred) eqn:H100.
    + destruct (ge (round2 (percent_price p v)) p); [discriminate|].
      intros _. exists p, v. cbn [discountText]. tauto.
    + rewrite Tp. cbn [is_str String.eqb Ascii.eqb Bool.eqb].
      destruct (ge (round2 p) p); discriminate.
  - destruct (is_str (prop discount "type") "fixed") eqn:Tf;
      [|destruct (ge (round2 p) p); discriminate].
    apply is_str_spec in Tf.
    destruct (lt (fixed_price p v) p);
      [|destruct (ge (round2 p) p); discriminate].
    destruct (ge (round2 (fixed_price p v)) p); [discriminate|].
    intros _. exists p, v. cbn [discountText]. tauto.
Qed.

Lemma discount_needs_descriptor_witness :
  exists p v,
    VNum 100 = VNum p /\ truthy (percent 10) = true
    /\ prop (percent 10) "value" = VNum v /\ gt v zero = true
    /\ ((prop (percent 10) "type" = VStr "percent" /\ le v hundred = true
         /\ discountText (calculateDiscountedPrice (VNum 100) (percent 10))
            = Some (PercentOff v))
        \/ (prop (percent 10) "type" = VStr "fixed"
            /\ discountText (calculateDiscountedPrice (VNum 100) (percent 10))
               = Some (FixedOff v))).
Proof.
  apply (discount_needs_descriptor (VNum 100) (percent 10)).
  vm_compute. reflexivity.
Defined.

Lemma positive_SF p :
  gt p zero = true ->
  match Prim2SF p with
  | S754_finite false _ _ | S754_infinity false => True
  | _ => False
  end.
Proof.
  unfold gt, lt, zero. rewrite FloatAxioms.ltb_spec, Prim2SF_zero.
  destruct (Prim2SF p) as [s|s| |s m e]; try destruct s; simpl;
    trivial; discriminate.
Qed.

Lemma positive_not_le p : gt p zero = true -> ge zero p = false.
Proof.
  intros H. pose proof (positive_SF p H) as P.
  unfold ge, le, zero. rewrite FloatAxioms.leb_spec, Prim2SF_zero.
  destruct (Prim2SF p) as [s|s| |s m e]; try destruct s; simpl in *;
    tauto || reflexivity.
Qed.

Lemma round2_of_zero x s : Prim2SF x = S754_zero s -> round2 x = zero.
Proof. intros E. unfold round2. rewrite E. reflexivity. Qed.

(** X11.  A percent discount of 100 makes a finite price above 0 free:
    the final price is 0 and the badge says 100% off. *)
Theorem full_percent_is_free p discount :
  isFinite p = true -> gt p zero = true ->
  truthy discount = true ->
  prop discount "type" = VStr "percent" ->
  prop discount "value" = VNum 100 ->
  calculateDiscountedPrice (VNum p) discount
  = {| finalPrice := VNum 0; discountText := Some (PercentOff 100);
       originalPrice := VNum (round2 p); hasDiscount := true |}.
Proof.
  intros Hf Hp Ht Hty Hv. unfold calculateDiscountedPrice.
  rewrite (isFinite_not_nan p Hf).
  assert (lt p zero = false) as ->.
  { apply ge_not_lt. unfold ge. apply lt_le. exact Hp. }
  cbn [orb]. unfold apply_discount. rewrite Hv, Ht, Hty.
  change (gt 100 zero) with true. change (le 100 hundred) with true.
  cbn [andb is_str]. change ("percent" =? "percent")%string with true.
  cbn [andb]. cbv iota beta zeta.
  assert (round2 (percent_price p 100) = zero) as ->.
  { unfold percent_price.
    change (1 - 100 / 100)%float with 0%float.
    pose proof (positive_SF p Hp) as P.
    apply isFinite_spec in Hf.
    destruct (Prim2SF p) as [s|s| |s m e] eqn:E; try destruct s;
      simpl in P, Hf; try tauto.
    apply (round2_of_zero _ false). rewrite mul_spec, E, Prim2SF_zero.
    reflexivity. }
  rewrite (positive_not_le p Hp). reflexivity.
Qed.

Lemma full_percent_is_free_witness :
  calculateDiscountedPrice (VNum 49.99) (percent 100)
  = {| finalPrice := VNum 0; discountText := Some (PercentOff 100);
       originalPrice := VNum (round2 49.99); hasDiscount := true |}.
Proof.
  apply (full_percent_is_free 49.99 (percent 100)); vm_compute; reflexivity.
Defined.

Lemma zero_cases p : PrimFloat.eqb p 0 = true -> p = 0%float \/ p = (-0)%float.
Proof.
  rewrite FloatAxioms.eqb_spec, Prim2SF_zero. intros H.
  rewrite <- (SF2Prim_Prim2SF p).
  destruct (Prim2SF p) as [s|s| |s m e]; try destruct s; try discriminate;
    [right|left]; reflexivity.
Qed.

(** Nothing is below a price of zero. *)
Lemma max0_not_below_zero x p :
  PrimFloat.eqb p 0 = true -> lt (max0 x) p = false.
Proof.
  intros Hp. unfold max0.
  destruct (isNaN x).
  - destruct (zero_cases p Hp) as [-> | ->]; reflexivity.
  - destruct (gt x zero) eqn:G.
    + pose proof (positive_SF x G) as P. unfold lt.
      rewrite FloatAxioms.ltb_spec.
      destruct (zero_cases p Hp) as [-> | ->];
        destruct (Prim2SF x) as [s|s| |s m e]; try destruct s;
        simpl in P; try tauto; reflexivity.
    + destruct (zero_cases p Hp) as [-> | ->]; reflexivity.
Qed.

Lemma percent_factor_finite v :
  gt v zero = true -> le v hundred = true ->
  finite_or_zero (Prim2SF (1 - v / 100)%float).
Proof.
  intros H0 H100.
  rewrite sub_spec, div_spec, Prim2SF_one, Prim2SF_hundred.
  destruct (percent_value v H0 H100) as (m & e & -> & Hm).
  apply (SFsub_finite 2).
  - simpl. unfold mag. simpl. lia.
  - eapply below_weaken; [apply SFdiv_below|].
    + change (mag 7036874417766400 (-46)) with 7. change emax with 1024. lia.
    + change (mag 7036874417766400 (-46)) with 7. change emin with (-1074).
      lia.
  - change emax with 1024. lia.
Qed.

Lemma zero_times x y s :
  Prim2SF x = S754_zero s -> finite_or_zero (Prim2SF y) ->
  exists s', Prim2SF (x * y)%float = S754_zero s'.
Proof.
  intros Ex Hy. rewrite mul_spec, Ex.
  destruct (Prim2SF y) as [sy|sy| |sy m e]; simpl in Hy; try tauto;
    eexists; reflexivity.
Qed.

(** X12.  A price of zero is never discounted: whatever the descriptor,
    the result has the price itself as final price, no badge and
    [hasDiscount] [false]. *)
Theorem free_product_never_discounted p discount :
  PrimFloat.eqb p 0 = true ->
  calculateDiscountedPrice (VNum p) discount
  = {| finalPrice := VNum p; discountText := None;
       originalPrice := VNum 0; hasDiscount := false |}.
Proof.
  intros Hp. unfold calculateDiscountedPrice.
  assert (isNaN p || lt p zero = false) as ->
      by (destruct (zero_cases p Hp) as [-> | ->]; reflexivity).
  assert (round2 p = zero) as Rp
      by (destruct (zero_cases p Hp) as [-> | ->]; reflexivity).
  assert (ge zero p = true) as Gp
      by (destruct (zero_cases p Hp) as [-> | ->]; reflexivity).
  assert (round2 (fst (fst (apply_discount p discount))) = zero) as R.
  { unfold apply_discount.
    destruct (prop discount "value") as [| | |v| | |]; try exact Rp.
    destruct (truthy discount); cbn [andb]; [|exact Rp].
    destruct (gt v zero) eqn:H0; cbn [andb]; [|exact Rp].
    assert (forall (b : bool),
              round2 (fst (fst
                (if b
                 then let fp := fixed_price p v in
                      if lt fp p then (fp, Some (FixedOff v), true)
                      else (p, None, false)
                 else (p, @None label, false)))) = zero) as Fx.
    { intros [|]; [|exact Rp]. cbv zeta. unfold fixed_price.
      rewrite (max0_not_below_zero _ p Hp). exact Rp. }
    destruct (is_str (prop discount "type") "percent"); cbn [andb];
      [|apply Fx].
    destruct (le v hundred) eqn:H100; [|apply Fx].
    cbn [fst]. unfold percent_price.
    assert (exists s, Prim2SF p = S754_zero s) as [s Es]
        by (destruct (zero_cases p Hp) as [-> | ->]; eexists; reflexivity).
    destruct (zero_times p _ s Es (percent_factor_finite v H0 H100))
      as [s' E'].
    apply (round2_of_zero _ s' E'). }
  destruct (apply_discount p discount) as [[fp text] has].
  cbn [fst] in R. rewrite R, Gp, Rp. reflexivity.
Qed.

Lemma free_product_never_discounted_witness :
  calculateDiscountedPrice (VNum 0) (fixed 5)
  = {| finalPrice := VNum 0; discountText := None;
       originalPrice := VNum 0; hasDiscount := false |}.
Proof.
  apply (free_product_never_discounted 0 (fixed 5)). vm_compute. reflexivity.
Defined.

Lemma above_positive p v :
  gt p zero = true -> le p v = true -> gt v zero = true.
Proof.
  intros Hp. pose proof (positive_SF p Hp) as P. revert P.
  unfold gt, lt, le, zero.
  rewrite FloatAxioms.ltb_spec, FloatAxioms.leb_spec, Prim2SF_zero.
  destruct (Prim2SF p) as [sp|sp| |sp mp ep]; try destruct sp;
    simpl; try tauto; intros _;
    destruct (Prim2SF v) as [sv|sv| |sv mv ev]; try destruct sv;
    simpl; try discriminate; reflexivity.
Qed.

(** X13.  A fixed discount of at least the price makes a finite price
    above 0 free: the final price is 0, not a negative number, and the
    badge names the discount. *)
Theorem fixed_discount_covers_price p discount v :
  isFinite p = true -> gt p zero = true ->
  truthy discount = true ->
  prop discount "type" = VStr "fixed" ->
  prop discount "value" = VNum v ->
  le p v = true ->
  calculateDiscountedPrice (VNum p) discount
  = {| finalPrice := VNum 0; discountText := Some (FixedOff v);
       originalPrice := VNum (round2 p); hasDiscount := true |}.
Proof.
  intros Hf Hp Ht Hty Hv Hle. unfold calculateDiscountedPrice.
  rewrite (isFinite_not_nan p Hf).
  assert (lt p zero = false) as ->.
  { apply ge_not_lt. unfold ge. apply lt_le. exact Hp. }
  cbn [orb]. unfold apply_discount.
  rewrite Hv, Ht, Hty, (above_positive p v Hp Hle).
  cbn [andb is_str]. change ("fixed" =? "percent")%string with false.
  change ("fixed" =? "fixed")%string with true. cbn [andb].
  pose proof (sub_nonpos p v Hf Hp Hle) as N.
  assert (fixed_price p v = zero) as ->.
  { unfold fixed_price, max0.
    rewrite (proj2 (isNaN_false _) (nonpos_not_nan _ N)).
    rewrite (gt_zero_false _ N). reflexivity. }
  cbv zeta. change (lt zero p) with (gt p zero). rewrite Hp.
  change (round2 zero) with zero.
  rewrite (positive_not_le p Hp). reflexivity.
Qed.

Lemma fixed_discount_covers_price_witness :
  calculateDiscountedPrice (VNum 19.99) (fixed 25)
  = {| finalPrice := VNum 0; discountText := Some (FixedOff 25);
       originalPrice := VNum (round2 19.99); hasDiscount := true |}.
Proof.
  apply (fixed_discount_covers_price 19.99 (fixed 25) 25);
    vm_compute; reflexivity.
Defined.

(** X14.  The final price is never negative: for a finite price that is
    not below 0 and every descriptor, the final price is a number that is
    not below 0. *)
Theorem finalPrice_not_below_zero p discount :
  isFinite p = true -> ge p zero = true ->
  exists f,
    finalPrice (calculateDiscountedPrice (VNum p) discount) = VNum f
    /\ ge f zero = true.
Proof.
  intros Hf Hge. unfold calculateDiscountedPrice.
  rewrite (finite_nonneg_test p Hf Hge).
  assert (ge (round2 (fst (fst (apply_discount p discount)))) zero = true)
    as R.
  { apply ge_zero_spec, round2_nonneg. unfold apply_discount.
    pose proof (proj1 (ge_zero_spec p) Hge) as Np.
    destruct (prop discount "value") as [| | |v| | |]; try exact Np.
    destruct (truthy discount); cbn [andb]; [|exact Np].
    destruct (gt v zero) eqn:H0; cbn [andb]; [|exact Np].
    assert (forall (b : bool),
              nonneg (Prim2SF (fst (fst
                (if b
                 then let fp := fixed_price p v in
                      if lt fp p then (fp, Some (FixedOff v), true)
                      else (p, None, false)
                 else (p, @None label, false))))))
      as Fx.
    { intros [|]; [|exact Np]. cbv zeta.
      destruct (lt (fixed_price p v) p); [|exact Np].
      cbn [fst]. apply max0_nonneg. apply isNaN_false. rewrite sub_spec.
      apply SFsub_not_nan; [apply isFinite_spec; exact Hf|].
      apply isNaN_false. apply (gt_not_nan v zero H0). }
    destruct (is_str (prop discount "type") "percent"); cbn [andb];
      [|apply Fx].
    destruct (le v hundred) eqn:H100; [|apply Fx].
    cbn [fst]. unfold percent_price.
    apply mul_nonneg;
      [exact Hf|exact Np|apply percent_factor_finite; assumption
      |apply percent_factor_nonneg; assumption]. }
  destruct (apply_discount p discount) as [[fp text] has].
  cbn [fst] in R.
  destruct (ge (round2 fp) p); cbn [finalPrice]; eauto.
Qed.

Lemma finalPrice_not_below_zero_witness :
  exists f,
    finalPrice (calculateDiscountedPrice (VNum 19.99) (percent 99.5))
    = VNum f
    /\ ge f zero = true.
Proof.
  apply (finalPrice_not_below_zero 19.99 (percent 99.5));
    vm_compute; reflexivity.
Defined.

End DiscountFacts.

(** * The cart ledger: panel, reload and removal *)

Module LedgerFacts.

Import Cart CartSpec NumFacts CartFacts LedgerSpec.

Lemma get_app_out k (pre l : list (string * jsval)) :
  ~ In k (Obj.keys pre) -> Obj.get k (pre ++ l) = Obj.get k l.
Proof.
  induction pre as [|[k' v'] pre IH]; intros H; [reflexivity|].
  simpl in *. destruct (String.eqb_spec k k') as [->|_].
  - exfalso. apply H. left. reflexivity.
  - apply IH. intros HI. apply H. right. exact HI.
Qed.

Lemma delete_out k (l : list (string * jsval)) :
  ~ In k (Obj.keys l) -> Obj.delete k l = l.
Proof.
  induction l as [|[k' v'] l IH]; intros H; [reflexivity|].
  simpl in *. destruct (String.eqb_spec k k') as [->|_].
  - exfalso. apply H. left. reflexivity.
  - f_equal. apply IH. intros HI. apply H. right. exact HI.
Qed.

Lemma delete_app k (pre l : list (string * jsval)) :
  Obj.delete k (pre ++ l) = Obj.delete k pre ++ Obj.delete k l.
Proof.
  induction pre as [|[k' v'] pre IH]; [reflexivity|].
  simpl. destruct (String.eqb k k'); [exact IH|].
  simpl. f_equal. exact IH.
Qed.

Lemma keys_app (a b : list (string * jsval)) :
  Obj.keys (a ++ b) = Obj.keys a ++ Obj.keys b.
Proof. apply map_app. Qed.

(** The loop of [updateCartDisplay] over the entries not yet visited. *)
Lemma fold_visit l : forall pre t tot r,
  unique_keys (pre ++ l) ->
  fold_left visit (Obj.keys l) (pre ++ l, t, tot, r)
  = (pre ++ kept l, count_from t (kept l), total_from tot (kept l),
     r ++ Obj.keys (kept l)).
Proof.
  induction l as [|[k v] l IH]; intros pre t tot r U.
  - simpl. rewrite !app_nil_r. reflexivity.
  - unfold unique_keys in U. rewrite keys_app in U. simpl in U.
    pose proof (NoDup_remove_2 _ _ _ U) as Hk.
    assert (~ In k (Obj.keys pre)) as Hpre
      by (intros HI; apply Hk, in_or_app; left; exact HI).
    assert (~ In k (Obj.keys l)) as Hl
      by (intros HI; apply Hk, in_or_app; right; exact HI).
    cbn [Obj.keys map fst fold_left]. fold (Obj.keys l).
    assert (prop (VObj (pre ++ (k, v) :: l)) k = v) as P.
    { unfold prop. rewrite get_app_out by exact Hpre. simpl.
      rewrite String.eqb_refl. reflexivity. }
    unfold visit at 2. rewrite P.
    assert (kept ((k, v) :: l)
            = if invalid v then kept l else (k, v) :: kept l) as K.
    { unfold kept, valid. simpl. destruct (invalid v); reflexivity. }
    rewrite K. destruct (invalid v) eqn:I.
    + rewrite delete_app, (delete_out k pre Hpre). simpl.
      rewrite String.eqb_refl, (delete_out k l Hl).
      apply IH. unfold unique_keys. rewrite keys_app.
      apply NoDup_remove_1 in U. exact U.
    + destruct (valid_item v I) as (_ & q & p & Hq & Hp & _ & _).
      rewrite Hq, Hp.
      replace (pre ++ (k, v) :: l) with ((pre ++ [(k, v)]) ++ l)
        by (rewrite <- app_assoc; reflexivity).
      rewrite IH.
      * rewrite <- !app_assoc. cbn [app Obj.keys map fst fold_left snd].
        unfold count_from, total_from. cbn [fold_left snd].
        unfold quantity, line_total. rewrite Hq, Hp. reflexivity.
      * unfold unique_keys. rewrite <- app_assoc. simpl.
        rewrite keys_app. exact U.
Qed.

Lemma sweep_kept c :
  unique_keys c ->
  sweep c = (kept c, count_from zero (kept c), total_from zero (kept c),
             Obj.keys (kept c)).
Proof.
  intros U. unfold sweep. apply (fold_visit c [] zero zero [] U).
Qed.

(** X1.  What the cart panel shows.  On a page with the cart panel,
    [updateCartDisplay] leaves in the cart exactly the entries that pass
    its test, in their order; the panel lists those lines, its item count
    is the sum of their quantities and its total the sum of price times
    quantity (both summed from the first line on), and the empty-cart
    message is shown exactly when no line is left. *)
Theorem updateCartDisplay_summary st pnl :
  panel_ st = Some pnl -> unique_keys (cart st) ->
  cart (updateCartDisplay st) = kept (cart st)
  /\ panel_ (updateCartDisplay st) = Some (summary (kept (cart st))).
Proof.
  intros Hp U. unfold updateCartDisplay. rewrite Hp, (sweep_kept _ U).
  split; reflexivity.
Qed.

Lemma updateCartDisplay_summary_witness :
  cart (updateCartDisplay (fresh sample_cart)) = kept sample_cart
  /\ panel_ (updateCartDisplay (fresh sample_cart))
     = Some (summary (kept sample_cart)).
Proof.
  apply (updateCartDisplay_summary (fresh sample_cart) _ eq_refl).
  repeat constructor; simpl; intuition discriminate.
Defined.

Lemma kept_kept c : kept (kept c) = kept c.
Proof.
  unfold kept. induction c as [|kv c IH]; [reflexivity|].
  simpl. destruct (valid kv) eqn:V; simpl; rewrite ?V, IH; reflexivity.
Qed.

Lemma kept_keys_incl c k : In k (Obj.keys (kept c)) -> In k (Obj.keys c).
Proof.
  unfold Obj.keys, kept. rewrite !in_map_iff.
  intros (kv & E & HI). apply filter_In in HI. exists kv. tauto.
Qed.

Lemma kept_unique c : unique_keys c -> unique_keys (kept c).
Proof.
  unfold unique_keys, kept. induction c as [|[k v] c IH]; intros U.
  - constructor.
  - simpl in U. inversion U as [|? ? Hn U']; subst. simpl.
    destruct (valid (k, v)); [|exact (IH U')].
    simpl. constructor; [|exact (IH U')].
    intros HI. apply Hn. apply kept_keys_incl. exact HI.
Qed.

Lemma update_update key t l :
  Storage.update key t (Storage.update key t l) = Storage.update key t l.
Proof.
  induction l as [|[k t'] l IH]; simpl.
  - rewrite String.eqb_refl. reflexivity.
  - destruct (String.eqb key k) eqn:E; simpl.
    + rewrite String.eqb_refl. reflexivity.
    + rewrite E, IH. reflexivity.
Qed.

Lemma persist_persist c ls : persist c (persist c ls) = persist c ls.
Proof.
  unfold persist, setItem. destruct (full ls) eqn:F.
  - rewrite F. reflexivity.
  - cbn [full items]. rewrite update_update. reflexivity.
Qed.

(** X2.  Running [updateCartDisplay] a second time changes nothing:
    cart, storage, panel and alerts are as after the first run. *)
Theorem updateCartDisplay_idempotent st :
  unique_keys (cart st) ->
  updateCartDisplay (updateCartDisplay st) = updateCartDisplay st.
Proof.
  intros U. unfold updateCartDisplay at 2 3.
  destruct (panel_ st) as [pnl|] eqn:Hp.
  - rewrite (sweep_kept _ U). unfold updateCartDisplay. cbn [panel_ cart].
    rewrite (sweep_kept _ (kept_unique _ U)), kept_kept.
    cbn [localStorage alerts].
    rewrite persist_persist. reflexivity.
  - unfold updateCartDisplay. rewrite Hp. reflexivity.
Qed.

Lemma updateCartDisplay_idempotent_witness :
  updateCartDisplay (updateCartDisplay (fresh sample_cart))
  = updateCartDisplay (fresh sample_cart).
Proof.
  apply (updateCartDisplay_idempotent (fresh sample_cart)).
  repeat constructor; simpl; intuition discriminate.
Defined.

Lemma json_image_object l : json_image (VObj l) = VObj (image_fields l).
Proof. reflexivity. Qed.

Lemma kept_clean c : clean (kept c) = true.
Proof.
  unfold clean, kept. apply forallb_forall. intros kv HI.
  apply filter_In in HI. exact (proj2 HI).
Qed.

Lemma in_keys_get k (c : list (string * jsval)) :
  In k (Obj.keys c) -> exists item, Obj.get k c = Some item.
Proof.
  induction c as [|[k' v'] c IH]; simpl; [tauto|].
  intros H. destruct (String.eqb_spec k k') as [->|Hne]; [eauto|].
  destruct H as [H|H]; [congruence|]. exact (IH H).
Qed.

Lemma sweep_cart_clean ks c :
  clean c = true -> incl ks (Obj.keys c) -> sweep_cart ks c = c.
Proof.
  intros Hc. induction ks as [|k ks IH]; intros Hin; [reflexivity|].
  cbn [sweep_cart fold_left]. fold (sweep_cart ks).
  destruct (in_keys_get k c (Hin k (or_introl eq_refl))) as [item G].
  rewrite (prop_get _ _ _ G), (clean_get _ _ _ Hc G).
  apply IH. intros x Hx. apply Hin. right. exact Hx.
Qed.

(** The sweep leaves a cart alone whose entries all pass the test. *)
Lemma cleaned_clean c : clean c = true -> cleaned c = c.
Proof.
  intros Hc. rewrite cleaned_sweep_cart.
  apply sweep_cart_clean; [exact Hc|apply incl_refl].
Qed.

Lemma load_stored ls c :
  getItem ls KEY = Some (Json (VObj c)) -> load ls = (PlainCart c, ls).
Proof. intros G. unfold load. rewrite G. reflexivity. Qed.

(** X3.  A reload restores the cart.  When the storage took the write
    and the swept cart is printable, a page that starts from that storage
    has the same cart, the same storage and the same panel. *)
Theorem reload_restores_cart st pnl pnl' :
  panel_ st = Some pnl -> full (localStorage st) = false ->
  unique_keys (cart st) ->
  printable (cart (updateCartDisplay st)) ->
  startup (localStorage (updateCartDisplay st)) (Some pnl')
  = Some {| cart := cart (updateCartDisplay st);
            localStorage := localStorage (updateCartDisplay st);
            panel_ := panel_ (updateCartDisplay st);
            alerts := [] |}.
Proof.
  intros Hp F U J. unfold printable in J.
  destruct (updateCartDisplay_summary st pnl Hp U) as [Ec Epn].
  destruct (updateCartDisplay_cart st pnl Hp) as (Ec' & Els & _).
  rewrite <- Ec' in Els.
  remember (updateCartDisplay st) as st' eqn:Est. clear Est.
  assert (getItem (localStorage st') KEY = Some (Json (VObj (cart st'))))
    as G.
  { rewrite Els, persist_stored by exact F.
    unfold JSON_stringify. rewrite J. reflexivity. }
  unfold startup. rewrite (load_stored _ _ G). f_equal.
  unfold updateCartDisplay. cbn [panel_ cart localStorage alerts].
  rewrite Ec, (sweep_kept _ (kept_unique _ U)), kept_kept, Epn.
  f_equal. rewrite Els, Ec. apply persist_persist.
Qed.

Lemma reload_restores_cart_witness :
  startup (localStorage (updateCartDisplay (fresh sample_cart)))
    (panel_ (fresh []))
  = Some {| cart := cart (updateCartDisplay (fresh sample_cart));
            localStorage :=
              localStorage (updateCartDisplay (fresh sample_cart));
            panel_ := panel_ (updateCartDisplay (fresh sample_cart));
            alerts := [] |}.
Proof.
  apply (reload_restores_cart (fresh sample_cart) _ _ eq_refl eq_refl).
  - repeat constructor; simpl; intuition discriminate.
  - vm_compute. reflexivity.
Defined.

Lemma get_image_fields k v l :
  Obj.get k l = Some v -> v <> VUndef ->
  Obj.get k (image_fields l) = Some (json_image v).
Proof.
  intros G Hv. induction l as [|[k' x] l IH]; [discriminate|].
  simpl in G. destruct (String.eqb k k') eqn:E.
  - inversion G. subst x.
    destruct v; try congruence; simpl; rewrite E; reflexivity.
  - specialize (IH G).
    destruct x; simpl; rewrite ?E; exact IH.
Qed.

Lemma unprintable_image v : unprintable v = true -> json_image v = VNull.
Proof.
  destruct v; try discriminate. simpl. intros H.
  apply negb_true_iff in H. rewrite H. reflexivity.
Qed.

Lemma invalid_image item :
  unprintable (prop item "price") = true
  \/ unprintable (prop item "quantity") = true ->
  invalid (json_image item) = true.
Proof.
  intros H.
  destruct item as [| | | | |fields|]; try (destruct H; discriminate).
  rewrite json_image_object. unfold invalid. cbn [truthy negb orb].
  unfold prop in *.
  destruct H as [H|H].
  - destruct (Obj.get "price" fields) as [v|] eqn:G; [|discriminate].
    rewrite (get_image_fields _ _ _ G) by (intros ->; discriminate).
    rewrite (unprintable_image _ H).
    destruct (Obj.get "quantity" (image_fields fields)) as [[]|]; reflexivity.
  - destruct (Obj.get "quantity" fields) as [v|] eqn:G; [|discriminate].
    rewrite (get_image_fields _ _ _ G) by (intros ->; discriminate).
    rewrite (unprintable_image _ H). reflexivity.
Qed.

(** X4.  A cart line whose price or quantity is not finite (an infinite
    price passes [addToCart]) does not survive a reload: JSON writes the
    number as [null], and the sweep of the next page start drops the
    line. *)
Theorem unprintable_line_lost_on_reload st pnl pnl' id item :
  panel_ st = Some pnl -> full (localStorage st) = false ->
  Obj.get id (cart (updateCartDisplay st)) = Some item ->
  unprintable (prop item "price") = true
  \/ unprintable (prop item "quantity") = true ->
  exists st',
    startup (localStorage (updateCartDisplay st)) (Some pnl') = Some st'
    /\ Obj.get id (cart st') = None.
Proof.
  intros Hp F G H.
  destruct (updateCartDisplay_cart st pnl Hp) as (Ec & Els & _).
  unfold startup.
  assert (getItem (localStorage (updateCartDisplay st)) KEY
          = Some (Json (VObj (image_fields (cart (updateCartDisplay st))))))
    as GS.
  { rewrite Els, Ec, persist_stored by exact F.
    unfold JSON_stringify. rewrite json_image_object. reflexivity. }
  rewrite (load_stored _ _ GS). eexists. split; [reflexivity|].
  assert (item <> VUndef) as Hne.
  { intros ->. destruct H; discriminate. }
  pose proof (get_image_fields _ _ _ G Hne) as GI.
  destruct (Obj.get id (cart (updateCartDisplay _))) as [x|] eqn:GX at 1;
    [|reflexivity].
  exfalso.
  match type of GX with
  | Obj.get id (cart (updateCartDisplay ?s)) = _ =>
      destruct (updateCartDisplay_cart s pnl' eq_refl) as (Ec2 & _)
  end.
  rewrite Ec2 in GX. cbn [cart] in GX. apply cleaned_get in GX.
  destruct GX as [GX IX]. rewrite GI in GX. inversion GX. subst x.
  rewrite (invalid_image _ H) in IX. discriminate.
Qed.

Lemma unprintable_line_lost_on_reload_witness :
  exists st',
    startup
      (localStorage
         (updateCartDisplay (fresh [("p1", new_line "Widget" Infinity)])))
      (panel_ (fresh [])) = Some st'
    /\ Obj.get "p1" (cart st') = None.
Proof.
  apply (unprintable_line_lost_on_reload
           (fresh [("p1", new_line "Widget" Infinity)]) _ _ "p1"
           (new_line "Widget" Infinity) eq_refl eq_refl).
  - vm_compute. reflexivity.
  - left. vm_compute. reflexivity.
Defined.

Lemma delete_set k v c :
  Obj.get k c = None -> Obj.delete k (Obj.set k v c) = c.
Proof.
  induction c as [|[k' v'] c IH]; simpl.
  - rewrite String.eqb_refl. reflexivity.
  - destruct (String.eqb k k') eqn:E; [discriminate|].
    intros G. simpl. rewrite E, (IH G). reflexivity.
Qed.

Lemma clean_set k v c :
  clean c = true -> invalid v = false -> clean (Obj.set k v c) = true.
Proof.
  unfold clean. intros Hc Hv. induction c as [|[k' v'] c IH]; simpl.
  - rewrite Hv. reflexivity.
  - simpl in Hc. apply andb_true_iff in Hc. destruct Hc as [H1 H2].
    destruct (String.eqb k k'); simpl.
    + rewrite Hv, H2. reflexivity.
    + rewrite H1, (IH H2). reflexivity.
Qed.

Lemma updateCartDisplay_clean st :
  clean (cart st) = true -> cart (updateCartDisplay st) = cart st.
Proof.
  intros Hc. unfold updateCartDisplay.
  destruct (panel_ st); [|reflexivity].
  pose proof (cleaned_clean _ Hc) as E. unfold cleaned in E.
  destruct (sweep (cart st)) as [[[c a] b] r]. exact E.
Qed.

Lemma rejects_id id name productPrice :
  rejects (Some id) (VStr name) productPrice = false ->
  id <> "" /\ isNaN (parseFloat productPrice) = false.
Proof.
  unfold rejects. intros R.
  repeat (apply orb_false_elim in R; destruct R as [R ?]).
  split; [|assumption]. intros ->. discriminate.
Qed.

(** X5.  The remove button of a cart line.  Without an identifier, or
    for an identifier that reads as no entry, nothing changes.  Otherwise
    the entry is gone from the cart, every other entry that passes the
    test of the sweep stays as it is, and no alert is raised. *)
Theorem removeItem_spec id st :
  (id = "" \/ has_entry (cart st) id = false -> removeItem id st = st)
  /\ (id <> "" -> has_entry (cart st) id = true ->
      Obj.get id (cart (removeItem id st)) = None
      /\ (forall k item,
            k <> id -> Obj.get k (cart st) = Some item ->
            invalid item = false ->
            Obj.get k (cart (removeItem id st)) = Some item)
      /\ alerts (removeItem id st) = alerts st).
Proof.
  split.
  - intros [->|H]; unfold removeItem; [reflexivity|].
    rewrite H, andb_false_r. reflexivity.
  - intros Hid H. unfold removeItem.
    apply String.eqb_neq in Hid. rewrite Hid, H. cbn [negb andb].
    split; [|split].
    + match goal with
      | |- Obj.get id (cart (updateCartDisplay ?s)) = None =>
          destruct (Obj.get id (cart (updateCartDisplay s))) as [x|] eqn:G;
            [|reflexivity];
          unfold updateCartDisplay in G; cbn [panel_ cart] in G;
          destruct (panel_ st)
      end.
      * match type of G with
        | context [sweep ?c] =>
            pose proof (cleaned_get c id x) as CG; unfold cleaned in CG;
              destruct (sweep c) as [[[c' a] b] r]
        end.
        cbn [cart fst] in *. apply CG in G. destruct G as [G _].
        rewrite get_delete_eq in G. discriminate.
      * cbn [cart] in G. rewrite get_delete_eq in G. discriminate.
    + intros k item Hk G I. apply updateCartDisplay_keeps; [|exact I].
      cbn [cart]. rewrite get_delete_ne by congruence. exact G.
    + rewrite updateCartDisplay_alerts. reflexivity.
Qed.

(** On the sample cart the remove button of the first line leaves the
    second line, and a button without a line does nothing. *)
Example remove_from_sample_cart :
  let st := updateCartDisplay (fresh sample_cart) in
  Obj.keys (cart st) = ["p1"; "p2"]
  /\ Obj.keys (cart (removeItem "p1" st)) = ["p2"]
  /\ removeItem "p7" st = st.
Proof. vm_compute. repeat split; reflexivity. Qed.

(** X6.  Adding a product that is not in the cart and removing it again
    gives back the cart, when all entries of the cart pass the test of the
    sweep. *)
Theorem add_then_remove id name productPrice st :
  rejects (Some id) (VStr name) productPrice = false ->
  Obj.plain id = true -> Obj.get id (cart st) = None ->
  clean (cart st) = true ->
  cart (removeItem id (addToCart (Some id) (VStr name) productPrice st))
  = cart st.
Proof.
  intros R Hplain G Hc. destruct (rejects_id _ _ _ R) as [Hid Hn].
  rewrite (addToCart_accepted id name productPrice st R).
  assert (has_entry (cart st) id = false) as ->
      by (unfold has_entry; rewrite G, Hplain; reflexivity).
  set (c1 := Obj.set id (new_line name (parseFloat productPrice)) (cart st)).
  assert (clean c1 = true) as Hc1
      by (apply clean_set; [exact Hc|apply new_line_valid; exact Hn]).
  set (s1 := updateCartDisplay _).
  assert (cart s1 = c1) as E1 by (apply updateCartDisplay_clean; exact Hc1).
  unfold removeItem. apply String.eqb_neq in Hid. rewrite Hid. cbn [negb andb].
  assert (has_entry (cart s1) id = true) as ->.
  { unfold has_entry. rewrite E1. unfold c1. rewrite get_set_eq. reflexivity. }
  rewrite updateCartDisplay_clean; cbn [cart]; rewrite E1; unfold c1;
    rewrite delete_set by exact G; [reflexivity|exact Hc].
Qed.

Lemma add_then_remove_witness :
  cart (removeItem "p9"
          (addToCart (Some "p9") (VStr "Lamp") (PStr "42.50")
             (fresh [("p1", new_line "Widget" 19.99)])))
  = [("p1", new_line "Widget" 19.99)].
Proof.
  apply (add_then_remove "p9" "Lamp" (PStr "42.50")
           (fresh [("p1", new_line "Widget" 19.99)]));
    vm_compute; reflexivity.
Defined.

Lemma add_existing id name productPrice st fields q p :
  rejects (Some id) (VStr name) productPrice = false ->
  Obj.get id (cart st) = Some (VObj fields) ->
  prop (VObj fields) "quantity" = VNum q ->
  prop (VObj fields) "price" = VNum p ->
  le q zero = false -> isNaN p = false ->
  Obj.get id (cart (addToCart (Some id) (VStr name) productPrice st))
  = Some (with_quantity (incr q) fields).
Proof.
  intros R G Hq Hp Lq Np.
  rewrite (addToCart_accepted id name productPrice st R).
  destruct (bump_valid fields q p Hq Hp Lq Np) as [B V].
  apply updateCartDisplay_keeps; [|exact V].
  cbn [cart]. unfold has_entry. rewrite G. cbn [truthy].
  rewrite B. apply get_set_eq.
Qed.

Lemma add_more_line id name price calls : forall st q,
  forallb (accepted id) calls = true ->
  isNaN price = false -> le q zero = false ->
  Obj.get id (cart st)
  = Some (VObj [("name", VStr name); ("price", VNum price);
                ("quantity", VNum q)]) ->
  Obj.get id (cart (add_more id calls st))
  = Some (VObj [("name", VStr name); ("price", VNum price);
                ("quantity", VNum (Nat.iter (List.length calls) incr q))]).
Proof.
  induction calls as [|[n pr] calls IH]; intros st q A Np Lq G.
  - exact G.
  - cbn [forallb] in A. apply andb_true_iff in A. destruct A as [A1 A2].
    unfold accepted in A1. apply negb_true_iff in A1. cbn [fst snd] in A1.
    cbn [add_more fold_left fst snd List.length].
    fold (add_more id calls).
    rewrite Nat.iter_succ_r.
    apply IH; [exact A2|exact Np|apply incr_valid; exact Lq|].
    rewrite (add_existing id n pr st _ q price A1 G eq_refl eq_refl Lq Np).
    reflexivity.
Qed.

(** X7.  After a first accepted [addToCart] for a product that is not in
    the cart, every further accepted call for the same identifier only
    counts: the line keeps the name and the price of the first call,
    whatever names and prices the later calls give, and its quantity is 1
    incremented once per later call. *)
Theorem repeated_adds id name productPrice calls st :
  rejects (Some id) (VStr name) productPrice = false ->
  Obj.plain id = true -> Obj.get id (cart st) = None ->
  forallb (accepted id) calls = true ->
  Obj.get id
    (cart (add_more id calls
             (addToCart (Some id) (VStr name) productPrice st)))
  = Some (VObj [("name", VStr name);
                ("price", VNum (parseFloat productPrice));
                ("quantity", VNum (Nat.iter (List.length calls) incr one))]).
Proof.
  intros R Hplain G A. destruct (rejects_id _ _ _ R) as [_ Hn].
  apply add_more_line; [exact A|exact Hn|reflexivity|].
  rewrite (addToCart_accepted id name productPrice st R).
  apply updateCartDisplay_keeps; [|apply new_line_valid; exact Hn].
  cbn [cart]. unfold has_entry. rewrite G, Hplain. apply get_set_eq.
Qed.

Lemma repeated_adds_witness :
  Obj.get "p1"
    (cart (add_more "p1" [("Gadget", PStr "5"); ("Widget", PNum 7)]
             (addToCart (Some "p1") (VStr "Widget") (PStr "19.99")
                (fresh []))))
  = Some (VObj [("name", VStr "Widget");
                ("price", VNum (parseFloat (PStr "19.99")));
                ("quantity", VNum (Nat.iter 2 incr one))]).
Proof.
  apply (repeated_adds "p1" "Widget" (PStr "19.99")
           [("Gadget", PStr "5"); ("Widget", PNum 7)] (fresh []));
    vm_compute; reflexivity.
Defined.

Lemma parse_no_number s : no_number s = true -> ParseFloat.parse s = NaN.
Proof.
  destruct s as [|c r]; [reflexivity|].
  unfold no_number. intros H. apply negb_true_iff in H.
  destruct c as [[] [] [] [] [] [] [] []];
    first [ discriminate H
          | destruct r as [|c2 [|c3 r]]; reflexivity ].
Qed.

(** X8.  A price text that is empty or starts with a byte that cannot
    start a number (such as the dollar sign of ["$19.99"]) is rejected:
    the call raises the alert and does nothing else. *)
Theorem addToCart_rejects_text productId productName s st :
  no_number s = true ->
  addToCart productId productName (PStr s) st = alerted st.
Proof.
  intros H. apply addToCart_rejected. unfold rejects.
  destruct productId as [id|]; [|reflexivity].
  destruct productName as [| | | |name| |]; try reflexivity.
  cbn [parseFloat]. rewrite (parse_no_number s H).
  rewrite !orb_true_r. reflexivity.
Qed.

Lemma addToCart_rejects_text_witness :
  addToCart (Some "p1") (VStr "Widget") (PStr "$19.99") (fresh [])
  = alerted (fresh []).
Proof.
  apply (addToCart_rejects_text (Some "p1") (VStr "Widget") "$19.99"
           (fresh [])).
  reflexivity.
Defined.

End LedgerFacts.

(** * The sliders of the product page *)

Module DetailPageFacts.

Import RecentlyViewed RecentlyViewedSpec RecentlyViewedFacts.
Import DetailPage DetailPageSpec.
Local Open Scope nat_scope.

Lemma option_map_some (A B : Type) (f : A -> B) o y :
  option_map f o = Some y -> exists x, o = Some x /\ y = f x.
Proof.
  destruct o as [x|]; simpl; [|discriminate].
  intros H. exists x. split; congruence.
Qed.

Lemma firstn_incl (A : Type) n (l : list A) x :
  In x (firstn n l) -> In x l.
Proof.
  revert l. induction n as [|n IH]; intros [|a l]; simpl; try tauto.
  intros [H|H]; [left; exact H|right; exact (IH l H)].
Qed.

Lemma filterBy_spec f products l :
  filterBy f products = Some l ->
  forall p, In p l <-> In p products /\ f p = Some true.
Proof.
  revert l. induction products as [|q rest IH]; intros l H p.
  - inversion H. simpl. tauto.
  - simpl in H. destruct (f q) as [b|] eqn:F; [|discriminate].
    destruct (filterBy f rest) as [l'|]; [|discriminate].
    inversion H. subst l. specialize (IH l' eq_refl p).
    destruct b; simpl; rewrite IH; split.
    + intros [->|[H1 H2]]; auto.
    + intros [[->|H1] H2]; auto.
    + intros [H1 H2]; auto.
    + intros [[->|H1] H2]; [congruence|auto].
Qed.

Lemma filterBy_none f products :
  filterBy f products = None <-> exists p, In p products /\ f p = None.
Proof.
  induction products as [|q rest IH]; simpl.
  - split; [discriminate|]. intros (p & [] & _).
  - destruct (f q) as [b|] eqn:F.
    + destruct (filterBy f rest) as [l|].
      * split; [discriminate|]. intros (p & [->|H] & Hp); [congruence|].
        assert (@None (list jsval) = None) as E by reflexivity.
        destruct IH as [_ IH]. discriminate IH. eauto.
      * split; [|reflexivity]. intros _.
        destruct IH as [IH _]. destruct (IH eq_refl) as (p & H & Hp).
        eauto.
    + split; [|reflexivity]. intros _. exists q. auto.
Qed.

Lemma member_none p k : member p k = None <-> nullish p = true.
Proof. destruct p; simpl; split; congruence. Qed.

Lemma sameCategory_none category productId p :
  sameCategory category productId p = None <-> nullish p = true.
Proof.
  unfold sameCategory. destruct p; simpl; split; congruence.
Qed.

Lemma isTrending_none productId p :
  isTrending productId p = None <-> nullish p = true.
Proof.
  unfold isTrending. destruct p; simpl; split; congruence.
Qed.

Lemma strict_eq_string v s : strict_eq v (VStr s) = true <-> v = VStr s.
Proof.
  destruct v; simpl; try (split; [discriminate|congruence]).
  rewrite String.eqb_eq. split; congruence.
Qed.

Lemma member_some p k v : member p k = Some v -> v = prop p k.
Proof. destruct p; simpl; congruence. Qed.

Lemma sameCategory_true category productId p :
  sameCategory category productId p = Some true ->
  strict_eq (prop p "category") category = true
  /\ prop p "id" <> VStr productId.
Proof.
  unfold sameCategory.
  destruct (member p "category") as [c|] eqn:M1; [|discriminate].
  destruct (member p "id") as [i|] eqn:M2; [|discriminate].
  apply member_some in M1, M2. subst c i.
  intros H. injection H as H1. apply andb_prop in H1.
  destruct H1 as [H1 H2]. apply negb_true_iff in H2.
  split; [exact H1|]. intros E. apply strict_eq_string in E. congruence.
Qed.

Lemma isTrending_true productId p :
  isTrending productId p = Some true ->
  prop p "trending" = VBool true /\ prop p "id" <> VStr productId.
Proof.
  unfold isTrending.
  destruct (member p "trending") as [c|] eqn:M1; [|discriminate].
  destruct (member p "id") as [i|] eqn:M2; [|discriminate].
  apply member_some in M1, M2. subst c i.
  intros H. injection H as H1. apply andb_prop in H1.
  destruct H1 as [H1 H2]. apply negb_true_iff in H2.
  split; [|intros E; apply strict_eq_string in E; congruence].
  destruct (prop p "trending") as [| |[|]| | | |]; try discriminate.
  reflexivity.
Qed.

Lemma no_null_spec products :
  no_null products = true
  <-> ~ exists p, In p products /\ nullish p = true.
Proof.
  unfold no_null. rewrite forallb_forall. split.
  - intros H (p & HI & N). specialize (H p HI). rewrite N in H.
    discriminate.
  - intros H p HI. destruct (nullish p) eqn:N; [|reflexivity].
    exfalso. apply H. eauto.
Qed.

(** X15.  The "recommended" and the "trending" slider of a product page.
    Each list can be built exactly when the product list has no [null]
    element (otherwise reading a property throws, and [loadProductData]
    ends in its [catch]).  Each has at most 8 products, all from the
    product list and none with the identifier of the product on the page;
    a recommended product has the category of that product, a trending
    one has [trending] set to [true]. *)
Theorem related_sliders allProducts category productId :
  (no_null allProducts = true <->
   recommended allProducts category productId <> None)
  /\ (no_null allProducts = true <->
      trending allProducts productId <> None)
  /\ (forall l p,
        recommended allProducts category productId = Some l ->
        List.length l <= 8
        /\ (In p l ->
            In p allProducts
            /\ strict_eq (prop p "category") category = true
            /\ prop p "id" <> VStr productId))
  /\ (forall l p,
        trending allProducts productId = Some l ->
        List.length l <= 8
        /\ (In p l ->
            In p allProducts
            /\ prop p "trending" = VBool true
            /\ prop p "id" <> VStr productId)).
Proof.
  assert (forall f,
            (forall p, f p = None <-> nullish p = true) ->
            (no_null allProducts = true
             <-> option_map (firstn 8) (filterBy f allProducts) <> None))
    as N.
  { intros f Hf. rewrite no_null_spec.
    destruct (filterBy f allProducts) as [l|] eqn:F; simpl.
    - split; [discriminate|]. intros _ (p & HI & Hn).
      assert (filterBy f allProducts = None) as E.
      { apply filterBy_none. exists p. split; [exact HI|].
        apply Hf. exact Hn. }
      congruence.
    - split; [|congruence]. intros H. exfalso. apply H.
      apply filterBy_none in F. destruct F as (p & HI & Hp).
      exists p. split; [exact HI|]. apply Hf. exact Hp. }
  split; [apply N, sameCategory_none|].
  split; [apply N, isTrending_none|].
  split; intros l p H.
  - destruct (option_map_some _ _ _ _ _ H) as (l' & F & ->).
    split; [apply firstn_le_length|].
    intros HI. apply firstn_incl in HI.
    apply (filterBy_spec _ _ _ F) in HI. destruct HI as [HI Hp].
    split; [exact HI|]. apply sameCategory_true. exact Hp.
  - destruct (option_map_some _ _ _ _ _ H) as (l' & F & ->).
    split; [apply firstn_le_length|].
    intros HI. apply firstn_incl in HI.
    apply (filterBy_spec _ _ _ F) in HI. destruct HI as [HI Hp].
    split; [exact HI|]. apply isTrending_true. exact Hp.
Qed.

(** On the sample list, for the page of [p1]: the other product of its
    category is recommended, the trending one is trending, and a [null]
    in the list stops both. *)
Example sliders_of_sample :
  recommended sample_products (VStr "Home") "p1"
  = Some [VObj [("id", VStr "p2"); ("category", VStr "Home")]]
  /\ trending sample_products "p1"
     = Some [VObj [("id", VStr "p3"); ("trending", VBool true)]]
  /\ recommended (VNull :: sample_products) (VStr "Home") "p1" = None
  /\ trending (VNull :: sample_products) "p1" = None.
Proof. vm_compute. repeat split; reflexivity. Qed.

Lemma findById_total id products :
  no_null products = true ->
  exists p,
    findById id products = Some p
    /\ (p = VUndef
        \/ (In p products /\ strict_eq (prop p "id") id = true)).
Proof.
  unfold no_null. induction products as [|q rest IH]; simpl; intros H.
  - exists VUndef. auto.
  - apply andb_prop in H. destruct H as [Hq Hr].
    destruct (member q "id") as [x|] eqn:M.
    + apply member_some in M. subst x.
      destruct (strict_eq (prop q "id") id) eqn:E.
      * exists q. split; [reflexivity|]. right. auto.
      * destruct (IH Hr) as (p & F & Hp). exists p. split; [exact F|].
        destruct Hp as [Hp|[Hp1 Hp2]]; auto.
    + apply member_none in M. rewrite M in Hq. discriminate.
Qed.

Lemma mapBy_total (f : jsval -> option jsval) (P : jsval -> jsval -> Prop)
    ids :
  (forall x, In x ids -> exists y, f x = Some y /\ P x y) ->
  exists l,
    mapBy f ids = Some l /\ List.length l = List.length ids
    /\ forall y, In y l -> exists x, In x ids /\ P x y.
Proof.
  induction ids as [|x rest IH]; intros H.
  - exists []. simpl. repeat split; auto. intros y [].
  - destruct (H x (or_introl eq_refl)) as (y & Fy & Py).
    destruct IH as (l & Fl & Ll & Hl).
    { intros z Hz. apply H. right. exact Hz. }
    exists (y :: l). simpl. rewrite Fy, Fl, Ll. repeat split; auto.
    intros z [<-|Hz]; [exists x; auto|].
    destruct (Hl z Hz) as (x' & Hx' & Pz). exists x'. auto.
Qed.

Lemma filter_all_true (A : Type) (f : A -> bool) l :
  (forall x, In x l -> f x = true) -> filter f l = l.
Proof.
  induction l as [|a l IH]; intros H; [reflexivity|].
  simpl. rewrite (H a (or_introl eq_refl)). f_equal.
  apply IH. intros x Hx. apply H. right. exact Hx.
Qed.

(** The identifiers that the slider looks up after a view of
    [productId]: the seven most recent other ones. *)
Lemma recent_after_view productId ids :
  filter (fun x => negb (String.eqb x productId)) (record productId ids)
  = firstn 7 (filter (fun x => negb (String.eqb x productId)) ids).
Proof.
  unfold record, MAX_RECENTLY_VIEWED.
  set (F := filter _ ids).
  change (firstn 8 (productId :: F)) with (productId :: firstn 7 F).
  cbn [filter]. rewrite String.eqb_refl. cbn [negb].
  apply filter_all_true. intros x Hx. apply firstn_incl in Hx.
  unfold F in Hx. apply filter_In in Hx. exact (proj2 Hx).
Qed.

(** X16.  After the product page has recorded its own product, the
    "recently viewed" slider gets at most 7 products, each from the
    product list and each with an identifier that was viewed before and
    is not the one of the product on the page. *)
Theorem recently_viewed_slider ss ids productId allProducts :
  holds ss ids -> productId <> "" -> full ss = false ->
  no_null allProducts = true ->
  exists l,
    recentlyViewedProducts (addRecentlyViewedId productId ss) allProducts
      productId = Some l
    /\ List.length l <= 7
    /\ forall p,
         In p l ->
         In p allProducts
         /\ exists id,
              In id ids /\ id <> productId /\ prop p "id" = VStr id.
Proof.
  intros Hh Hid Hfull Hnull.
  pose proof (addRecentlyViewedId_holds ss ids productId Hh Hid Hfull) as H'.
  unfold holds in H'. unfold recentlyViewedProducts. rewrite H'.
  rewrite filter_differs, recent_after_view.
  set (R := firstn 7 (filter _ ids)).
  assert (List.length R <= 7) as LR by apply firstn_le_length.
  assert (forall id, In id R -> In id ids /\ id <> productId) as HR.
  { intros id Hx. apply firstn_incl in Hx. apply filter_In in Hx.
    destruct Hx as [H1 H2]. split; [exact H1|].
    apply negb_true_iff, String.eqb_neq in H2. exact H2. }
  destruct (mapBy_total (fun id => findById id allProducts)
              (fun x y => y = VUndef
                          \/ (In y allProducts
                              /\ strict_eq (prop y "id") x = true))
              (map VStr R)) as (l & Fl & Ll & Hl).
  { intros x _. apply findById_total. exact Hnull. }
  assert (forall p,
            In p (filter (fun p => negb (is_undefined p)) l) ->
            In p allProducts
            /\ exists id,
                 In id ids /\ id <> productId /\ prop p "id" = VStr id)
    as Hp.
  { intros p HI. apply filter_In in HI. destruct HI as [HI Hu].
    destruct (Hl p HI) as (x & Hx & [->|[H1 H2]]); [discriminate|].
    split; [exact H1|]. apply in_map_iff in Hx.
    destruct Hx as (id & <- & Hx). exists id.
    destruct (HR id Hx) as [H3 H4]. repeat split; auto.
    apply strict_eq_string. exact H2. }
  destruct (map VStr R) as [|x xs] eqn:EM.
  - exists []. split; [reflexivity|]. split; [simpl; lia|]. intros p [].
  - rewrite Fl. cbn [option_map]. eexists. split; [reflexivity|].
    split; [|exact Hp].
    eapply Nat.le_trans; [apply filter_length_le|].
    rewrite Ll, <- EM, length_map. exact LR.
Qed.

Lemma recently_viewed_slider_witness :
  exists l,
    recentlyViewedProducts (addRecentlyViewedId "p2" three_viewed)
      sample_products "p2" = Some l
    /\ List.length l <= 7
    /\ forall p,
         In p l ->
         In p sample_products
         /\ exists id,
              In id ["p3"; "p2"; "p1"] /\ id <> "p2"
              /\ prop p "id" = VStr id.
Proof.
  apply (recently_viewed_slider three_viewed ["p3"; "p2"; "p1"] "p2"
           sample_products); try reflexivity.
  discriminate.
Defined.

(** X17.  Once the session storage holds, under the key of the
    tracker, a JSON value that is no array ([null], a number, a string,
    an object), the tracker is stuck: no view changes the storage any
    more, and the list for the "recently viewed" slider cannot be built
    (the error ends [loadProductData] in its [catch]). *)
Theorem addRecentlyViewedId_stuck ss v views :
  getItem ss RECENTLY_VIEWED_KEY = Some (Json v) ->
  (forall items, v <> VArr items) ->
  fold_left (fun s id => addRecentlyViewedId id s) views ss = ss
  /\ forall allProducts productId,
       recentlyViewedProducts ss allProducts productId = None.
Proof.
  intros G Hv. split.
  - induction views as [|id views IH]; [reflexivity|].
    cbn [fold_left].
    assert (addRecentlyViewedId id ss = ss) as ->; [|exact IH].
    unfold addRecentlyViewedId, getRecentlyViewedIds. rewrite G.
    destruct (String.eqb id ""); [reflexivity|].
    destruct v; try reflexivity. exfalso. exact (Hv _ eq_refl).
  - intros allProducts productId.
    unfold recentlyViewedProducts, getRecentlyViewedIds. rewrite G.
    destruct v; try reflexivity. exfalso. exact (Hv _ eq_refl).
Qed.

Lemma addRecentlyViewedId_stuck_witness :
  fold_left (fun s id => addRecentlyViewedId id s) ["p1"; "p2"] null_viewed
  = null_viewed
  /\ forall allProducts productId,
       recentlyViewedProducts null_viewed allProducts productId = None.
Proof.
  apply (addRecentlyViewedId_stuck null_viewed VNull ["p1"; "p2"]).
  - reflexivity.
  - discriminate.
Defined.

End DetailPageFacts.

(** * Debouncing *)

Module DebounceFacts.

Local Open Scope nat_scope.

Import Debounce DebounceSpec.

Section Facts.

Variable A : Type.
Variable delay : nat.

Lemma clear_tracked (w : world A) :
  tracked w -> clearTimeout (timeoutId w) (queue w) = [].
Proof.
  unfold tracked, clearTimeout.
  destruct (queue w) as [|t [|t' q]]; intros H.
  - destruct (timeoutId w); reflexivity.
  - rewrite H. simpl. rewrite Nat.eqb_refl. reflexivity.
  - destruct H.
Qed.

(** After a call one timer waits, due [delay] after the call. *)
Lemma invoke_tracked (w : world A) a :
  tracked w ->
  queue (invoke delay a w)
  = [{| timer_id := next_id w; due := clock w + delay; args := a |}]
  /\ calls (invoke delay a w) = calls w
  /\ clock (invoke delay a w) = clock w.
Proof.
  intros H. unfold invoke. cbn [queue calls clock].
  rewrite (clear_tracked w H). auto.
Qed.

Lemma tracked_step (w : world A) ev :
  tracked w -> tracked (step delay w ev).
Proof.
  intros H. destruct ev as [a|t]; cbn [step].
  - unfold tracked. destruct (invoke_tracked w a H) as (-> & _ & _).
    reflexivity.
  - unfold tracked in *. unfold elapse. cbn [queue timeoutId].
    destruct (queue w) as [|x [|y q]]; try tauto.
    cbn [filter]. destruct (is_due (clock w + t) x); simpl; auto.
Qed.

Lemma tracked_run evs : forall w : world A,
  tracked w -> tracked (run delay evs w).
Proof.
  induction evs as [|ev evs IH]; intros w H; [exact H|].
  simpl. apply IH, tracked_step, H.
Qed.

Lemma tracked_start : tracked (@start A).
Proof. exact I. Qed.

Lemma burst_calls l : forall (w : world A),
  tracked w ->
  Forall (fun at_ => snd at_ < delay) l ->
  calls (run delay (burst l) w) = calls w
  /\ tracked (run delay (burst l) w).
Proof.
  induction l as [|[a t] l IH]; intros w H Hl.
  - simpl. auto.
  - inversion Hl as [|? ? Ht Hl']; subst. cbn [snd] in Ht.
    change (run delay (burst ((a, t) :: l)) w)
      with (run delay (burst l) (elapse t (invoke delay a w))).
    destruct (invoke_tracked w a H) as (Q & C & K).
    assert (tracked (elapse t (invoke delay a w))) as H'.
    { apply (tracked_step _ (Wait t)), (tracked_step _ (Invoke a)), H. }
    destruct (IH _ H' Hl') as [IH1 IH2]. split; [|exact IH2].
    rewrite IH1. unfold elapse. cbn [calls]. rewrite Q, C, K.
    cbn [filter]. unfold is_due. cbn [due].
    destruct (Nat.leb_spec (clock w + delay) (clock w + t)); [lia|].
    simpl. apply app_nil_r.
Qed.

(** X18.  One call per burst.  After any history, a burst of calls in
    which less than [delay] ms pass after each call, followed by a last
    call and at least [delay] ms of quiet, runs [func] exactly once more,
    with the arguments of the last call, and leaves no timer waiting. *)
Theorem debounce_burst history l a T :
  Forall (fun at_ => snd at_ < delay) l -> delay <= T ->
  let w := run delay history (@start A) in
  calls (run delay (burst l ++ [Invoke a; Wait T]) w) = calls w ++ [a]
  /\ queue (run delay (burst l ++ [Invoke a; Wait T]) w) = [].
Proof.
  intros Hl HT w.
  assert (tracked w) as H by (apply tracked_run, tracked_start).
  unfold run. rewrite fold_left_app. fold (run delay (burst l) w).
  destruct (burst_calls l w H Hl) as [C H'].
  set (w1 := run delay (burst l) w) in *.
  cbn [fold_left step].
  destruct (invoke_tracked w1 a H') as (Q & C1 & K).
  unfold elapse. cbn [calls queue]. rewrite Q, C1, K, C.
  cbn [filter]. unfold is_due. cbn [due].
  destruct (Nat.leb_spec (clock w1 + delay) (clock w1 + T)); [|lia].
  split; reflexivity.
Qed.

(** What one event does to the calls made and the call that waits. *)
Lemma step_calls (w : world A) ev :
  tracked w ->
  incl (calls (step delay w ev) ++ map args (queue (step delay w ev)))
       (calls w ++ map args (queue w) ++ invoked [ev])
  /\ List.length (calls (step delay w ev))
     + List.length (queue (step delay w ev))
     <= List.length (calls w) + List.length (queue w)
        + List.length (invoked [ev]).
Proof.
  intros H. destruct ev as [a|t]; cbn [step].
  - destruct (invoke_tracked w a H) as (Q & C & _). rewrite Q, C.
    cbn [List.length map args invoked flat_map app]. split; [|lia].
    intros x Hx. apply in_app_or in Hx. apply in_or_app.
    destruct Hx as [Hx|[<-|[]]]; [left; exact Hx|right].
    apply in_or_app. right. left. reflexivity.
  - unfold elapse. cbn [queue calls invoked flat_map app].
    rewrite app_nil_r. unfold tracked in H.
    destruct (queue w) as [|x [|y q]]; try tauto.
    + simpl. rewrite !app_nil_r. split; [apply incl_refl|lia].
    + cbn [filter]. destruct (is_due (clock w + t) x);
        cbn [negb map args List.length app]; rewrite ?app_nil_r;
        rewrite ?length_app; cbn [List.length]; split;
        try apply incl_refl; lia.
Qed.

Lemma run_calls evs : forall (w : world A),
  tracked w ->
  incl (calls (run delay evs w) ++ map args (queue (run delay evs w)))
       (calls w ++ map args (queue w) ++ invoked evs)
  /\ List.length (calls (run delay evs w))
     + List.length (queue (run delay evs w))
     <= List.length (calls w) + List.length (queue w)
        + List.length (invoked evs).
Proof.
  induction evs as [|ev evs IH]; intros w H.
  - simpl. rewrite app_nil_r. split; [apply incl_refl|lia].
  - change (run delay (ev :: evs) w) with (run delay evs (step delay w ev)).
    destruct (IH _ (tracked_step w ev H)) as [I1 L1].
    destruct (step_calls w ev H) as [I2 L2].
    assert (invoked (ev :: evs) = invoked [ev] ++ invoked evs) as ->
        by (unfold invoked; simpl; rewrite app_nil_r; reflexivity).
    rewrite length_app. split; [|lia].
    intros x Hx. apply I1 in Hx. rewrite app_assoc in Hx.
    apply in_app_or in Hx. rewrite !app_assoc. apply in_or_app.
    destruct Hx as [Hx|Hx]; [left|right; exact Hx].
    rewrite <- app_assoc. apply I2. exact Hx.
Qed.

(** X19.  What the debounced function never does.  After any history
    at most one timer waits, [func] was called only with arguments that
    some call passed, and not more often than the debounced function. *)
Theorem debounce_safety history :
  let w := run delay history (@start A) in
  List.length (queue w) <= 1
  /\ incl (calls w) (invoked history)
  /\ List.length (calls w) <= List.length (invoked history).
Proof.
  intros w.
  pose proof (tracked_run history start tracked_start) as T.
  destruct (run_calls history start tracked_start) as [I L].
  fold w in T, I, L. cbn [calls queue start map app List.length] in I, L.
  split; [|split].
  - unfold tracked in T. destruct (queue w) as [|x [|y q]]; simpl;
      try lia; tauto.
  - intros x Hx. apply I. apply in_or_app. left. exact Hx.
  - lia.
Qed.

End Facts.

Lemma debounce_burst_witness :
  let w := run 350 [] (@start string) in
  calls (run 350 (burst [("l", 100); ("la", 120)]
                  ++ [Invoke "lap"; Wait 350]) w)
  = calls w ++ ["lap"]
  /\ queue (run 350 (burst [("l", 100); ("la", 120)]
                     ++ [Invoke "lap"; Wait 350]) w) = [].
Proof.
  apply (debounce_burst string 350 [] [("l", 100); ("la", 120)] "lap" 350).
  - repeat constructor; simpl; lia.
  - apply le_n.
Defined.

End DebounceFacts.

(** * The grid after filtering *)

Module GridFacts.

Import Filters FiltersSpec GridSpec.

Section Matching.

Variable toLowerCase : string -> string.

Lemma filter_card_id pg c : card_id (filter_card toLowerCase pg c) = card_id c.
Proof.
  unfold filter_card. destruct (find _ (allProductsData pg)); reflexivity.
Qed.

(** The filter reads the products, the controls and the category, not
    what the cards show. *)
Lemma filter_card_twice pg pg' c :
  allProductsData pg' = allProductsData pg -> inputs pg' = inputs pg ->
  selectedCategory pg' = selectedCategory pg ->
  filter_card toLowerCase pg' (filter_card toLowerCase pg c)
  = filter_card toLowerCase pg c.
Proof.
  intros Ed Ei Ec. unfold filter_card at 1. rewrite filter_card_id, Ed.
  unfold filter_card.
  destruct (find _ (allProductsData pg)) as [p|]; [|reflexivity].
  cbn [card_id]. f_equal.
  unfold isVisible, nameMatches, categoryMatches, priceMatches, brandMatches,
    searchTerm, currentMinPrice, currentMaxPrice, selectedBrands.
  rewrite Ei, Ec. reflexivity.
Qed.

(** X20.  Filtering a second time changes nothing: the cards, the
    message and the rest of the page stay as the first pass left them. *)
Theorem applyAllFilters_idempotent pg :
  applyAllFilters toLowerCase (applyAllFilters toLowerCase pg)
  = applyAllFilters toLowerCase pg.
Proof.
  destruct (isLoading pg) eqn:L.
  - assert (applyAllFilters toLowerCase pg = pg) as E
        by (unfold applyAllFilters; rewrite L; reflexivity).
    rewrite !E. reflexivity.
  - destruct (allProductsData pg) as [|q products] eqn:Ep.
    + destruct (cards pg) as [|c cs] eqn:Ec.
      * assert (applyAllFilters toLowerCase pg
                = {| allProductsData := []; cards := [];
                     selectedCategory := selectedCategory pg;
                     isLoading := false; inputs := inputs pg;
                     noResultsMsg := false |}) as E
            by (unfold applyAllFilters; rewrite L, Ep, Ec; reflexivity).
        rewrite E. reflexivity.
      * assert (applyAllFilters toLowerCase pg
                = {| allProductsData := [];
                     cards := map (filter_card toLowerCase pg) (c :: cs);
                     selectedCategory := selectedCategory pg;
                     isLoading := false; inputs := inputs pg;
                     noResultsMsg := false |}) as E.
        { unfold applyAllFilters. rewrite L, Ep, Ec, andb_false_r.
          reflexivity. }
        rewrite E. unfold applyAllFilters at 1.
        cbn [isLoading allProductsData cards map selectedCategory inputs].
        rewrite andb_false_r. f_equal. f_equal.
        -- apply filter_card_twice; [rewrite Ep| |]; reflexivity.
        -- rewrite map_map. apply map_ext. intros x.
           apply filter_card_twice; [rewrite Ep| |]; reflexivity.
    + assert (applyAllFilters toLowerCase pg
              = {| allProductsData := q :: products;
                   cards := map (filter_card toLowerCase pg) (cards pg);
                   selectedCategory := selectedCategory pg;
                   isLoading := false; inputs := inputs pg;
                   noResultsMsg :=
                     negb (existsb shown
                             (map (filter_card toLowerCase pg) (cards pg)))
                     && true |}) as E
          by (unfold applyAllFilters; rewrite L, Ep; reflexivity).
      rewrite E. unfold applyAllFilters at 1.
      cbn [isLoading allProductsData cards selectedCategory inputs].
      rewrite map_map.
      rewrite (map_ext (fun x => filter_card toLowerCase _
                                   (filter_card toLowerCase pg x))
                       (filter_card toLowerCase pg)).
      * reflexivity.
      * intros x. apply filter_card_twice; [rewrite Ep| |]; reflexivity.
Qed.

Lemma none_shown (cs : list card) (products : list product) :
  List.length cs = List.length products ->
  existsb shown cs = false
  <-> map snd (filter (fun cp => shown (fst cp)) (List.combine cs products))
      = [].
Proof.
  revert products.
  induction cs as [|c cs IH]; intros [|q products] L; simpl in *;
    try discriminate; [tauto|].
  injection L as L. destruct (shown c); simpl.
  - split; discriminate.
  - apply IH, L.
Qed.

(** X21.  The message "no products found" is shown after filtering if
    and only if the catalog has products and none of them is visible.
    (While products are being fetched the filter does nothing.) *)
Theorem noResultsMsg_spec pg :
  isLoading pg = false ->
  List.length (cards pg) = List.length (allProductsData pg) ->
  (noResultsMsg (applyAllFilters toLowerCase pg) = true
   <-> allProductsData pg <> []
       /\ visible (applyAllFilters toLowerCase pg) = []).
Proof.
  intros Hl Hlen. unfold applyAllFilters. rewrite Hl.
  destruct (allProductsData pg) as [|q products] eqn:Ep.
  - destruct (cards pg) as [|c cs] eqn:Ec; [|discriminate Hlen].
    cbn [noResultsMsg]. split; [discriminate|]. intros [H _]. congruence.
  - cbn [noResultsMsg]. rewrite andb_true_r, negb_true_iff.
    unfold visible. cbn [cards allProductsData].
    rewrite none_shown by (rewrite length_map; exact Hlen).
    split; [intros H; split; [discriminate|exact H]|tauto].
Qed.

End Matching.

Lemma noResultsMsg_spec_witness :
  noResultsMsg (applyAllFilters lower silent_page) = true
  <-> allProductsData silent_page <> []
      /\ visible (applyAllFilters lower silent_page) = [].
Proof.
  apply (noResultsMsg_spec lower silent_page); reflexivity.
Defined.

(** A search for "sofa" in the catalog of the example shows the message
    and no product. *)
Example nothing_found :
  noResultsMsg (applyAllFilters lower silent_page) = true
  /\ visible (applyAllFilters lower silent_page) = [].
Proof. split; vm_compute; reflexivity. Qed.

End GridFacts.

(** * The overlays: scroll lock and close controls *)

Module LayersFacts.

Import Overlays OverlaysSpec LayersSpec.

Lemma settled_updateBodyScroll d : settled (updateBodyScroll d).
Proof. right. destruct d. reflexivity. Qed.

Lemma settled_panel e b d :
  is_backdrop e = false -> settled d -> settled (set_visible e b d).
Proof.
  intros He H. destruct d. destruct e; try discriminate; exact H.
Qed.

Lemma settled_schedule t d : settled d -> settled (schedule t d).
Proof.
  intros [H|H]; [left|right].
  - destruct d. simpl in *. apply in_or_app. left. exact H.
  - destruct d. exact H.
Qed.

Lemma settled_authForm f d : settled d -> settled (set_authForm f d).
Proof. destruct d. exact (fun H => H). Qed.

Lemma settled_openOverlay e d : settled d -> settled (openOverlay e d).
Proof.
  intros H. unfold openOverlay.
  destruct (visible e d); [exact H|apply settled_updateBodyScroll].
Qed.

Lemma settled_closeOverlay e d : settled d -> settled (closeOverlay e d).
Proof.
  intros H. unfold closeOverlay.
  destruct (negb (visible e d)); [exact H|].
  left. destruct d. simpl. destruct e; simpl; apply in_or_app; right;
    left; reflexivity.
Qed.

Lemma settled_closeSidebar e d :
  is_backdrop e = false -> settled d -> settled (closeSidebar e d).
Proof.
  intros He H. unfold closeSidebar.
  destruct (negb (visible e d)); [exact H|].
  apply settled_closeOverlay, settled_panel; assumption.
Qed.

Lemma settled_closeAllSidebars d : settled d -> settled (closeAllSidebars d).
Proof.
  intros H. unfold closeAllSidebars.
  repeat match goal with
         | |- settled (if ?b then _ else _) => destruct b
         | |- settled (closeSidebar _ _) =>
             apply settled_closeSidebar; [reflexivity|]
         end; exact H.
Qed.

Lemma settled_closeProductModal d :
  settled d -> settled (closeProductModal d).
Proof.
  intros H. unfold closeProductModal.
  destruct (negb (productModal d)); [exact H|].
  apply settled_panel; [reflexivity|]. apply settled_closeOverlay, H.
Qed.

Lemma settled_closeAuthModal d : settled d -> settled (closeAuthModal d).
Proof.
  intros H. unfold closeAuthModal.
  destruct (negb (authModal d)); [exact H|].
  apply settled_panel; [reflexivity|]. apply settled_closeOverlay, H.
Qed.

Lemma settled_closeZoom d : settled d -> settled (closeZoom d).
Proof.
  intros H. unfold closeZoom.
  destruct (negb (zoomOverlay d)); [exact H|apply settled_closeOverlay, H].
Qed.

Lemma settled_closeAllPopups d : settled d -> settled (closeAllPopups d).
Proof.
  intros H. unfold closeAllPopups.
  destruct (isZoomOverlayActive d); [apply settled_closeZoom, H|].
  destruct (authModal d); [apply settled_closeAuthModal, H|].
  destruct (productModal d); [apply settled_closeProductModal, H|].
  destruct (isSidebarOverlayActive d); [apply settled_closeAllSidebars, H|].
  exact H.
Qed.

Lemma settled_openSidebar e d :
  is_backdrop e = false -> settled d -> settled (openSidebar e d).
Proof.
  intros He H. unfold openSidebar. destruct (visible e d); [exact H|].
  apply settled_openOverlay, settled_panel; [exact He|].
  apply settled_closeAllPopups, H.
Qed.

Lemma settled_openAuthModal f d : settled d -> settled (openAuthModal f d).
Proof.
  intros H. unfold openAuthModal. destruct (authModal d); [exact H|].
  apply settled_schedule, settled_closeAllPopups, H.
Qed.

Lemma settled_run t d :
  settled d -> settled (run t d).
Proof.
  intros H. destruct t as [|f|f]; cbn [run].
  - apply settled_updateBodyScroll.
  - apply settled_openAuthModal, H.
  - destruct (authModal d); [exact H|].
    apply settled_panel; [reflexivity|].
    apply settled_openOverlay, settled_authForm, H.
Qed.

Lemma step_timer d :
  step TimerFires d
  = match timers d with [] => d | t :: _ => run t (pop d) end.
Proof. destruct d as [? ? ? ? ? ? ? ? ? ? ? [|t ts]]; reflexivity. Qed.

Lemma settled_step ev d : settled d -> settled (step ev d).
Proof.
  intros H. destruct ev as [sb|sb| | | | | |f| | |]; cbn [step].
  - destruct sb; cbn [is_sidebar]; trivial;
      match goal with |- context [visible ?e d] => destruct (visible e d) end;
      first [ apply settled_closeSidebar; [reflexivity|exact H]
            | apply settled_openSidebar; [reflexivity|exact H] ].
  - destruct sb; cbn [is_sidebar]; trivial;
      (apply settled_closeSidebar; [reflexivity|exact H]).
  - apply settled_closeAllSidebars, H.
  - unfold openProductModal. apply settled_openOverlay.
    apply settled_panel; [reflexivity|]. apply settled_closeAllPopups, H.
  - apply settled_closeProductModal, H.
  - apply settled_openOverlay, H.
  - apply settled_closeZoom, H.
  - unfold authTrigger. destruct (nav d).
    + apply settled_schedule, settled_closeSidebar; [reflexivity|exact H].
    + apply settled_openAuthModal, H.
  - apply settled_closeAuthModal, H.
  - apply settled_closeAllPopups, H.
  - change (settled (step TimerFires d)). rewrite step_timer.
    destruct (timers d) as [|t ts] eqn:E; [exact H|].
    destruct t as [|f|f].
    + apply settled_updateBodyScroll.
    + apply settled_run. destruct H as [H|H]; [left|right].
      * rewrite E in H. destruct H as [H|H]; [discriminate|].
        destruct d. simpl in *. subst. exact H.
      * destruct d. exact H.
    + apply settled_run. destruct H as [H|H]; [left|right].
      * rewrite E in H. destruct H as [H|H]; [discriminate|].
        destruct d. simpl in *. subst. exact H.
      * destruct d. exact H.
Qed.

(** X22.  The scroll lock.  After any sequence of user actions and timer
    ticks from the initial page, the class [no-scroll] of the body is up
    to date with the backdrops, or a timer that will bring it up to date
    is still waiting; so once no timer waits, the page is locked exactly
    when a backdrop is visible. *)
Theorem scroll_lock_follows_backdrops evs :
  settled (steps evs initial)
  /\ (timers (steps evs initial) = [] ->
      noScroll (steps evs initial) = backdrop (steps evs initial)).
Proof.
  assert (settled (steps evs initial)) as H.
  { unfold steps. generalize initial, (or_intror eq_refl : settled initial).
    induction evs as [|ev evs IH]; intros d Hd; [exact Hd|].
    simpl. apply IH, settled_step, Hd. }
  split; [exact H|]. intros T. destruct H as [H|H]; [|exact H].
  rewrite T in H. destruct H.
Qed.

(** In a state that shows the overlay [A] or none, every element's
    visibility is known. *)
Lemma shows_state A d :
  shows A d = true ->
  d = {| nav := expected A Nav; cartSidebar := expected A CartSidebar;
         filterSidebar := expected A FilterSidebar;
         overlay := expected A Overlay;
         productModal := expected A ProductModal;
         modalOverlay := expected A ModalOverlay;
         authModal := expected A AuthModal;
         authModalOverlay := expected A AuthModalOverlay;
         zoomOverlay := expected A ZoomOverlay;
         authForm := authForm d; noScroll := noScroll d;
         timers := timers d |}.
Proof.
  intros H. destruct d as [n c fl o pm mo am ao z af s t].
  unfold shows, elements in H. cbn [forallb visible] in H.
  repeat (apply andb_prop in H; destruct H as [? H]).
  repeat match goal with
         | E : Bool.eqb _ _ = true |- _ => apply Bool.eqb_prop in E
         end.
  cbn [nav cartSidebar filterSidebar overlay productModal modalOverlay
       authModal authModalOverlay zoomOverlay] in *.
  subst. reflexivity.
Qed.

Ltac known_state H d :=
  rewrite (shows_state _ d H); clear H;
  generalize (authForm d), (noScroll d), (timers d); clear d.

(** X23.  The Escape key closes the top layer only.  With the zoom
    layer visible it hides the zoom layer and nothing else.  With one
    overlay open it closes that overlay and, once the timers have run,
    the page scrolls again.  With the zoom layer over an overlay, or
    alone, two presses close everything. *)
Theorem escape_closes_top_layer :
  (forall d e,
      zoomOverlay d = true ->
      visible e (step EscapeKey d)
      = match e with ZoomOverlay => false | _ => visible e d end)
  /\ (forall A d,
        shows (Some A) d = true -> timers d = [] ->
        shows None (act EscapeKey d) = true
        /\ noScroll (act EscapeKey d) = false)
  /\ (forall A d,
        shows A d = true -> A <> Some PZoom -> timers d = [] ->
        shows None (acts [EscapeKey; EscapeKey] (openZoom d)) = true
        /\ noScroll (acts [EscapeKey; EscapeKey] (openZoom d)) = false).
Proof.
  split; [|split].
  - intros d e Hz. destruct d. simpl in Hz. subst. destruct e; reflexivity.
  - intros A d H T. revert T. known_state H d.
    intros af s t T; cbn [timers] in T; subst t.
    destruct A; split; reflexivity.
  - intros A d H HA T. revert T. known_state H d.
    intros af s t T; cbn [timers] in T; subst t.
    destruct A as [[]|]; try (exfalso; apply HA; reflexivity);
      split; reflexivity.
Qed.

(** X24.  The close controls.  The close button of the open overlay
    closes it and unlocks the scrolling; the close button of an overlay
    that is not open does nothing; an open sidebar is also closed by its
    toggle button and by a click on the backdrop. *)
Theorem close_controls :
  (forall A d,
      shows (Some A) d = true -> timers d = [] ->
      shows None (act (closer A) d) = true
      /\ noScroll (act (closer A) d) = false)
  /\ (forall A B d,
        shows B d = true -> B <> Some A -> step (closer A) d = d)
  /\ (forall A d,
        shows (Some A) d = true -> timers d = [] ->
        A = PNav \/ A = PCart \/ A = PFilters ->
        shows None (act (ToggleClick (sidebar_of A)) d) = true
        /\ shows None (act OverlayClick d) = true).
Proof.
  split; [|split].
  - intros A d H T. revert T. known_state H d.
    intros af s t T; cbn [timers] in T; subst t.
    destruct A; split; reflexivity.
  - intros A B d H HB. known_state H d. intros af s t.
    destruct B as [[]|];
      destruct A; try (exfalso; apply HB; reflexivity); reflexivity.
  - intros A d H T HA. revert T. known_state H d.
    intros af s t T; cbn [timers] in T; subst t.
    destruct HA as [->|[->| ->]]; split; reflexivity.
Qed.


(** The scenarios: the cart sidebar is closed with Escape or its close
    button; the zoom layer over the quick view takes two presses; the
    sign-up trigger replaces the open cart by the sign-in modal. *)
Example layers_scenarios :
  let cart_open := act (ToggleClick CartSidebar) initial in
  let zoomed := acts [ViewDetailsClick; ImageClick] initial in
  shows (Some PCart) cart_open = true /\ noScroll cart_open = true
  /\ shows None (act EscapeKey cart_open) = true
  /\ noScroll (act EscapeKey cart_open) = false
  /\ shows (Some PQuickView) (act EscapeKey zoomed) = true
  /\ shows None (acts [EscapeKey; EscapeKey] zoomed) = true
  /\ shows None (act (CloseClick CartSidebar) cart_open) = true
  /\ shows (Some PAuth) (act (AuthTriggerClick Signup) cart_open) = true
  /\ authForm (act (AuthTriggerClick Signup) cart_open) = Signup
  /\ noScroll (act (AuthTriggerClick Signup) cart_open) = true.
Proof. vm_compute. repeat split; reflexivity. Qed.

End LayersFacts.
